(** * mttl: adapters, modifier registry, expert loading and expert library

    A shallow embedding of the parts of the mttl repository that its
    specification makes claims about, and of functions around them:

    - [mttl/models/adapters.py]: the [LoRA], [IA3], [LN] and [SkilledLoRA]
      adapters, construction and forward pass;
    - [mttl/models/modifiers/modify_model.py]: the modifier registry;
    - [projects/wiki_experts/expert_model.py]: [push_expert_to_hub],
      [MultiExpertModel.load_expert] and the batch that [expert_choice]
      prepares;
    - [projects/wiki_experts/mmlu_exper_merge_nevergrad.py]:
      [parse_experts_to_load];
    - [projects/instr_routing/models/encdec.py]: the decoder inputs and
      targets of [training_step], the outputs gathered by
      [inference_epoch_end], the step count of [configure_optimizers];
    - [post_init] of the two configurations, the validation interval of
      [train_module] and [ValLossCheckpointCallback];
    - the expert library, of which the sources only hold the tests.

    Conventions of the embedding.

    - Tensor entries are real numbers: rounding, overflow and NaN of IEEE
      arithmetic are not modelled.  What the code does about precision is
      kept as a [dtype] tag on every tensor, so casts ([.to(dtype)]) and type
      promotion are visible although they do not change the entries; where
      a theorem says that a result is exactly a given tensor, its
      hypotheses keep to inputs for which no cast on the way rounds.
    - Activations are three-dimensional (batch, sequence, features) nested
      lists; shape mismatches, which torch rejects, are outside the model
      (binary operations zip and truncate), dtype mismatches are errors.
    - A Python object that is mutated in place is threaded explicitly: a
      method returns the new state of [self] next to its result.
    - Python exceptions are the [Raise] case of [result]. *)

From Stdlib Require Import Reals Lra ZArith.
From stdpp Require Import base decidable option list strings gmap.

(** ** Python values and exceptions *)

Inductive PyExc : Type :=
  | ValueError (msg : string)
  | RuntimeError (msg : string)
  | NotImplementedError (msg : string)
  | IndexError (msg : string)
  | KeyError (msg : string)
  | ZeroDivisionError
  | AssertionError
  | AttributeError (msg : string)
  | FileNotFoundError (msg : string)
  | TypeError (msg : string).

Inductive result (A : Type) : Type :=
  | Ok (a : A)
  | Raise (e : PyExc).
Arguments Ok {A} a.
Arguments Raise {A} e.

#[global] Instance result_ret : MRet result := fun A a => Ok a.
#[global] Instance result_bind : MBind result :=
  fun A B f m => match m with Ok a => f a | Raise e => Raise e end.

(** Truthiness of a value that is [None] or a [str], and Python's [a or b]. *)
Definition truthy (v : option string) : bool :=
  match v with
  | Some s => negb (String.eqb s "")
  | None => false
  end.

Definition py_or (a b : option string) : option string :=
  if truthy a then a else b.

(** ** Tensors *)

Module Torch.

Inductive dtype : Type := float16 | bfloat16 | float32 | float64 | int8.

#[global] Instance dtype_eq_dec : EqDecision dtype.
Proof. solve_decision. Defined.

(** [torch.promote_types] on the dtypes above. *)
Definition promote_types (a b : dtype) : dtype :=
  match a, b with
  | float64, _ | _, float64 => float64
  | float32, _ | _, float32 => float32
  | float16, bfloat16 | bfloat16, float16 => float32
  | float16, _ | _, float16 => float16
  | bfloat16, _ | _, bfloat16 => bfloat16
  | int8, int8 => int8
  end.

Record Tensor (A : Type) : Type := mkTensor { dtype_of : dtype; data : A }.
Arguments mkTensor {A} _ _.
Arguments dtype_of {A} _.
Arguments data {A} _.

(** [t.to(d)]: the entries are kept and the tag changes.  That is what the
    code does when the target dtype holds every value of the source; a
    narrowing cast rounds, which real entries do not show.  Statements that
    a result is exactly some tensor are therefore made only for inputs on
    whose way every cast is exact. *)
Definition to {A} (d : dtype) (t : Tensor A) : Tensor A := mkTensor d (data t).

Abbreviation vector := (list R).
Abbreviation matrix := (list (list R)).

Definition vsum (v : vector) : R := foldr Rplus 0%R v.
Definition dot (u v : vector) : R := vsum (zip_with Rmult u v).
Definition vscale (c : R) (v : vector) : vector := map (Rmult c) v.
Definition vadd (u v : vector) : vector := zip_with Rplus u v.

Definition zeros (rows cols : nat) : matrix := replicate rows (replicate cols 0%R).

Definition ncols (a : matrix) : nat :=
  match a with
  | [] => 0
  | r :: _ => length r
  end.

Definition column (j : nat) (a : matrix) : vector := map (fun r => nth j r 0%R) a.
Definition columns (a : matrix) : list vector := map (fun j => column j a) (seq 0 (ncols a)).

(** A row vector times a matrix, and the matrix product. *)
Definition vecmat (v : vector) (a : matrix) : vector := map (dot v) (columns a).
Definition mat_mul (x a : matrix) : matrix := map (fun row => vecmat row a) x.
Definition mat_scale (c : R) (x : matrix) : matrix := map (vscale c) x.
Definition mat_add (x y : matrix) : matrix := zip_with vadd x y.

Definition same_dtype_error : PyExc :=
  RuntimeError "expected both operands to have the same dtype".

(** [torch.matmul(x, a)] for a batched [x] and a two-dimensional [a]. *)
Definition matmul (x : Tensor (list matrix)) (a : Tensor matrix)
  : result (Tensor (list matrix)) :=
  if decide (dtype_of x = dtype_of a)
  then Ok (mkTensor (dtype_of x) (map (fun m => mat_mul m (data a)) (data x)))
  else Raise same_dtype_error.

(** [x.bmm(a)]: one matrix product per example of the batch. *)
Definition bmm (x a : Tensor (list matrix)) : result (Tensor (list matrix)) :=
  if decide (dtype_of x = dtype_of a)
  then Ok (mkTensor (dtype_of x) (zip_with mat_mul (data x) (data a)))
  else Raise same_dtype_error.

(** [t * c] for a Python float [c]: the dtype of [t] is kept. *)
Definition mul_scalar (t : Tensor (list matrix)) (c : R) : Tensor (list matrix) :=
  mkTensor (dtype_of t) (map (mat_scale c) (data t)).

(** [s + t] for two tensors: the result has the promoted dtype. *)
Definition add (s t : Tensor (list matrix)) : Tensor (list matrix) :=
  mkTensor (promote_types (dtype_of s) (dtype_of t)) (zip_with mat_add (data s) (data t)).

(** [nn.Linear]: [weight] has shape (out_features, in_features).  The
    attribute [in_features] is kept beside the weight: a layer without
    output features has no row to read it from.  [out_features] is the
    number of rows of the weight. *)
Record Linear : Type := mkLinear {
  Linear_in_features : nat;
  weight : Tensor matrix;
  bias : option vector
}.

Definition Linear_out_features (l : Linear) : nat := length (data (weight l)).

Definition linear_row (l : Linear) (row : vector) : vector :=
  let y := map (dot row) (data (weight l)) in
  match bias l with
  | Some b => vadd y b
  | None => y
  end.

Definition linear_data (l : Linear) (x : list matrix) : list matrix :=
  map (map (linear_row l)) x.

(** Calling the layer.  A floating-point layer rejects an input of another
    dtype; a quantised ([int8]) layer takes any input. *)
Definition Linear_call (l : Linear) (x : Tensor (list matrix)) : result (Tensor (list matrix)) :=
  if decide (dtype_of x = dtype_of (weight l) \/ dtype_of (weight l) = int8)
  then Ok (mkTensor (dtype_of x) (linear_data l (data x)))
  else Raise same_dtype_error.

(** The modules an adapter can be asked to wrap: an [nn.Linear], or a module
    of another class, which may or may not have the attributes
    [in_features] and [out_features]. *)
Inductive NNModule : Type :=
  | nnLinear (l : Linear)
  | nnOther (class_name : string) (in_features out_features : option nat).

(** What [nn.Module.__getattr__] raises for a missing attribute. *)
Definition no_attribute (class_name attr : string) : PyExc :=
  AttributeError ("'" ++ class_name ++ "' object has no attribute '" ++ attr ++ "'").

(** [layer.in_features] and [layer.out_features]. *)
Definition getattr_in_features (lyr : NNModule) : result nat :=
  match lyr with
  | nnLinear l => Ok (Linear_in_features l)
  | nnOther _ (Some n) _ => Ok n
  | nnOther c None _ => Raise (no_attribute c "in_features")
  end.

Definition getattr_out_features (lyr : NNModule) : result nat :=
  match lyr with
  | nnLinear l => Ok (Linear_out_features l)
  | nnOther _ _ (Some n) => Ok n
  | nnOther c _ None => Raise (no_attribute c "out_features")
  end.

(** [torch.empty(rows, cols)]: the entries are whatever the storage holds;
    [mem] gives them by offset. *)
Definition empty (mem : nat -> R) (rows cols : nat) : matrix :=
  map (fun i => map (fun j => mem (i * cols + j)) (seq 0 cols)) (seq 0 rows).


(** The random generator: [gen_sample g k] is the [k]-th number it yields,
    in the unit interval; [gen_pos] counts the numbers consumed. *)
Record Generator : Type := mkGenerator { gen_sample : nat -> R; gen_pos : nat }.

Definition uniform_row (lo hi : R) (g : Generator) (start n : nat) : vector :=
  map (fun k => (lo + (hi - lo) * gen_sample g (start + k))%R) (seq 0 n).

(** [t.uniform_(lo, hi)] on a tensor of shape (rows, cols). *)
Definition uniform_ (lo hi : R) (rows cols : nat) (g : Generator) : matrix * Generator :=
  (map (fun i => uniform_row lo hi g (gen_pos g + i * cols) cols) (seq 0 rows),
   mkGenerator (gen_sample g) (gen_pos g + rows * cols)).

(** [nn.init.calculate_gain("leaky_relu", param)]. *)
Definition calculate_gain_leaky_relu (param : R) : R := sqrt (2 / (1 + param * param)).

End Torch.
Import Torch.

(** ** mttl/models/adapters.py *)

Module Adapters.

(** The fields of the configuration object that the adapters read. *)
Record Config : Type := mkConfig {
  lora_rank : nat;
  lora_alpha : R;
  lora_dropout : R;
  lora_warmup : bool;
  lora_init_b_random : bool;
  n_splits : nat;
  n_skills : nat
}.

(** *** class LoRA *)

Record LoRA : Type := mkLoRA {
  config : Config;
  rank : nat;
  alpha : R;
  dropout : R;
  use_warmup : bool;
  in_features : nat;
  out_features : nat;
  init_b_random : bool;
  training_steps : Z;
  scaling : R;
  layer : Linear;
  lora_a : Tensor matrix;
  lora_b : Tensor matrix;
  training : bool
}.


Definition set_lora_a (self : LoRA) (a : Tensor matrix) : LoRA :=
  mkLoRA (config self) (rank self) (alpha self) (dropout self) (use_warmup self)
    (in_features self) (out_features self) (init_b_random self) (training_steps self)
    (scaling self) (layer self) a (lora_b self) (training self).

Definition set_lora_b (self : LoRA) (b : Tensor matrix) : LoRA :=
  mkLoRA (config self) (rank self) (alpha self) (dropout self) (use_warmup self)
    (in_features self) (out_features self) (init_b_random self) (training_steps self)
    (scaling self) (layer self) (lora_a self) b (training self).



(** [LoRA.reset_parameters]. *)
Definition reset_parameters (self : LoRA) (g : Generator) : result (LoRA * Generator) :=
  let gain := calculate_gain_leaky_relu (sqrt 5) in
  if decide (in_features self = 0) then Raise ZeroDivisionError else
  let std := (gain / sqrt (INR (in_features self)))%R in
  let '(a, g) := uniform_ (- std) std (in_features self) (rank self) g in
  let self := set_lora_a self (mkTensor (dtype_of (lora_a self)) a) in
  if use_warmup self || init_b_random self
  then
    let '(b, g) := uniform_ (- std) std (rank self) (out_features self) g in
    Ok (set_lora_b self (mkTensor (dtype_of (lora_b self)) b), g)
  else
    Ok (set_lora_b self (mkTensor (dtype_of (lora_b self))
                           (zeros (rank self) (out_features self))), g).

(** [LoRA.__init__] with [LoRA.create_for_layer] inlined.  The attributes
    of the layer are read first (line 31), then the scaling is computed
    (line 35), then the factors are created.  [torch.empty] leaves the
    entries unspecified: [mem 0] and [mem 1] are what the storage of
    [lora_a] and of [lora_b] holds before [reset_parameters] writes to it.
    A fresh [nn.Module] is in training mode. *)
Definition LoRA_init (cfg : Config) (lyr : NNModule) (mem : nat -> nat -> R) (g : Generator)
  : result (LoRA * Generator) :=
  in_features ← getattr_in_features lyr;
  out_features ← getattr_out_features lyr;
  if decide (lora_rank cfg = 0) then Raise ZeroDivisionError else
  match lyr with
  | nnLinear l =>
      reset_parameters
        (mkLoRA cfg (lora_rank cfg) (lora_alpha cfg) (lora_dropout cfg) (lora_warmup cfg)
           in_features out_features (lora_init_b_random cfg)
           0%Z (lora_alpha cfg / INR (lora_rank cfg))%R l
           (mkTensor float32 (empty (mem 0) in_features (lora_rank cfg)))
           (mkTensor float32 (empty (mem 1) (lora_rank cfg) out_features))
           true)
        g
  | nnOther _ _ _ => Raise (NotImplementedError "LoRA only supports nn.Linear layers.")
  end.

(** [LoRA.foward_layer] (spelt as in the source). *)
Definition foward_layer (lyr : Linear) (input : Tensor (list matrix))
  : result (Tensor (list matrix)) :=
  let dtype_input := dtype_of input in
  let dtype_layer := dtype_of (weight lyr) in
  let input :=
    if bool_decide (dtype_input <> dtype_layer) && bool_decide (dtype_layer <> int8)
    then to dtype_layer input else input in
  out ← Linear_call lyr input;
  Ok (to dtype_input out).

(** The gate [min(self.training_steps / 10_000, 1)]. *)
Definition warmup_gate (steps : Z) : R := Rmin (IZR steps / 10000) 1.

(** Lines 70-75 of [forward_linear_]: the low-rank correction. *)
Definition adapter_out (self : LoRA) (input : Tensor (list matrix))
  : result (Tensor (list matrix)) :=
  xa ← matmul input (lora_a self);
  xab ← matmul xa (lora_b self);
  let out := mul_scalar xab (scaling self) in
  let warmup := warmup_gate (training_steps self) in
  Ok (if use_warmup self then mul_scalar out warmup else out).






(** *** class LN *)

(** The wrapped normalisation layer: its [weight] and [variance_epsilon]. *)
Record LayerNorm : Type := mkLayerNorm {
  ln_weight : Tensor vector;
  ln_variance_epsilon : R
}.

Record LN : Type := mkLN {
  LN_out_features : nat;
  LN_weight : Tensor vector;
  LN_variance_epsilon : R;
  LN_lora_b : Tensor vector
}.

(** [LN.__init__]. *)
Definition LN_init (cfg : Config) (lyr : LayerNorm) : result LN :=
  let out_features := length (data (ln_weight lyr)) in
  if decide (n_splits cfg = 0) then Raise ZeroDivisionError else
  if decide (out_features mod n_splits cfg = 0)
  then Ok (mkLN out_features (ln_weight lyr) (ln_variance_epsilon lyr) (ln_weight lyr))
  else Raise AssertionError.

Definition mean (v : vector) : R := (vsum v / INR (length v))%R.

(** [input.to(torch.float32).pow(2).mean(-1, keepdim=True)]. *)
Definition LN_variance (input : Tensor (list matrix)) : Tensor (list matrix) :=
  let t := to float32 input in
  mkTensor (dtype_of t) (map (map (fun row => [mean (map (fun x => (x ^ 2)%R) row)])) (data t)).

(** [input / torch.sqrt(variance + eps)]: [variance] has a last dimension of
    size one, which is broadcast along the rows of [input]. *)
Definition div_rsqrt (input variance : Tensor (list matrix)) (eps : R) : Tensor (list matrix) :=
  mkTensor (promote_types (dtype_of input) (dtype_of variance))
    (zip_with (zip_with (fun row v => map (fun x => (x / sqrt (hd 0 v + eps))%R) row))
       (data input) (data variance)).

(** [LN.forward]. *)
Definition LN_forward (self : LN) (input : Tensor (list matrix)) : Tensor (list matrix) :=
  let variance := LN_variance input in
  let input := div_rsqrt input variance (LN_variance_epsilon self) in
  let input :=
    if bool_decide (dtype_of (LN_weight self) = float16) then to float16 input else input in
  mkTensor (promote_types (dtype_of (LN_lora_b self)) (dtype_of input))
    (map (map (fun row => zip_with Rmult (data (LN_lora_b self)) row)) (data input)).

(** Root-mean-square normalisation of one row: no centring, no shift. *)
Definition rms_norm_row (gamma : vector) (eps : R) (row : vector) : vector :=
  zip_with Rmult gamma
    (map (fun x => (x / sqrt (mean (map (fun y => (y ^ 2)%R) row) + eps))%R) row).

(** The standard layer normalisation of one row, as the specification names
    it: the row is centred on its mean, divided by the square root of its
    variance plus [eps], scaled by [gamma] and shifted by [beta]. *)
Definition standard_layer_norm_row (gamma beta : vector) (eps : R) (row : vector) : vector :=
  let mu := mean row in
  let var := mean (map (fun x => ((x - mu) ^ 2)%R) row) in
  vadd (zip_with Rmult gamma (map (fun x => ((x - mu) / sqrt (var + eps))%R) row)) beta.

Definition standard_layer_norm (gamma beta : vector) (eps : R) (x : list matrix) : list matrix :=
  map (map (standard_layer_norm_row gamma beta eps)) x.

(** *** class SkilledLoRA(LoRA)

    The fields inherited from [LoRA] are repeated with the prefix [sk_]; the
    factors are four-dimensional: (n_splits, n_skills, in/n_splits, rank)
    and (n_splits, n_skills, rank, out/n_splits). *)

Record SkilledLoRA : Type := mkSkilledLoRA {
  sk_n_splits : nat;
  sk_n_skills : nat;
  sk_rank : nat;
  sk_in_features : nat;
  sk_out_features : nat;
  sk_use_warmup : bool;
  sk_training_steps : Z;
  sk_scaling : R;
  sk_layer : Linear;
  sk_lora_a : Tensor (list (list matrix));
  sk_lora_b : Tensor (list (list matrix));
  sk_training : bool
}.

Definition sk_set_training_steps (self : SkilledLoRA) (n : Z) : SkilledLoRA :=
  mkSkilledLoRA (sk_n_splits self) (sk_n_skills self) (sk_rank self) (sk_in_features self)
    (sk_out_features self) (sk_use_warmup self) n (sk_scaling self) (sk_layer self)
    (sk_lora_a self) (sk_lora_b self) (sk_training self).

(** The routing weights handed to [SkilledLoRA.forward_linear_]: a vector of
    skill indices, one per example ([weights.ndim == 1]); a tensor of shape
    (batch, n_splits, n_skills); or a tensor of another rank. *)
Inductive Weights : Type :=
  | IndexWeights (idx : list Z)
  | MixWeights (w : Tensor (list matrix))
  | OtherWeights (ndim : nat).

(** Python's [l[i]] for an integer [i], negative indices counting from the end. *)
Definition py_index {A} (l : list A) (i : Z) : option A :=
  if decide (0 <= i)%Z then l !! Z.to_nat i
  else if decide (- Z.of_nat (length l) <= i)%Z then l !! Z.to_nat (Z.of_nat (length l) + i)
  else None.

(** [t[:, idx, :, :]]: of every block of the first dimension, the entries of
    the second dimension listed by [idx]; the result has shape
    (n_splits, len(idx), _, _). *)
Definition index_dim1 (t : Tensor (list (list matrix))) (idx : list Z)
  : result (Tensor (list (list matrix))) :=
  match mapM (fun block => mapM (py_index block) idx) (data t) with
  | Some d => Ok (mkTensor (dtype_of t) d)
  | None => Raise (IndexError "index out of range")
  end.

Definition mat_sum (rows cols : nat) (ms : list matrix) : matrix :=
  foldr mat_add (zeros rows cols) ms.

(** [torch.einsum("bqs,qsdr->bqdr", (w, t))]; [rows] and [cols] are the sizes
    of the last two dimensions of [t]. *)
Definition einsum_bqs_qsdr (rows cols : nat) (w : Tensor (list matrix))
  (t : Tensor (list (list matrix))) : result (Tensor (list (list matrix))) :=
  if decide (dtype_of w = dtype_of t)
  then Ok (mkTensor (dtype_of w)
             (map (fun wb => zip_with (fun wq tq => mat_sum rows cols (zip_with mat_scale wq tq))
                               wb (data t))
                (data w)))
  else Raise same_dtype_error.

(** [l.transpose(0, 1)] of a nested list. *)
Fixpoint transpose {A} (l : list (list A)) : list (list A) :=
  match l with
  | [] => []
  | r :: rs =>
      match rs with
      | [] => map (fun x => [x]) r
      | _ :: _ => zip_with cons r (transpose rs)
      end
  end.

(** [t.transpose(1, 2)] of a four-dimensional tensor. *)
Definition transpose_1_2 (t : Tensor (list (list matrix))) : Tensor (list (list matrix)) :=
  mkTensor (dtype_of t) (map transpose (data t)).

(** [t.reshape(d0, d1, d2)] of a four-dimensional tensor: the entries in
    row-major order, cut again. *)
Definition reshape3 (d0 d1 d2 : nat) (t : Tensor (list (list matrix)))
  : result (Tensor (list matrix)) :=
  let flat := concat (concat (concat (data t))) in
  if decide (length flat = d0 * d1 * d2)
  then Ok (mkTensor (dtype_of t)
             (map (reshape (replicate d1 d2)) (reshape (replicate d0 (d1 * d2)) flat)))
  else Raise (RuntimeError "shape is invalid for input size").

(** [SkilledLoRA.forward_linear_]. *)
Definition sk_forward_linear_ (self : SkilledLoRA) (input : Tensor (list matrix))
  (weights : Weights) : SkilledLoRA * result (Tensor (list matrix)) :=
  let self :=
    if sk_training self then sk_set_training_steps self (sk_training_steps self + 1)%Z
    else self in
  (self,
   let bs := length (data input) in
   ab ← match weights with
        | IndexWeights idx =>
            a ← index_dim1 (sk_lora_a self) idx;
            b ← index_dim1 (sk_lora_b self) idx;
            Ok (a, b)
        | MixWeights w =>
            a ← einsum_bqs_qsdr (sk_in_features self / sk_n_splits self) (sk_rank self)
                  w (sk_lora_a self);
            b ← einsum_bqs_qsdr (sk_rank self) (sk_out_features self / sk_n_splits self)
                  w (sk_lora_b self);
            Ok (a, b)
        | OtherWeights _ =>
            Raise (RuntimeError "einsum(): the number of subscripts does not match")
        end;
   a ← reshape3 bs (sk_in_features self) (sk_rank self) ab.1;
   b ← reshape3 bs (sk_rank self) (sk_out_features self) (transpose_1_2 ab.2);
   xa ← bmm input a;
   xab ← bmm xa b;
   let adapter_out := mul_scalar xab (sk_scaling self) in
   let warmup := warmup_gate (sk_training_steps self) in
   let adapter_out := if sk_use_warmup self then mul_scalar adapter_out warmup else adapter_out in
   base ← foward_layer (sk_layer self) input;
   Ok (add base adapter_out)).

(** The routing distribution that puts weight one on skill [idx[b]] for
    every split of example [b], and zero elsewhere. *)
Definition one_hot (n : nat) (i : Z) : vector :=
  map (fun s => if decide (Z.of_nat s = i) then 1%R else 0%R) (seq 0 n).

Definition one_hot_weights (dt : dtype) (splits skills : nat) (idx : list Z)
  : Tensor (list matrix) :=
  mkTensor dt (map (fun i => replicate splits (one_hot skills i)) idx).

Definition has_shape (rows cols : nat) (m : matrix) : Prop :=
  length m = rows /\ Forall (fun r => length r = cols) m.

(** The factors that the examples of a batch select, in two layouts: batch
    first (entry [b] holds, for every split, the factor of skill [idx[b]])
    and split first (entry [q] holds, for every example, the factor of its
    skill in split [q]). *)
Definition gather_batch_first (t : list (list matrix)) (idx : list nat) : list (list matrix) :=
  map (fun i => map (fun block => nth i block []) t) idx.

Definition gather_split_first (t : list (list matrix)) (idx : list nat) : list (list matrix) :=
  map (fun block => map (fun i => nth i block []) idx) t.

End Adapters.

(** ** mttl/models/modifiers/modify_model.py *)

Module ModifyModel.

(** A parameter of the transformer, as far as the registry touches it. *)
Record Param : Type := mkParam {
  param_name : string;
  requires_grad : bool
}.

(** The transformer: its parameters in [transformer.parameters()] order, and
    the attribute [task_id_container] ([None] while it is not set). *)
Record Transformer : Type := mkTransformer {
  parameters : list Param;
  task_id_container : option (gmap string string)
}.

(** The modifier configuration: its class ([type(config)]), its attribute
    [model_modifier] (absent, or [None], or a string) and the pattern
    [modify_layers] that the registered modifiers read. *)
Record ModifierConfig : Type := mkModifierConfig {
  config_type : string;
  model_modifier : option (option string);
  modify_layers : string
}.

(** [klass.modify_transformer] of a registered modifier class. *)
Abbreviation Modifier := (Transformer -> ModifierConfig -> result Transformer).

(** The two module-level tables. *)
Record Registry : Type := mkRegistry {
  MODIFIERS : gmap string Modifier;
  CONFIGS_TO_MODIFIERS : gmap string string
}.

(** [register_modifier(name, config_cls)(klass)]. *)
Definition register_modifier (name : string) (config_cls : option string) (klass : Modifier)
  (reg : Registry) : result Registry :=
  match MODIFIERS reg !! name with
  | Some _ =>
      Raise (ValueError ("Cannot register duplicate model modifier (" ++ name ++ ")"))
  | None =>
      Ok (mkRegistry (<[name := klass]> (MODIFIERS reg))
            (match config_cls with
             | Some c => <[c := name]> (CONFIGS_TO_MODIFIERS reg)
             | None => CONFIGS_TO_MODIFIERS reg
             end))
  end.

(** [getattr(config, "model_modifier", None)]. *)
Definition getattr_model_modifier (cfg : ModifierConfig) : option string :=
  match model_modifier cfg with
  | Some v => v
  | None => None
  end.

(** [get_modifier_type]. *)
Definition get_modifier_type (reg : Registry) (cfg : ModifierConfig)
  (model_modifier : option string) : option string :=
  let model_modifier := py_or model_modifier (getattr_model_modifier cfg) in
  let model_modifier := py_or model_modifier (CONFIGS_TO_MODIFIERS reg !! config_type cfg) in
  model_modifier.

(** [for param in transformer.parameters(): param.requires_grad = flag]. *)
Definition set_requires_grad (flag : bool) (t : Transformer) : Transformer :=
  mkTransformer (map (fun p => mkParam (param_name p) flag) (parameters t))
    (task_id_container t).

(** Lines 40-49 of [modify_transformer]: the container of the task id is
    reset and the gradient flags are set. *)
Definition prepare (t : Transformer) (cfg : ModifierConfig) : Transformer :=
  let t := mkTransformer (parameters t) (Some ∅) in
  if bool_decide (is_Some (model_modifier cfg)) && truthy (getattr_model_modifier cfg)
  then set_requires_grad false t
  else set_requires_grad true t.

Definition not_set_warning : string :=
  "Model modifier not set nor in config nor as an argument.".

(** [modify_transformer]: the warnings logged and the value returned. *)
Definition modify_transformer (reg : Registry) (transformer : Transformer)
  (modifier_config : ModifierConfig) (model_modifier : option string)
  : list string * result Transformer :=
  let transformer := prepare transformer modifier_config in
  match get_modifier_type reg modifier_config model_modifier with
  | None => ([not_set_warning], Ok transformer)
  | Some name =>
      if truthy (Some name)
      then
        match MODIFIERS reg !! name with
        | Some klass => ([], klass transformer modifier_config)
        | None => ([], Raise (ValueError ("Model modifier '" ++ name ++ "' not found.")))
        end
      else ([], Ok transformer)
  end.

(** The frame property as the specification words it: a parameter of the
    model before the call whose layer the pattern does not match is found
    unchanged, gradient flag included, in the model after the call. *)
Definition unmatched_untouched (matches : string -> bool) (before after : Transformer) : Prop :=
  forall p, p ∈ parameters before -> matches (param_name p) = false ->
            p ∈ parameters after.

End ModifyModel.

(** ** projects/wiki_experts/expert_model.py *)

Module ExpertModel.
Import ModifyModel.

Record ExpertConfig : Type := mkExpertConfig {
  model : string;
  expert_modify_layers : string
}.

(** What [module_graph.load_expert] returns. *)
Record Expert : Type := mkExpert {
  expert_config : ExpertConfig;
  expert_weights : gmap string (list (list R))
}.

(** [MultiExpertModel]: [self.hparams.model], [self.model], [self.experts]. *)
Record MultiExpertModel : Type := mkMultiExpertModel {
  hparams_model : string;
  live_model : Transformer;
  experts : list (option string)
}.

(** [str(x)] of a value that is [None] or a string. *)
Definition py_str (x : option string) : string := default "None" x.

Definition different_model_message (detected expected : string) : string :=
  ("The expert has been trained on top of a different model!"
   ++ " Detected: " ++ detected ++ " - Expected: " ++ expected)%string.

Section LoadExpert.

(** The two functions of the repository that [load_expert] calls and whose
    source is not at hand. *)
Variable module_graph_load_expert : string -> option string -> result Expert.
Variable add_expert_to_transformer :
  Transformer -> option string -> ExpertConfig -> gmap string (list (list R)) ->
  string -> bool -> option string -> result Transformer.

(** [MultiExpertModel.load_expert]: the state of [self] after the call, the
    lines logged, and the outcome. *)
Definition load_expert (self : MultiExpertModel) (expert_path : string)
  (expert_name : option string) (action : string) (is_default : bool)
  (load_only_layers : option string) : MultiExpertModel * list string * result unit :=
  match module_graph_load_expert expert_path expert_name with
  | Raise e => (self, [], Raise e)
  | Ok expert =>
      if bool_decide (hparams_model self <> model (expert_config expert))
      then (self, [],
            Raise (ValueError (different_model_message (model (expert_config expert))
                                 (hparams_model self))))
      else
        let log := [("Adding expert with name " ++ py_str expert_name
                     ++ "... with action ... " ++ action ++ "!")%string] in
        match add_expert_to_transformer (live_model self) expert_name (expert_config expert)
                (expert_weights expert) action is_default load_only_layers with
        | Raise e => (self, log, Raise e)
        | Ok m =>
            let self := mkMultiExpertModel (hparams_model self) m (experts self) in
            if bool_decide (action <> "merge")
            then (mkMultiExpertModel (hparams_model self) (live_model self)
                    (experts self ++ [expert_name]), log, Ok tt)
            else (self, log, Ok tt)
        end
  end.

End LoadExpert.

End ExpertModel.

(** ** The expert library

    The library class ([mttl/models/modifiers/expert_containers/expert_library.py])
    is not among the source files, which only hold its tests
    ([tests/test_expert_library.py]); the definitions of this module follow
    the specification. *)

Module ExpertLibrary.

(** Modelled from the spec: the metadata block of an Expert (section 3): its
    name, parent identifier, originating task and the soft-deletion flag. *)
Record Metadata : Type := mkMetadata {
  expert_name : string;
  parent_node : option string;
  expert_task_name : option string;
  expert_deleted : bool
}.

(** Modelled from the spec: the Expert entity (section 3), a bundle of
    configuration, weight tensors keyed by layer path, and metadata. *)
Record Expert : Type := mkExpert {
  expert_config : string * string;
  expert_weights : gmap string (list (list R));
  expert_info : Metadata
}.

(** Modelled from the spec: what an operation persists before it returns
    success (section 3, lifecycle): the stored experts, weights and metadata,
    and the human-readable index of the names that are not deleted. *)
Record Remote : Type := mkRemote {
  remote_experts : gmap string Expert;
  remote_index : list string
}.

(** Modelled from the spec: the library (section 3), a mapping from expert
    name to Expert in which soft-deleted entries stay, flagged in their
    metadata; and its persisted state. *)
Record Library : Type := mkLibrary {
  data : gmap string Expert;
  remote : Remote
}.

(** Modelled from the spec: writing the deletion flag of an entry. *)
Definition set_deleted (flag : bool) (e : Expert) : Expert :=
  mkExpert (expert_config e) (expert_weights e)
    (mkMetadata (expert_name (expert_info e)) (parent_node (expert_info e))
       (expert_task_name (expert_info e)) flag).

(** Modelled from the spec: the entry stored by [add(expert, name)], the
    expert under the given name, not deleted. *)
Definition named (name : string) (e : Expert) : Expert :=
  mkExpert (expert_config e) (expert_weights e)
    (mkMetadata name (parent_node (expert_info e)) (expert_task_name (expert_info e)) false).

(** Modelled from the spec: the entries that are not deleted, the only ones
    that iteration, length and selection see (section 3, invariant). *)
Definition live (m : gmap string Expert) : gmap string Expert :=
  omap (fun e => if expert_deleted (expert_info e) then None else Some e) m.

(** Modelled from the spec: [list()] and the length of the library. *)
Definition list_ (lib : Library) : list string := (map_to_list (live (data lib))).*1.
Definition len (lib : Library) : nat := size (live (data lib)).

(** Modelled from the spec: the persisted image of a mapping. *)
Definition persist (m : gmap string Expert) : Remote :=
  mkRemote m (map_to_list (live m)).*1.

Definition duplicate_error (name : string) : PyExc :=
  ValueError ("Expert " ++ name ++ " already exists").
Definition not_found_error (name : string) : PyExc :=
  ValueError ("Expert " ++ name ++ " not found").

(** Modelled from the spec: [get(name)], which does not see deleted entries. *)
Definition get (lib : Library) (name : string) : result Expert :=
  match live (data lib) !! name with
  | Some e => Ok e
  | None => Raise (not_found_error name)
  end.

(** Modelled from the spec: [add(expert, name)] (section 4.5): adding under
    the name of an entry that is not deleted is an error unless forced, and
    then it overwrites; a successful call persists. *)
Definition add (lib : Library) (e : Expert) (name : string) (force : bool)
  : Library * result unit :=
  match live (data lib) !! name with
  | Some _ =>
      if force
      then let m := <[name := named name e]> (data lib) in (mkLibrary m (persist m), Ok tt)
      else (lib, Raise (duplicate_error name))
  | None => let m := <[name := named name e]> (data lib) in (mkLibrary m (persist m), Ok tt)
  end.

(** Modelled from the spec: [remove(name, soft)]: a soft removal flags the
    entry, a hard one drops it. *)
Definition remove (lib : Library) (name : string) (soft : bool) : Library * result unit :=
  match live (data lib) !! name with
  | Some _ =>
      let m := if soft then alter (set_deleted true) name (data lib)
               else delete name (data lib) in
      (mkLibrary m (persist m), Ok tt)
  | None => (lib, Raise (not_found_error name))
  end.

(** Modelled from the spec: [unremove(name)] restores a soft-deleted entry. *)
Definition unremove (lib : Library) (name : string) : Library * result unit :=
  match data lib !! name with
  | Some e =>
      if expert_deleted (expert_info e)
      then let m := alter (set_deleted false) name (data lib) in
           (mkLibrary m (persist m), Ok tt)
      else (lib, Raise (not_found_error name))
  | None => (lib, Raise (not_found_error name))
  end.

(** Modelled from the spec: a library is created empty (section 3). *)
Definition empty_library : Library := mkLibrary ∅ (persist ∅).

(** Modelled from the spec: the persisted state is the image of the
    entries, as every successful operation leaves it. *)
Definition synced (lib : Library) : Prop := remote lib = persist (data lib).

End ExpertLibrary.

(** ** Concrete inputs *)

Module Examples.
Import Adapters ModifyModel.
Local Open Scope R_scope.


(** The end-to-end scenario of the specification: a base layer with
    [in_features = 8] and [out_features = 8], rank 2 and alpha 16. *)
Definition linear_8x8 : Linear :=
  mkLinear 8 (mkTensor float32 (replicate 8 (replicate 8 1))) None.
Definition config_r2_a16 : Config := mkConfig 2 16 0 false false 1 1.

(** A generator whose draws are all three quarters, so that no entry drawn
    is zero, and a storage that holds ones wherever it was not written
    to. *)
Definition generator_high : Generator := mkGenerator (fun _ => 3 / 4) 0.
Definition mem_ones : nat -> nat -> R := fun _ _ => 1.

(** A half-precision layer and a warmed-up adapter on it. *)
Definition linear_1x1_bf16 : Linear := mkLinear 1 (mkTensor bfloat16 [[2]]) None.

(** A normalisation adapter on a layer of two features, and a constant row. *)
Definition ln_two : LN := mkLN 2 (mkTensor float32 [1; 1]) (1 / 1000000) (mkTensor float32 [1; 1]).
Definition x_ones : Tensor (list matrix) := mkTensor float32 [[[1; 1]]].

(** A skilled adapter with one split, two skills and rank two on a layer of
    one input and one output feature, and a batch of two examples. *)
Definition linear_1x1 : Linear := mkLinear 1 (mkTensor float32 [[0]]) None.
Definition skilled_two : SkilledLoRA :=
  mkSkilledLoRA 1 2 2 1 1 false 0 1 linear_1x1
    (mkTensor float32 [[ [[1; 1]]; [[1; 1]] ]])
    (mkTensor float32 [[ [[1]; [2]]; [[3]; [4]] ]])
    false.
Definition x_batch : Tensor (list matrix) := mkTensor float32 [ [[1]]; [[1]] ].

(** A transformer with one layer that the pattern matches and one that it
    does not, and a registry with one modifier, which adds the factors of an
    adapter to the layers whose name starts with the pattern. *)
Definition transformer_two : Transformer :=
  mkTransformer [mkParam "encoder.q_proj.weight" true;
                 mkParam "encoder.layer_norm.weight" true] None.
Definition config_lora : ModifierConfig :=
  mkModifierConfig "LoRAConfig" (Some (Some "lora")) "encoder.q_proj".
Definition config_plain : ModifierConfig := mkModifierConfig "Config" None "encoder.q_proj".
Definition lora_modifier : Modifier :=
  fun t cfg =>
    Ok (mkTransformer
          (parameters t ++
           flat_map (fun p => if String.prefix (modify_layers cfg) (param_name p)
                              then [mkParam (param_name p ++ ".lora_a") true;
                                    mkParam (param_name p ++ ".lora_b") true]
                              else [])
             (parameters t))
          (task_id_container t)).
Definition registry_lora : Registry :=
  mkRegistry {["lora" := lora_modifier]} {["LoRAConfig" := "lora"]}.
Definition registry_empty : Registry := mkRegistry ∅ ∅.

(** An expert trained on phi-2, a loader that finds it under any path, and
    a live model configured for another base model. *)
Definition expert_phi2 : ExpertModel.Expert :=
  ExpertModel.mkExpert (ExpertModel.mkExpertConfig "phi-2" ".*out_proj.*") ∅.
Definition loader_phi2 : string -> option string -> result ExpertModel.Expert :=
  fun _ _ => Ok expert_phi2.
Definition add_nothing :
  Transformer -> option string -> ExpertModel.ExpertConfig -> gmap string (list (list R)) ->
  string -> bool -> option string -> result Transformer :=
  fun m _ _ _ _ _ _ => Ok m.
Definition model_gpt_neo : ExpertModel.MultiExpertModel :=
  ExpertModel.mkMultiExpertModel "EleutherAI/gpt-neo-125m" transformer_two [].

(** A library of one expert. *)
Definition expert_algebra : ExpertLibrary.Expert :=
  ExpertLibrary.mkExpert ("phi-2", ".*out_proj.*") ∅
    (ExpertLibrary.mkMetadata "abstract_algebra" None (Some "abstract_algebra") false).
Definition library_one : ExpertLibrary.Library :=
  (ExpertLibrary.add ExpertLibrary.empty_library expert_algebra "abstract_algebra" false).1.

End Examples.

(** ** mttl/models/adapters.py, continued *)

Module MoreAdapters.
Import Adapters.

(** *** class IA3 *)

Record IA3 : Type := mkIA3 {
  ia3_layer : Linear;
  multi_lora_b : Tensor vector
}.

(** [IA3.__init__]: [torch.ones] makes a float32 vector of ones. *)
Definition IA3_init (cfg : Config) (lyr : NNModule) : result IA3 :=
  match lyr with
  | nnLinear l => Ok (mkIA3 l (mkTensor float32 (replicate (Linear_out_features l) 1%R)))
  | nnOther _ _ _ => Raise AssertionError
  end.

(** [IA3.forward]: [self.layer(input) * self.multi_lora_b], the vector being
    broadcast along the last dimension. *)
Definition IA3_forward (self : IA3) (input : Tensor (list matrix))
  : result (Tensor (list matrix)) :=
  out ← Linear_call (ia3_layer self) input;
  Ok (mkTensor (promote_types (dtype_of out) (dtype_of (multi_lora_b self)))
        (map (map (fun row => zip_with Rmult row (data (multi_lora_b self)))) (data out))).

(** *** SkilledLoRA.__init__ *)


Definition zeros_4d (d0 d1 d2 d3 : nat) : list (list matrix) :=
  replicate d0 (replicate d1 (zeros d2 d3)).


(** A tensor of shape (d0, d1, d2, d3). *)
Definition has_shape_4d (d0 d1 d2 d3 : nat) (t : list (list matrix)) : Prop :=
  length t = d0 /\
  Forall (fun block => length block = d1 /\ Forall (has_shape d2 d3) block) t.


(** The bound of the initial entries, [gain / sqrt(in_features)] with the
    gain of a leaky ReLU of slope [sqrt 5]. *)
Definition init_bound (in_features : nat) : R :=
  (calculate_gain_leaky_relu (sqrt 5) / sqrt (INR in_features))%R.

End MoreAdapters.

(** * Expert choice: the preparation of the batch

    [MultiExpertModel.expert_choice] of
    [projects/wiki_experts/expert_model.py], up to the loop over the experts:
    token ids are integers, a batch is a tensor of shape (batch, length). *)
Module ExpertChoice.

Abbreviation ids := (list (list Z)).

(** [t.ne(v)]. *)
Definition ne (t : ids) (v : Z) : list (list bool) :=
  map (map (fun x => negb (x =? v)%Z)) t.

(** [mask.sum(1)]. *)
Definition sum_1 (mask : list (list bool)) : list Z :=
  map (fun row => Z.of_nat (length (filter (fun b => b = true) row))) mask.

(** [arr.shape[1]] of a tensor with at least one row. *)
Definition shape_1 (arr : ids) : nat := length (hd [] arr).

(** [torch.arange(n)]. *)
Definition arange (n : nat) : list Z := map Z.of_nat (seq 0 n).

(** [torch.gather(arr, 1, indices)]: the result has the shape of [indices],
    which may have fewer rows than [arr] but not more; an index outside
    [0, arr.shape[1]) raises. *)
Definition gather_1 (arr indices : ids) : result ids :=
  if decide (length arr < length indices)
  then Raise (RuntimeError "Size does not match at dimension 0")
  else
    match mapM (fun '(row, idx) =>
                  mapM (fun i : Z => if decide (0 <= i)%Z then row !! Z.to_nat i else None) idx)
            (zip arr indices) with
    | Some out => Ok out
    | None => Raise (RuntimeError "index out of bounds")
    end.

(** [roll_along(arr, shifts, 1)] for [arr] of two dimensions and [shifts] of
    one: [indices = (dim_indices - shifts.unsqueeze(1)) % arr.shape[1]], the
    remainder taking the sign of the divisor, then [torch.gather].  The
    indices are int64 in the code; the difference is written here on [Z],
    which is what the code computes as long as [j - s] does not leave the
    int64 range, that is for shifts [s] with [L - 2^63 <= s < 2^63] on rows
    of length [L].  The shifts of [expert_choice] are counts between 0 and
    [L]. *)
Definition roll_along (arr : ids) (shifts : list Z) : result ids :=
  let dim_indices := arange (shape_1 arr) in
  let indices :=
    map (fun s => map (fun j => ((j - s) mod Z.of_nat (shape_1 arr))%Z) dim_indices) shifts in
  gather_1 arr indices.

(** [~mask]. *)
Definition invert (mask : list (list bool)) : list (list bool) := map (map negb) mask.

(** [torch.masked_fill(t, mask, v)]. *)
Definition masked_fill (t : ids) (mask : list (list bool)) (v : Z) : ids :=
  zip_with (zip_with (fun x (b : bool) => if b then v else x)) t mask.

(** Lines 122-136 of [expert_choice]: the token ids moved from left to
    right padding, the attention mask and the labels that every expert is
    scored with. *)
Definition expert_choice_inputs (pad_token_id : Z) (input_ids : ids)
  : result (ids * list (list bool) * ids) :=
  let mask := ne input_ids pad_token_id in
  input_ids ← roll_along input_ids (sum_1 mask);
  let mask := ne input_ids 0 in
  let labels := masked_fill input_ids (invert mask) (-100) in
  Ok (input_ids, mask, labels).

(** A row of [length] tokens: [p] pad tokens, then the tokens [toks]. *)
Definition left_padded (pad : Z) (r : nat * list Z) : list Z := replicate r.1 pad ++ r.2.
Definition right_padded (pad : Z) (r : nat * list Z) : list Z := r.2 ++ replicate r.1 pad.

End ExpertChoice.

(** * Python strings *)
Module PyStr.
Import Stdlib.Strings.Ascii.

(** [c in s] for a string [c] of one character. *)
Fixpoint contains (c : ascii) (s : string) : bool :=
  match s with
  | EmptyString => false
  | String a rest => if Ascii.eqb a c then true else contains c rest
  end.

(** [s.split(c)]. *)
Fixpoint split (c : ascii) (s : string) : list string :=
  match s with
  | EmptyString => [EmptyString]
  | String a rest =>
      if Ascii.eqb a c then EmptyString :: split c rest
      else match split c rest with
           | head :: tail => String a head :: tail
           | [] => [String a EmptyString]
           end
  end.

(** [s.partition(c)]. *)
Fixpoint partition (c : ascii) (s : string) : string * string * string :=
  match s with
  | EmptyString => (EmptyString, EmptyString, EmptyString)
  | String a rest =>
      if Ascii.eqb a c then (EmptyString, String c EmptyString, rest)
      else let '(head, sep, tail) := partition c rest in (String a head, sep, tail)
  end.

(** [s.replace(c, e)] for the empty string [e]. *)
Fixpoint remove (c : ascii) (s : string) : string :=
  match s with
  | EmptyString => EmptyString
  | String a rest => if Ascii.eqb a c then remove c rest else String a (remove c rest)
  end.

(** [sep.join(l)]. *)
Fixpoint join (sep : string) (l : list string) : string :=
  match l with
  | [] => EmptyString
  | [s] => s
  | s :: rest => (s ++ sep ++ join sep rest)%string
  end.

Definition colon : ascii := ":"%char.
Definition equals : ascii := "="%char.
Definition star : ascii := "*"%char.
Definition slash : ascii := "/"%char.

End PyStr.

(** * Experts named on the command line

    [parse_experts_to_load] of
    [projects/wiki_experts/mmlu_exper_merge_nevergrad.py]: every entry it
    returns is the keyword arguments of one call of
    [MultiExpertModel.load_expert]. *)
Module LoadModule.

Record ExpertKwargs : Type := mkExpertKwargs {
  kw_expert_path : string;
  kw_action : string;
  kw_is_default : bool;
  kw_expert_name : option string;
  kw_load_only_layers : option string
}.

(** The argument: a string, or a list of strings. *)
Inductive ExpertsToLoad : Type :=
  | OneSpec (s : string)
  | Specs (l : list string).

Definition more_than_one_default : string :=
  "Cannot define more than one default expert! Are you using * in expert path?".
Definition name_with_wildcard : string :=
  "Cannot declare a name when using a wildcard in the expert path!".

Section Glob.

(** [glob.glob(pattern, recursive=True)]: the paths of the file system that
    match. *)
Variable glob : string -> list string.

(** [find_experts]: the directory two levels above every match. *)
Definition find_experts (expert_path : string) : list string :=
  map (fun path =>
         let parts := PyStr.split PyStr.slash path in
         PyStr.join "/" (take (length parts - 2) parts))
    (glob (expert_path ++ "/**/csv_metrics/")%string).

(** The body of the loop of [parse_experts_to_load]. *)
Definition parse_expert (expert : string) : result ExpertKwargs :=
  let options := PyStr.split PyStr.colon expert in
  let expert_path := default EmptyString (options !! 0) in
  let '(expert_path, _, expert_name) := PyStr.partition PyStr.equals expert_path in
  let all_paths :=
    match find_experts expert_path with
    | [] => [expert_path]
    | found => found
    end in
  let expert_name := if String.eqb expert_name EmptyString then None else Some expert_name in
  let action := default "route" (options !! 1) in
  let load_only_layers := options !! 2 in
  let is_default := PyStr.contains PyStr.star action in
  let action := PyStr.remove PyStr.star action in
  if decide (1 < length all_paths) then
    if is_default then Raise (ValueError more_than_one_default)
    else if truthy expert_name then Raise (ValueError name_with_wildcard)
    else Ok (mkExpertKwargs expert_path action is_default expert_name load_only_layers)
  else Ok (mkExpertKwargs expert_path action is_default expert_name load_only_layers).

(** [parse_experts_to_load]. *)
Definition parse_experts_to_load (experts_to_load : ExpertsToLoad) : result (list ExpertKwargs) :=
  let experts_to_load :=
    match experts_to_load with
    | OneSpec s => [s]
    | Specs l => l
    end in
  foldl (fun kwargs expert =>
           kwargs ← kwargs; kw ← parse_expert expert; Ok (kwargs ++ [kw]))
    (Ok []) experts_to_load.

End Glob.

End LoadModule.

(** * Uploading an expert

    [push_expert_to_hub] of [projects/wiki_experts/expert_model.py]. *)
Module PushExpert.

(** [ckpt['hyper_parameters']], as far as the function reads it: the model
    and the dataset are strings; the two names are a string, or [None], or
    absent, which [dict.get] does not tell apart. *)
Record HyperParameters : Type := mkHyperParameters {
  hp_model : string;
  hp_dataset : string;
  hp_expert_name : option string;
  hp_finetune_task_name : option string
}.

Section Hub.

(** The functions of the repository and of torch that the upload calls. *)
Variable get_checkpoint_path : string -> bool -> result string.
Variable torch_load : string -> result HyperParameters.
Variable convert_and_push_to_hub : string -> string -> bool -> bool -> result unit.

(** The loop over the two keys. *)
Definition stored_name (hp : HyperParameters) : option string :=
  match hp_expert_name hp with
  | Some n => Some n
  | None => hp_finetune_task_name hp
  end.

Definition repo_id (hf_user_id : string) (hp : HyperParameters) (expert_name : option string)
  : string :=
  let expert_name :=
    match expert_name with
    | Some n => Some n
    | None => stored_name hp
    end in
  let dataset_name := hp_dataset hp in
  let dataset_name :=
    if PyStr.contains PyStr.slash dataset_name
    then (PyStr.partition PyStr.slash dataset_name).2
    else dataset_name in
  let model_name := (PyStr.partition PyStr.slash (hp_model hp)).2 in
  (hf_user_id ++ "/expert__" ++ model_name ++ "__" ++ dataset_name ++ "__"
   ++ ExpertModel.py_str expert_name)%string.

(** [push_expert_to_hub]: the line logged and the outcome; on success the
    checkpoint has been handed to [convert_and_push_to_hub] with the
    repository id. *)
Definition push_expert_to_hub (ckpt_path hf_user_id : string) (auto_search use_last : bool)
  (expert_name : option string) : list string * result unit :=
  match (if auto_search then get_checkpoint_path ckpt_path use_last else Ok ckpt_path) with
  | Raise e => ([], Raise e)
  | Ok ckpt_path =>
      match torch_load ckpt_path with
      | Raise e => ([], Raise e)
      | Ok hp =>
          let repo := repo_id hf_user_id hp expert_name in
          ([("Uploading checkpoint " ++ ckpt_path ++ " --> " ++ repo)%string],
           convert_and_push_to_hub ckpt_path repo false false)
      end
  end.

End Hub.

End PushExpert.

(** * The encoder-decoder trainer

    Parts of [EncoderDecoder] of [projects/instr_routing/models/encdec.py]
    that do not call the transformer: the decoder inputs and targets of
    [training_step] and the removal of duplicated examples in
    [inference_epoch_end]. *)
Module EncDec.

(** [torch.cat([torch.zeros_like(t[:, :1]), t[:, :-1]], dim=1)]. *)
Definition shift_right (t : list (list Z)) : list (list Z) :=
  map (fun row => map (fun _ => 0%Z) (take 1 row) ++ take (length row - 1) row) t.

(** Lines 208-215 of [training_step]: [decoder_input_ids], with
    [decoder_input_ids[decoder_input_ids == -100] = pad_token_id], and
    [decoder_attention_mask]. *)
Definition decoder_input_ids (pad_token_id : Z) (target_ids : list (list Z)) : list (list Z) :=
  map (map (fun x => if (x =? -100)%Z then pad_token_id else x)) (shift_right target_ids).

Definition decoder_attention_mask (decoder_input_ids : list (list Z)) : list (list R) :=
  map (map (fun x => if (x =? x)%Z then 1%R else 0%R)) decoder_input_ids.

(** Lines 123-126 of [training_step]:
    [flat_choices_ids - 100 * (flat_choices_ids == pad_token_id).long()]. *)
Definition lm_target (pad_token_id : Z) (flat_choices_ids : list (list Z)) : list (list Z) :=
  map (map (fun x => (x - 100 * (if (x =? pad_token_id)%Z then 1 else 0))%Z)) flat_choices_ids.

(** The index that [F.cross_entropy] ignores. *)
Definition ignore_index : Z := (-100)%Z.

Section Outputs.
Context {V : Type} `{EqDecision V}.

(** Lines 473-476 of [inference_epoch_end]: the outputs of the batches, one
    dictionary of columns per batch, are concatenated column by column.  A
    key that the first batch does not have raises [KeyError]; when several
    keys are missing the one reported is the first in the order of the
    dictionary, which a [gmap] does not keep. *)
Definition extend (accumulated : gmap string (list V)) (kv : string * list V)
  : result (gmap string (list V)) :=
  match accumulated !! kv.1 with
  | Some l => Ok (<[kv.1 := l ++ kv.2]> accumulated)
  | None => Raise (KeyError kv.1)
  end.

(** The inner loop over the columns of one batch; it is not entered once an
    exception is under way. *)
Definition extend_batch (acc : result (gmap string (list V)))
  (batch_output : gmap string (list V)) : result (gmap string (list V)) :=
  acc ← acc;
  foldl (fun acc kv => acc ← acc; extend acc kv) (Ok acc) (map_to_list batch_output).

Definition accumulate (outputs : list (gmap string (list V))) : result (gmap string (list V)) :=
  match outputs with
  | [] => Raise (IndexError "list index out of range")
  | first :: _ => foldl extend_batch (Ok ((fun _ => []) <$> first)) outputs
  end.

(** Lines 478-482: [valid_mask], with [idx_set] the indices seen so far. *)
Fixpoint valid_mask (idx_set : list V) (idx : list V) : list bool :=
  match idx with
  | [] => []
  | i :: rest => negb (bool_decide (i ∈ idx_set)) :: valid_mask (i :: idx_set) rest
  end.

(** [[v for v, m in zip(values, valid_mask) if m]]. *)
Definition keep_valid {A} (values : list A) (mask : list bool) : list A :=
  omap (fun vm : A * bool => if vm.2 then Some vm.1 else None) (zip values mask).

(** Lines 478-485: every column is cut down to the first occurrence of each
    index. *)
Definition drop_duplicates (accumulated : gmap string (list V)) : result (gmap string (list V)) :=
  match accumulated !! "idx" with
  | None => Raise (KeyError "idx")
  | Some idx =>
      let mask := valid_mask [] idx in
      Ok ((fun values => keep_valid values mask) <$> accumulated)
  end.

End Outputs.

End EncDec.

(** * Batch sizes and step counts

    [ExpertConfig.post_init] of [projects/wiki_experts/src/config.py],
    [RoutingConfig.post_init] of [projects/instr_routing/config.py], the
    step count of
    [EncoderDecoder.configure_optimizers] and the validation interval of
    [train_module] in [projects/wiki_experts/finetune_experts.py].  Python
    integers are unbounded: [Z], with [//] the floor division [Z.div]. *)
Module BatchConfig.

Record ExpertConfig : Type := mkExpertConfig {
  train_batch_size : Z;
  micro_batch_size : option Z;
  gradient_accumulation_steps : option Z
}.

(** Python's [a // b] on integers. *)
Definition floordiv (a b : Z) : result Z :=
  if decide (b = 0)%Z then Raise ZeroDivisionError else Ok (a / b)%Z.

(** [ExpertConfig.post_init]. *)
Definition post_init (self : ExpertConfig) : result ExpertConfig :=
  let micro := default (train_batch_size self) (micro_batch_size self) in
  steps ← floordiv (train_batch_size self) micro;
  Ok (mkExpertConfig micro (Some micro) (Some steps)).

(** [RoutingConfig] of [projects/instr_routing/config.py], as far as
    [post_init] reads and writes it: the micro batch is an integer here. *)
Record RoutingConfig : Type := mkRoutingConfig {
  rc_eval_mmlu : bool;
  rc_eval_superni : bool;
  rc_train_batch_size : Z;
  rc_micro_batch_size : Z;
  rc_gradient_accumulation_steps : option Z
}.

(** [RoutingConfig.post_init]; [environ] holds the names of the variables
    of the environment. *)
Definition RoutingConfig_post_init (environ : gset string) (self : RoutingConfig)
  : result RoutingConfig :=
  if rc_eval_mmlu self && negb (bool_decide ("MMLU_DATA_DIR" ∈ environ))
  then Raise (ValueError "MMLU_DATA_DIR not set in env but eval_mmlu = True.")
  else if rc_eval_superni self && negb (bool_decide ("NI_DATA_DIR" ∈ environ))
  then Raise (ValueError "NI_DATA_DIR not set in env but eval_superni = True.")
  else
    steps ← floordiv (rc_train_batch_size self) (rc_micro_batch_size self);
    Ok (mkRoutingConfig (rc_eval_mmlu self) (rc_eval_superni self) (rc_micro_batch_size self)
          (rc_micro_batch_size self) (Some steps)).

(** Lines 585-598 of [EncoderDecoder.configure_optimizers]:
    [config.total_steps] after the call.  [world_size] is [None] when
    [torch.distributed.get_world_size()] raises, which the [try] catches. *)
Definition configure_total_steps (train_batch_size gradient_accumulation_steps : Z)
  (world_size : option Z) (total_steps len_train_dataset max_epochs : Z) : result Z :=
  let global_bs :=
    match world_size with
    | Some w => (train_batch_size * w * gradient_accumulation_steps)%Z
    | None => (train_batch_size * gradient_accumulation_steps)%Z
    end in
  if decide (total_steps = -1)%Z
  then q ← floordiv len_train_dataset global_bs; Ok (q * max_epochs)%Z
  else Ok total_steps.

(** Lines 592-600 of [train_module]: [val_check_interval]. *)
Definition val_check_interval (eval_every : option Z) (gradient_accumulation_steps : Z)
  (len_train_dataloader total_steps : Z) : option Z :=
  match eval_every with
  | None => None
  | Some e =>
      if decide (e = -1)%Z then None
      else
        let v := (gradient_accumulation_steps * e)%Z in
        if decide (v > len_train_dataloader)%Z then Some len_train_dataloader
        else if decide (v > total_steps /\ total_steps <> -1)%Z then Some total_steps
        else Some v
  end.

End BatchConfig.

(** * The checkpoint of the best validation loss

    [ValLossCheckpointCallback] of [projects/wiki_experts/src/callbacks.py].
    The file system is seen through the calls of the callback: the list of
    the calls that change it, the answers of [os.path.exists] and the
    exceptions raised are given.  Losses are real numbers, so a loss that
    is not a number is not modelled. *)
Module Callbacks.

(** [s.endswith("/")]. *)
Fixpoint ends_with_sep (s : string) : bool :=
  match s with
  | EmptyString => false
  | String a EmptyString => String.eqb (String a EmptyString) "/"
  | String _ rest => ends_with_sep rest
  end.

(** [os.path.join(a, b)] on a POSIX system. *)
Definition path_join (a b : string) : string :=
  if String.prefix "/" b then b
  else if bool_decide (a = "") || ends_with_sep a then (a ++ b)%string
  else (a ++ "/" ++ b)%string.

Record ValLossCheckpointCallback : Type := mkValLossCheckpointCallback {
  output_dir : string;
  best_val_loss : option R;
  prev_checkpoint : option string;
  criteria : string
}.

(** [ValLossCheckpointCallback.__init__]. *)
Definition ValLossCheckpointCallback_init (output_dir : string) : ValLossCheckpointCallback :=
  mkValLossCheckpointCallback output_dir None None "val_loss".

Definition best_model_path (self : ValLossCheckpointCallback) : option string :=
  prev_checkpoint self.

(** The calls of the callback that change the file system. *)
Inductive FsCall : Type :=
  | os_makedirs (path : string)
  | os_remove (path : string)
  | trainer_save_checkpoint (path : string).

#[global] Instance FsCall_eq_dec : EqDecision FsCall.
Proof. solve_decision. Defined.

(** The checkpoints that the calls [done] have saved and not passed to
    [os.remove] since. *)
Definition live (done : list FsCall) : gset string :=
  foldl (fun files c =>
           match c with
           | os_makedirs _ => files
           | os_remove p => files ∖ {[p]}
           | trainer_save_checkpoint p => {[p]} ∪ files
           end) ∅ done.

Section FileSystem.

(** The text of a loss to four decimals, [f"{x:.004f}"], and its text in
    the log line, [f"{x}"]. *)
Variable format_4f : R -> string.
Variable format_float : R -> string.

(** The file system itself is not modelled, only what the callback asks of
    it and does to it.  [done] is the list of the calls made so far that
    change it; [os_path_exists done p] is what [os.path.exists(p)] answers
    after them, and [raises done c] is the exception that the call [c]
    raises after them, if it raises. *)
Variable os_path_exists : list FsCall -> string -> bool.
Variable raises : list FsCall -> FsCall -> option PyExc.

Definition call (c : FsCall) (done : list FsCall) : list FsCall * result unit :=
  match raises done c with
  | Some e => (done, Raise e)
  | None => (done ++ [c], Ok tt)
  end.

(** [save_best_val_model]: the callback and the calls made after it, and
    whether it returned.  [self._prev_checkpoint] is assigned last, so it is
    left as it was when a call raises. *)
Definition save_best_val_model (self : ValLossCheckpointCallback) (done : list FsCall)
  : ValLossCheckpointCallback * list FsCall * result unit :=
  let dir_name := output_dir self in
  match (if os_path_exists done dir_name then (done, Ok tt)
         else call (os_makedirs dir_name) done) with
  | (done, Raise e) => (self, done, Raise e)
  | (done, Ok _) =>
      match best_val_loss self with
      | None =>
          (self, done,
           Raise (TypeError "unsupported format string passed to NoneType.__format__"))
      | Some best =>
          let filename := (criteria self ++ "/" ++ format_4f best ++ ".ckpt")%string in
          let ckpt_path := path_join dir_name filename in
          match (match prev_checkpoint self with
                 | Some prev =>
                     if bool_decide (ckpt_path <> prev) && os_path_exists done prev
                     then call (os_remove prev) done else (done, Ok tt)
                 | None => (done, Ok tt)
                 end) with
          | (done, Raise e) => (self, done, Raise e)
          | (done, Ok _) =>
              match call (trainer_save_checkpoint ckpt_path) done with
              | (done, Raise e) => (self, done, Raise e)
              | (done, Ok _) =>
                  (mkValLossCheckpointCallback (output_dir self) (best_val_loss self)
                     (Some ckpt_path) (criteria self),
                   done, Ok tt)
              end
          end
      end
  end.

(** [on_validation_epoch_end], with [pl_module.best_val_result] as argument:
    the callback, the lines logged, the calls made and whether it
    returned.  [self.best_val_loss] is assigned before the checkpoint is
    saved. *)
Definition on_validation_epoch_end (self : ValLossCheckpointCallback) (done : list FsCall)
  (best_val_result : R)
  : ValLossCheckpointCallback * list string * list FsCall * result unit :=
  if match best_val_loss self with
     | None => true
     | Some best => if Rlt_dec best_val_result best then true else false
     end
  then
    let self := mkValLossCheckpointCallback (output_dir self) (Some best_val_result)
                  (prev_checkpoint self) (criteria self) in
    let log := [("New best val loss: " ++ format_float best_val_result)%string] in
    let '(self, done, res) := save_best_val_model self done in
    (self, log, done, res)
  else (self, [], done, Ok tt).

(** The validation epochs of a run, one result per epoch; an exception ends
    the run. *)
Fixpoint validation_epochs (self : ValLossCheckpointCallback) (done : list FsCall)
  (results : list R) : ValLossCheckpointCallback * list FsCall * result unit :=
  match results with
  | [] => (self, done, Ok tt)
  | r :: results =>
      match on_validation_epoch_end self done r with
      | (self, _, done, Ok _) => validation_epochs self done results
      | (self, _, done, Raise e) => (self, done, Raise e)
      end
  end.

(** The path of the checkpoint of a loss. *)
Definition checkpoint_path (output_dir : string) (loss : R) : string :=
  path_join output_dir ("val_loss/" ++ format_4f loss ++ ".ckpt")%string.

(** What is supposed of the file system where a theorem needs it: a
    checkpoint that the last call saved is reported present, also once the
    output directory [dir] has been made. *)
Definition kept_after_save (dir : string) : Prop :=
  forall done p,
    last done = Some (trainer_save_checkpoint p) ->
    os_path_exists done p = true /\ os_path_exists (done ++ [os_makedirs dir]) p = true.

(** What holds of the callback and of the calls made after the losses
    [seen] of a run that started with no call made: the best loss is the
    least loss seen, the path kept is that of its checkpoint, which the
    last call saved, and it is the only checkpoint saved and not removed
    since. *)
Definition checkpoint_invariant (dir : string) (seen : list R)
  (self : ValLossCheckpointCallback) (done : list FsCall) : Prop :=
  output_dir self = dir /\ criteria self = "val_loss" /\
  (forall c, c ∈ done ->
     match c with
     | os_makedirs p => p = dir
     | os_remove p | trainer_save_checkpoint p =>
         exists r, r ∈ seen /\ p = checkpoint_path dir r
     end) /\
  match best_val_loss self with
  | None => seen = [] /\ prev_checkpoint self = None /\ done = []
  | Some m =>
      m ∈ seen /\ (forall r, r ∈ seen -> (m <= r)%R) /\
      prev_checkpoint self = Some (checkpoint_path dir m) /\
      last done = Some (trainer_save_checkpoint (checkpoint_path dir m)) /\
      live done = {[checkpoint_path dir m]}
  end.

End FileSystem.

(** A file system for the examples: a path exists when it is a checkpoint
    saved and not removed since, or a directory made; [os.makedirs] raises
    on the empty path, and no other call raises. *)
Definition example_exists (done : list FsCall) (p : string) : bool :=
  bool_decide (p ∈ live done) || bool_decide (os_makedirs p ∈ done).

Definition example_raises (done : list FsCall) (c : FsCall) : option PyExc :=
  if decide (c = os_makedirs "")
  then Some (FileNotFoundError "[Errno 2] No such file or directory: ''")
  else None.

(** A format of two texts, enough to tell the losses of the examples
    apart. *)
Definition example_format (x : R) : string :=
  if Rlt_dec x 1 then "0.5000" else "2.0000".

End Callbacks.

(** * Properties *)

Import Adapters ModifyModel Examples.

(** ** The tensor operations on small inputs *)

Section SmallInputs.
Local Open Scope R_scope.

Example mat_mul_2x2 :
  mat_mul [[1; 2]; [3; 4]] [[5; 6]; [7; 8]] = [[19; 22]; [43; 50]].
Proof. cbv -[Rplus Rmult IZR]. repeat f_equal; lra. Qed.

Example mat_mul_2x3_3x1 :
  mat_mul [[1; 2; 3]; [4; 5; 6]] [[1]; [0]; [2]] = [[7]; [16]].
Proof. cbv -[Rplus Rmult IZR]. repeat f_equal; lra. Qed.

Example linear_row_bias :
  linear_row (mkLinear 2 (mkTensor float32 [[1; 0]; [0; 1]; [1; 1]]) (Some [10; 20; 30])) [2; 3]
  = [12; 23; 35].
Proof. cbv -[Rplus Rmult IZR]. repeat f_equal; lra. Qed.

Example transpose_2x3 :
  transpose [[1; 2; 3]; [4; 5; 6]]%nat = [[1; 4]; [2; 5]; [3; 6]]%nat.
Proof. reflexivity. Qed.

Example reshape3_regroups :
  reshape3 2 1 2 (mkTensor float32 [[ [[1; 2]]; [[3; 4]] ]])
  = Ok (mkTensor float32 [ [[1; 2]]; [[3; 4]] ]).
Proof. reflexivity. Qed.

Example reshape3_wrong_size :
  reshape3 2 2 2 (mkTensor float32 [[ [[1; 2]]; [[3; 4]] ]])
  = Raise (RuntimeError "shape is invalid for input size").
Proof. reflexivity. Qed.

Example index_dim1_selects :
  index_dim1 (mkTensor float32 [[ [[1]]; [[2]]; [[3]] ]]) [2; 0; -1]%Z
  = Ok (mkTensor float32 [[ [[3]]; [[1]]; [[3]] ]]).
Proof. reflexivity. Qed.

Example index_dim1_out_of_range :
  index_dim1 (mkTensor float32 [[ [[1]]; [[2]] ]]) [2]%Z
  = Raise (IndexError "index out of range").
Proof. reflexivity. Qed.

Example promote_half_bfloat : promote_types float16 bfloat16 = float32.
Proof. reflexivity. Qed.

Example LN_init_two :
  LN_init config_r2_a16 (mkLayerNorm (mkTensor float32 [1; 1]) (1 / 1000000)) = Ok ln_two.
Proof. reflexivity. Qed.

Example register_modifier_twice :
  register_modifier "lora" None lora_modifier registry_lora
  = Raise (ValueError "Cannot register duplicate model modifier (lora)").
Proof.
  unfold register_modifier, registry_lora. cbn [MODIFIERS].
  by rewrite lookup_singleton_eq.
Qed.

Example get_modifier_type_explicit :
  get_modifier_type registry_lora config_plain (Some "poly") = Some "poly".
Proof. reflexivity. Qed.

Example get_modifier_type_by_config_type :
  get_modifier_type registry_lora (mkModifierConfig "LoRAConfig" (Some None) "") None
  = Some "lora".
Proof. reflexivity. Qed.

End SmallInputs.

(** ** Zero matrices *)

Section TorchFacts.
Local Open Scope R_scope.









Lemma vadd_zeros_r v c : (length v <= c)%nat -> vadd v (replicate c 0) = v.
Proof.
  revert c. induction v as [|a v IH]; intros c Hc; [by destruct c|].
  destruct c as [|c]; simpl in *; [lia|]. unfold vadd in *. simpl.
  rewrite IH by lia. f_equal. lra.
Qed.

Lemma mat_add_zeros_r x c :
  Forall (fun row => (length row <= c)%nat) x -> mat_add x (zeros (length x) c) = x.
Proof.
  induction 1 as [|row x Hrow _ IH]; [reflexivity|].
  unfold mat_add, zeros in *. simpl. by rewrite vadd_zeros_r, IH.
Qed.

Lemma length_vadd u v : length (vadd u v) = min (length u) (length v).
Proof. unfold vadd. revert v. induction u; intros [|??]; simpl; auto. Qed.

Lemma length_linear_row l row : (length (linear_row l row) <= Linear_out_features l)%nat.
Proof.
  unfold linear_row, Linear_out_features. destruct (bias l).
  - rewrite length_vadd, length_map. lia.
  - by rewrite length_map.
Qed.

End TorchFacts.

(** ** The LoRA adapter *)

Section LoRAFacts.
Local Open Scope R_scope.



Lemma adapter_out_dtype self x ao :
  adapter_out self x = Ok ao -> dtype_of ao = dtype_of x.
Proof.
  unfold adapter_out, matmul. case_decide; [|done]. simpl. case_decide; [|done]. simpl.
  intros [= <-]. by destruct (use_warmup self).
Qed.


Lemma LoRA_init_ok cfg l mem g :
  lora_rank cfg <> 0%nat -> Linear_in_features l <> 0%nat ->
  exists self g',
    LoRA_init cfg (nnLinear l) mem g = Ok (self, g') /\
    layer self = l /\ rank self = lora_rank cfg /\ use_warmup self = lora_warmup cfg /\
    scaling self = lora_alpha cfg / INR (lora_rank cfg) /\
    training_steps self = 0%Z /\ training self = true /\
    dtype_of (lora_a self) = float32 /\ dtype_of (lora_b self) = float32 /\
    (lora_warmup cfg || lora_init_b_random cfg = false ->
     data (lora_b self) = zeros (lora_rank cfg) (Linear_out_features l)).
Proof.
  intros Hr Hin. unfold LoRA_init, reset_parameters.
  cbn [getattr_in_features getattr_out_features mbind result_bind].
  rewrite decide_False by done. simpl.
  rewrite decide_False by done.
  destruct (lora_warmup cfg || lora_init_b_random cfg) eqn:E;
    eexists _, _; (split; [reflexivity|]); simpl; repeat split; done.
Qed.

End LoRAFacts.

Section LoRAClaims.
Local Open Scope R_scope.






Lemma linear_data_rows l (x : list matrix) :
  Forall (Forall (fun row => (length row <= Linear_out_features l)%nat)) (linear_data l x).
Proof.
  unfold linear_data. apply Forall_forall. intros m Hm.
  apply list_elem_of_In, in_map_iff in Hm as (m0 & <- & _).
  apply Forall_forall. intros row Hrow.
  apply list_elem_of_In, in_map_iff in Hrow as (r0 & <- & _).
  apply length_linear_row.
Qed.





End LoRAClaims.

Section Warmup.
Local Open Scope R_scope.








End Warmup.

Section Precision.




End Precision.

(** ** The normalisation adapter *)

Section LNClaims.
Local Open Scope R_scope.

Lemma zip_with_map_diag {A B C} (f : A -> B -> C) (g : A -> B) (l : list A) :
  zip_with f l (map g l) = map (fun a => f a (g a)) l.
Proof. induction l as [|a l IH]; simpl; [reflexivity|]. by rewrite IH. Qed.

Lemma LN_forward_data self x :
  data (LN_forward self x) =
  map (map (rms_norm_row (data (LN_lora_b self)) (LN_variance_epsilon self))) (data x).
Proof.
  unfold LN_forward.
  destruct (bool_decide (dtype_of (LN_weight self) = float16));
    unfold div_rsqrt, LN_variance, to; cbn [data];
    rewrite zip_with_map_diag, map_map; apply map_ext; intros m;
    rewrite zip_with_map_diag, map_map; apply map_ext; intros row;
    reflexivity.
Qed.

Lemma LN_forward_dtype self x :
  dtype_of (LN_forward self x) =
  promote_types (dtype_of (LN_lora_b self))
    (if bool_decide (dtype_of (LN_weight self) = float16) then float16
     else promote_types (dtype_of x) float32).
Proof. unfold LN_forward. cbn [dtype_of]. by case_bool_decide. Qed.

Lemma rms_norm_is_standard_on_centred_rows gamma eps row :
  mean row = 0 ->
  rms_norm_row gamma eps row
  = standard_layer_norm_row gamma (replicate (length gamma) 0) eps row.
Proof.
  intros Hmu. unfold standard_layer_norm_row, rms_norm_row. cbn zeta. rewrite Hmu.
  rewrite vadd_zeros_r.
  - f_equal.
    assert (Hsq : map (fun x => (x - 0) ^ 2) row = map (fun y => y ^ 2) row)
      by (apply map_ext; intros a; f_equal; lra).
    rewrite Hsq. apply map_ext. intros a. f_equal. lra.
  - rewrite length_zip_with. lia.
Qed.

(** C5 (amended).  [LN.forward] computes the mean of squares of every row
    in float32 whatever the dtype of the input, and returns the
    root-mean-square normalisation of the row ([x / sqrt(mean(x^2) + eps)],
    no centring and no shift) scaled by [lora_b]; the normalised input is
    cast to float16 when the weight of the layer is float16.  On a row of
    mean zero this is the standard layer normalisation with a zero shift. *)
Theorem LN_forward_rms_norm self x :
  dtype_of (LN_variance x) = float32 /\
  data (LN_variance x) = map (map (fun row => [mean (map (fun v => v ^ 2) row)])) (data x) /\
  data (LN_forward self x) =
    map (map (rms_norm_row (data (LN_lora_b self)) (LN_variance_epsilon self))) (data x) /\
  dtype_of (LN_forward self x) =
    promote_types (dtype_of (LN_lora_b self))
      (if bool_decide (dtype_of (LN_weight self) = float16) then float16
       else promote_types (dtype_of x) float32) /\
  (forall row,
     mean row = 0 ->
     rms_norm_row (data (LN_lora_b self)) (LN_variance_epsilon self) row =
     standard_layer_norm_row (data (LN_lora_b self))
       (replicate (length (data (LN_lora_b self))) 0) (LN_variance_epsilon self) row).
Proof.
  repeat apply conj; try reflexivity.
  - apply LN_forward_data.
  - apply LN_forward_dtype.
  - intros row. apply rms_norm_is_standard_on_centred_rows.
Qed.

(** C5 as stated fails: on the constant row [1; 1] the standard layer
    normalisation is zero, and [LN.forward] is not. *)
Lemma LN_forward_not_standard_layer_norm :
  data (LN_forward ln_two x_ones)
  <> standard_layer_norm (data (LN_lora_b ln_two)) [0; 0] (LN_variance_epsilon ln_two)
       (data x_ones).
Proof.
  rewrite LN_forward_data.
  cbv [ln_two x_ones data LN_lora_b LN_variance_epsilon standard_layer_norm
       standard_layer_norm_row rms_norm_row mean vsum vadd map zip_with foldr length].
  intros H. injection H as H _.
  set (a := sqrt _) in H. set (b := sqrt _) in H.
  assert (Ha : 0 < a).
  { apply sqrt_lt_R0. simpl. lra. }
  assert (Hinv : 0 < / a) by (by apply Rinv_0_lt_compat).
  unfold Rdiv in H. simpl in H.
  replace ((1 - (1 + (1 + 0)) * / (1 + 1))) with 0 in H by lra.
  lra.
Qed.

End LNClaims.

(** ** The skilled adapter *)

Section Gather.
Local Open Scope R_scope.

Lemma vscale_1 v : vscale 1 v = v.
Proof. induction v as [|a v IH]; simpl; [reflexivity|]. rewrite IH. f_equal. lra. Qed.

Lemma mat_scale_1 m : mat_scale 1 m = m.
Proof. induction m as [|r m IH]; simpl; [reflexivity|]. by rewrite vscale_1, IH. Qed.

Lemma vscale_0 v : vscale 0 v = replicate (length v) 0.
Proof. induction v as [|a v IH]; simpl; [reflexivity|]. rewrite IH. f_equal. lra. Qed.

Lemma mat_scale_0 rows cols m : has_shape rows cols m -> mat_scale 0 m = zeros rows cols.
Proof.
  intros [<- Hc]. unfold zeros. induction Hc as [|r m Hr _ IH]; simpl; [reflexivity|].
  by rewrite vscale_0, Hr, IH.
Qed.

Lemma vadd_zeros_l v : vadd (replicate (length v) 0) v = v.
Proof. induction v as [|a v IH]; simpl; [reflexivity|]. unfold vadd in *. simpl. rewrite IH. f_equal. lra. Qed.

Lemma mat_add_zeros_l rows cols m : has_shape rows cols m -> mat_add (zeros rows cols) m = m.
Proof.
  intros [<- Hc]. unfold zeros, mat_add. induction Hc as [|r m Hr _ IH]; simpl; [reflexivity|].
  rewrite IH. f_equal. rewrite <- Hr. apply vadd_zeros_l.
Qed.

Lemma mat_add_zeros_shape rows cols m : has_shape rows cols m -> mat_add m (zeros rows cols) = m.
Proof.
  intros [<- Hc]. apply mat_add_zeros_r. eapply Forall_impl; [exact Hc|]. simpl. lia.
Qed.

Lemma has_shape_zeros rows cols : has_shape rows cols (zeros rows cols).
Proof.
  unfold has_shape, zeros. split; [apply length_replicate|].
  apply Forall_replicate. apply length_replicate.
Qed.

Lemma mat_sum_cons rows cols m ms :
  mat_sum rows cols (m :: ms) = mat_add m (mat_sum rows cols ms).
Proof. reflexivity. Qed.

Lemma mat_sum_one_hot rows cols (block : list matrix) (off k : nat) :
  Forall (has_shape rows cols) block ->
  mat_sum rows cols
    (zip_with mat_scale
       (map (fun s => if decide (Z.of_nat s = Z.of_nat k) then 1 else 0)
          (seq off (length block)))
       block)
  = if decide (off <= k < off + length block)%nat then nth (k - off) block []
    else zeros rows cols.
Proof.
  intros Hb. revert off. induction Hb as [|m block Hm Hb IH]; intros off.
  - simpl. rewrite decide_False by lia. reflexivity.
  - cbn [length seq map zip_with]. rewrite mat_sum_cons, IH. destruct (decide (Z.of_nat off = Z.of_nat k)) as [E|E].
    + assert (off = k) by lia. subst.
      rewrite decide_False by lia. rewrite decide_True by (simpl; lia).
      rewrite Nat.sub_diag. simpl. rewrite mat_scale_1. by apply mat_add_zeros_shape.
    + rewrite (mat_scale_0 rows cols) by done.
      destruct (decide (S off <= k < S off + length block)%nat) as [Hin|Hout].
      * rewrite decide_True by (simpl; lia).
        replace (k - off)%nat with (S (k - S off)) by lia. simpl.
        apply mat_add_zeros_l.
        assert (Hlt : (k - S off < length block)%nat) by lia.
        eapply Forall_forall in Hb; [exact Hb|].
        apply list_elem_of_In, nth_In. exact Hlt.
      * rewrite decide_False by (simpl; lia). apply mat_add_zeros_l, has_shape_zeros.
Qed.

Lemma mat_sum_one_hot_select rows cols (block : list matrix) (k : nat) :
  Forall (has_shape rows cols) block -> (k < length block)%nat ->
  mat_sum rows cols (zip_with mat_scale (one_hot (length block) (Z.of_nat k)) block)
  = nth k block [].
Proof.
  intros Hb Hk. unfold one_hot. rewrite mat_sum_one_hot by done.
  rewrite decide_True by lia. by rewrite Nat.sub_0_r.
Qed.

Lemma zip_with_replicate_l {A B C} (f : A -> B -> C) (a : A) (l : list B) :
  zip_with f (replicate (length l) a) l = map (f a) l.
Proof. induction l as [|b l IH]; simpl; [reflexivity|]. by rewrite IH. Qed.

Lemma einsum_one_hot_gathers rows cols skills (t : Tensor (list (list matrix))) (idx : list nat) :
  Forall (fun block => length block = skills /\ Forall (has_shape rows cols) block) (data t) ->
  Forall (fun i => (i < skills)%nat) idx ->
  einsum_bqs_qsdr rows cols
    (one_hot_weights (dtype_of t) (length (data t)) skills (map Z.of_nat idx)) t
  = Ok (mkTensor (dtype_of t) (gather_batch_first (data t) idx)).
Proof.
  intros Ht Hidx. unfold einsum_bqs_qsdr, one_hot_weights. cbn [dtype_of data].
  rewrite decide_True by done. do 2 f_equal.
  unfold gather_batch_first. rewrite !map_map.
  apply map_ext_Forall. eapply Forall_impl; [exact Hidx|]. intros i Hi. cbn beta.
  rewrite zip_with_replicate_l. apply map_ext_Forall.
  eapply Forall_impl; [exact Ht|]. intros block [Hlen Hshape]. cbn beta.
  rewrite <- Hlen in *. by apply mat_sum_one_hot_select.
Qed.

Lemma py_index_in_range {A} (l : list A) (i : nat) (d : A) :
  (i < length l)%nat -> py_index l (Z.of_nat i) = Some (nth i l d).
Proof.
  intros Hi. unfold py_index. rewrite decide_True by lia. rewrite Nat2Z.id.
  destruct (lookup_lt_is_Some_2 l i Hi) as [x Hx]. rewrite Hx. f_equal.
  symmetry. by apply nth_lookup_Some.
Qed.

Lemma mapM_py_index_in_range {A} (l : list A) (d : A) (idx : list nat) :
  Forall (fun i => (i < length l)%nat) idx ->
  mapM (py_index l) (map Z.of_nat idx) = Some (map (fun i => nth i l d) idx).
Proof.
  induction 1 as [|i idx Hi _ IH]; [reflexivity|].
  cbn [map mapM]. rewrite (py_index_in_range l i d Hi). simpl. by rewrite IH.
Qed.

Lemma index_dim1_gathers skills (t : Tensor (list (list matrix))) (idx : list nat) :
  Forall (fun block => length block = skills) (data t) ->
  Forall (fun i => (i < skills)%nat) idx ->
  index_dim1 t (map Z.of_nat idx)
  = Ok (mkTensor (dtype_of t) (gather_split_first (data t) idx)).
Proof.
  intros Ht Hidx. unfold index_dim1.
  assert (H : mapM (fun block => mapM (py_index block) (map Z.of_nat idx)) (data t)
              = Some (gather_split_first (data t) idx)).
  { unfold gather_split_first. induction Ht as [|block blocks Hb _ IH]; [reflexivity|].
    cbn [map mapM]. rewrite (mapM_py_index_in_range block []) by (by rewrite Hb).
    simpl. by rewrite IH. }
  by rewrite H.
Qed.

(** X1.  On well-shaped factors and indices in range, the einsum
    contraction of [SkilledLoRA.forward_linear_] applied to the one-hot
    distribution of the indices gathers the factors of every example batch
    first, and the indexing expression [t[:, idx, :, :]] gathers the same
    factors split first. *)
Theorem skilled_factor_layouts rows cols skills
  (t : Tensor (list (list matrix))) (idx : list nat) :
  Forall (fun block => length block = skills /\ Forall (has_shape rows cols) block) (data t) ->
  Forall (fun i => (i < skills)%nat) idx ->
  einsum_bqs_qsdr rows cols
    (one_hot_weights (dtype_of t) (length (data t)) skills (map Z.of_nat idx)) t
  = Ok (mkTensor (dtype_of t) (gather_batch_first (data t) idx)) /\
  index_dim1 t (map Z.of_nat idx)
  = Ok (mkTensor (dtype_of t) (gather_split_first (data t) idx)).
Proof.
  intros Ht Hidx. split.
  - by apply einsum_one_hot_gathers.
  - apply (index_dim1_gathers skills); [|done].
    eapply Forall_impl; [exact Ht|]. by intros block [? _].
Qed.

Lemma skilled_factor_layouts_witness :
  einsum_bqs_qsdr 2 1 (one_hot_weights float32 1 2 [0; 1]%Z) (sk_lora_b skilled_two)
  = Ok (mkTensor float32 [ [ [[1]; [2]] ]; [ [[3]; [4]] ] ]) /\
  index_dim1 (sk_lora_b skilled_two) [0; 1]%Z
  = Ok (mkTensor float32 [ [ [[1]; [2]]; [[3]; [4]] ] ]).
Proof.
  apply (skilled_factor_layouts 2 1 2 (sk_lora_b skilled_two) [0; 1]%nat).
  - repeat constructor.
  - repeat constructor.
Defined.

End Gather.

Section SkilledClaims.
Local Open Scope R_scope.

(** C10.  On a batch of two examples routed to skills 0 and 1, with rank 2,
    the indexing path of [SkilledLoRA.forward_linear_] returns 4 and 6
    where the einsum path, given the one-hot distribution of the same
    indices, returns 3 and 7. *)
Theorem skilled_lora_paths_diverge :
  (sk_forward_linear_ skilled_two x_batch (IndexWeights [0; 1]%Z)).2
  = Ok (mkTensor float32 [ [[4]]; [[6]] ]) /\
  (sk_forward_linear_ skilled_two x_batch
     (MixWeights (one_hot_weights float32 1 2 [0; 1]%Z))).2
  = Ok (mkTensor float32 [ [[3]]; [[7]] ]) /\
  (sk_forward_linear_ skilled_two x_batch (IndexWeights [0; 1]%Z)).2
  <> (sk_forward_linear_ skilled_two x_batch
        (MixWeights (one_hot_weights float32 1 2 [0; 1]%Z))).2.
Proof.
  assert (H1 : (sk_forward_linear_ skilled_two x_batch (IndexWeights [0; 1]%Z)).2
               = Ok (mkTensor float32 [ [[4]]; [[6]] ])).
  { cbv -[Rplus Rmult Rmin Rdiv IZR]. repeat f_equal; lra. }
  assert (H2 : (sk_forward_linear_ skilled_two x_batch
                  (MixWeights (one_hot_weights float32 1 2 [0; 1]%Z))).2
               = Ok (mkTensor float32 [ [[3]]; [[7]] ])).
  { cbv -[Rplus Rmult Rmin Rdiv IZR]. repeat f_equal; lra. }
  repeat split; [exact H1|exact H2|].
  rewrite H1, H2. intros [= H _]. lra.
Qed.

End SkilledClaims.

(** ** The modifier registry *)

Section ModifyModelClaims.

Lemma py_or_None a b : py_or a b = None -> truthy a = false /\ b = None.
Proof.
  unfold py_or. destruct (truthy a) eqn:E.
  - intros ->. discriminate.
  - by intros ->.
Qed.

Lemma unresolved_config_is_falsy reg cfg mm :
  get_modifier_type reg cfg mm = None -> truthy (getattr_model_modifier cfg) = false.
Proof.
  unfold get_modifier_type. intros H. apply py_or_None in H as [H _].
  unfold py_or in H. destruct (truthy mm) eqn:E; [congruence|exact H].
Qed.

Lemma prepare_parameters t cfg :
  parameters (prepare t cfg) =
  map (fun p => mkParam (param_name p) (negb (truthy (getattr_model_modifier cfg))))
    (parameters t).
Proof.
  unfold prepare, getattr_model_modifier.
  destruct (model_modifier cfg) as [v|]; simpl; [|reflexivity].
  by destruct (truthy v).
Qed.

Lemma prepare_container t cfg : task_id_container (prepare t cfg) = Some ∅.
Proof. unfold prepare. by destruct (_ && _). Qed.

(** C3 (amended).  When no modifier name is resolved, [modify_transformer]
    logs a warning and returns the transformer, its container reset and
    all its parameters trainable, without applying a modifier.  It raises
    the [ValueError] of line 63 when a non-empty name is resolved that is
    not registered, and it raises in no other way of its own: whenever the
    call raises, a non-empty name was resolved, and either the name is not
    registered and the exception is that [ValueError], or the exception is
    the one the registered modifier raised on the prepared transformer. *)
Theorem modify_transformer_unresolved reg t cfg mm :
  (get_modifier_type reg cfg mm = None ->
   modify_transformer reg t cfg mm =
   ([not_set_warning],
    Ok (mkTransformer (map (fun p => mkParam (param_name p) true) (parameters t)) (Some ∅)))) /\
  (forall name,
     get_modifier_type reg cfg mm = Some name -> name <> "" ->
     MODIFIERS reg !! name = None ->
     modify_transformer reg t cfg mm =
     ([], Raise (ValueError ("Model modifier '" ++ name ++ "' not found.")))) /\
  (forall e,
     (modify_transformer reg t cfg mm).2 = Raise e ->
     exists name,
       get_modifier_type reg cfg mm = Some name /\ name <> "" /\
       ((MODIFIERS reg !! name = None /\
         e = ValueError ("Model modifier '" ++ name ++ "' not found.")) \/
        (exists klass,
           MODIFIERS reg !! name = Some klass /\ klass (prepare t cfg) cfg = Raise e))).
Proof.
  split; [|split].
  - intros H. unfold modify_transformer. rewrite H. do 2 f_equal.
    pose proof (prepare_parameters t cfg) as Hp.
    pose proof (prepare_container t cfg) as Hc.
    rewrite (unresolved_config_is_falsy _ _ _ H) in Hp.
    destruct (prepare t cfg). simpl in *. by subst.
  - intros name H Hne Hm. unfold modify_transformer. rewrite H.
    assert (Ht : truthy (Some name) = true)
      by (unfold truthy; by destruct (String.eqb_spec name "")).
    by rewrite Ht, Hm.
  - intros e. unfold modify_transformer.
    destruct (get_modifier_type reg cfg mm) as [name|] eqn:H; [|discriminate].
    destruct (truthy (Some name)) eqn:Ht; [|discriminate].
    assert (Hne : name <> "").
    { intros ->. discriminate Ht. }
    destruct (MODIFIERS reg !! name) as [klass|] eqn:Hm; cbn [snd]; intros He.
    + exists name. split; [done|]. split; [done|]. right. by exists klass.
    + exists name. split; [done|]. split; [done|]. left. split; [done|]. by injection He.
Qed.

Lemma modify_transformer_unresolved_witness :
  modify_transformer registry_empty transformer_two config_plain None =
  ([not_set_warning],
   Ok (mkTransformer
         (map (fun p => mkParam (param_name p) true) (parameters transformer_two))
         (Some ∅))).
Proof.
  apply (proj1 (modify_transformer_unresolved registry_empty transformer_two
                  config_plain None)).
  reflexivity.
Defined.

(** C3 as stated fails: with an empty registry and a configuration without
    [model_modifier] no name is resolved, and the call returns the model. *)
Lemma unresolved_modifier_returns_model :
  get_modifier_type registry_empty config_plain None = None /\
  (modify_transformer registry_empty transformer_two config_plain None).2
  = Ok (mkTransformer [mkParam "encoder.q_proj.weight" true;
                       mkParam "encoder.layer_norm.weight" true] (Some ∅)) /\
  ~ (exists e, (modify_transformer registry_empty transformer_two config_plain None).2
               = Raise e).
Proof.
  assert (H : (modify_transformer registry_empty transformer_two config_plain None).2
              = Ok (mkTransformer [mkParam "encoder.q_proj.weight" true;
                                   mkParam "encoder.layer_norm.weight" true] (Some ∅)))
    by reflexivity.
  split; [reflexivity|]. split; [exact H|].
  intros [e He]. rewrite H in He. discriminate.
Qed.

(** C4 (amended).  [modify_transformer] sets the gradient flag of every
    parameter of the transformer, whether a layer matches the pattern or
    not: to [False] when the configuration has a truthy [model_modifier],
    to [True] otherwise; names and order are kept, and this transformer is
    what the registered modifier receives or what is returned. *)
Theorem modify_transformer_sets_every_flag reg t cfg mm :
  parameters (prepare t cfg) =
    map (fun p => mkParam (param_name p) (negb (truthy (getattr_model_modifier cfg))))
      (parameters t) /\
  (modify_transformer reg t cfg mm).2 =
    match get_modifier_type reg cfg mm with
    | None => Ok (prepare t cfg)
    | Some name =>
        if truthy (Some name)
        then match MODIFIERS reg !! name with
             | Some klass => klass (prepare t cfg) cfg
             | None => Raise (ValueError ("Model modifier '" ++ name ++ "' not found."))
             end
        else Ok (prepare t cfg)
    end.
Proof.
  split; [apply prepare_parameters|].
  unfold modify_transformer. destruct (get_modifier_type reg cfg mm) as [name|]; [|done].
  destruct (truthy (Some name)); [|done]. by destruct (MODIFIERS reg !! name).
Qed.

(** C4 as stated fails: the parameter of the layer that the pattern does
    not match was trainable before the call and is frozen after it. *)
Lemma unmatched_layer_is_frozen :
  (modify_transformer registry_lora transformer_two config_lora None).2
  = Ok (mkTransformer [mkParam "encoder.q_proj.weight" false;
                       mkParam "encoder.layer_norm.weight" false;
                       mkParam "encoder.q_proj.weight.lora_a" true;
                       mkParam "encoder.q_proj.weight.lora_b" true] (Some ∅)) /\
  ~ unmatched_untouched (String.prefix "encoder.q_proj") transformer_two
      (mkTransformer [mkParam "encoder.q_proj.weight" false;
                      mkParam "encoder.layer_norm.weight" false;
                      mkParam "encoder.q_proj.weight.lora_a" true;
                      mkParam "encoder.q_proj.weight.lora_b" true] (Some ∅)).
Proof.
  split.
  - unfold modify_transformer.
    assert (H : get_modifier_type registry_lora config_lora None = Some "lora")
      by reflexivity.
    rewrite H. cbn [truthy String.eqb Ascii.eqb negb]. 
    unfold registry_lora. cbn [MODIFIERS]. rewrite lookup_singleton_eq.
    reflexivity.
  - intros H. specialize (H (mkParam "encoder.layer_norm.weight" true)).
    cbn [parameters transformer_two param_name] in H.
    specialize (H ltac:(set_solver) eq_refl).
    repeat (apply elem_of_cons in H as [H|H]; [discriminate|]).
    by apply elem_of_nil in H.
Qed.

End ModifyModelClaims.

(** ** Expert loading and the expert library *)

Section ExpertModelClaims.
Import ExpertModel.

(** C9.  When the loaded expert records another base model than
    [self.hparams.model], [load_expert] raises a [ValueError] whose message
    names the detected and the expected model, and leaves [self], its live
    model included, as it was, whatever [add_expert_to_transformer] does. *)
Theorem load_expert_rejects_other_base_model
  (loader : string -> option string -> result ExpertModel.Expert)
  (add_fn : Transformer -> option string -> ExpertConfig -> gmap string (list (list R)) ->
            string -> bool -> option string -> result Transformer)
  self path name action is_default only expert :
  loader path name = Ok expert ->
  hparams_model self <> model (expert_config expert) ->
  load_expert loader add_fn self path name action is_default only =
  (self, [],
   Raise (ValueError
            ("The expert has been trained on top of a different model! Detected: "
             ++ model (expert_config expert) ++ " - Expected: " ++ hparams_model self))).
Proof.
  intros Hload Hne. unfold load_expert. rewrite Hload.
  rewrite bool_decide_eq_true_2 by done. reflexivity.
Qed.

Lemma load_expert_rejects_other_base_model_witness :
  load_expert loader_phi2 add_nothing model_gpt_neo "phi-2/abstract_algebra"
    (Some "abstract_algebra") "route" false None =
  (model_gpt_neo, [],
   Raise (ValueError
            ("The expert has been trained on top of a different model! Detected: "
             ++ "phi-2" ++ " - Expected: " ++ "EleutherAI/gpt-neo-125m"))).
Proof.
  apply (load_expert_rejects_other_base_model loader_phi2 add_nothing model_gpt_neo
           "phi-2/abstract_algebra" (Some "abstract_algebra") "route" false None expert_phi2).
  - reflexivity.
  - simpl. discriminate.
Defined.

End ExpertModelClaims.

Section LibraryClaims.
Import ExpertLibrary.

Lemma live_lookup m name e :
  live m !! name = Some e <-> m !! name = Some e /\ expert_deleted (expert_info e) = false.
Proof.
  unfold live. rewrite lookup_omap. destruct (m !! name) as [e'|]; simpl.
  - destruct (expert_deleted (expert_info e')) eqn:E; split.
    + done.
    + intros [[= ->] ?]. congruence.
    + by intros [= ->].
    + by intros [[= ->] _].
  - split; [done|]. by intros [? _].
Qed.

Lemma get_Ok lib name e :
  get lib name = Ok e <-> data lib !! name = Some e /\ expert_deleted (expert_info e) = false.
Proof.
  rewrite <- live_lookup. unfold get. destruct (live (data lib) !! name); split; congruence.
Qed.

Lemma live_soft_delete m name :
  live (alter (set_deleted true) name m) = delete name (live m).
Proof.
  apply map_eq. intros k. unfold live. rewrite lookup_omap.
  destruct (decide (name = k)) as [->|Hne].
  - rewrite lookup_alter_eq, lookup_delete_eq. by destruct (m !! k).
  - rewrite lookup_alter_ne, lookup_delete_ne, lookup_omap by done. reflexivity.
Qed.

Lemma live_delete m name : live (delete name m) = delete name (live m).
Proof.
  apply map_eq. intros k. unfold live. rewrite lookup_omap.
  destruct (decide (name = k)) as [->|Hne].
  - by rewrite !lookup_delete_eq.
  - rewrite !lookup_delete_ne, lookup_omap by done. reflexivity.
Qed.

Lemma not_in_keys_of_delete (m : gmap string Expert) name :
  name ∉ (map_to_list (delete name m)).*1.
Proof.
  intros H. apply list_elem_of_fmap in H as ([k v] & -> & H).
  apply elem_of_map_to_list in H. simpl in H. by rewrite lookup_delete_eq in H.
Qed.

Lemma set_deleted_undo e :
  expert_deleted (expert_info e) = false -> set_deleted false (set_deleted true e) = e.
Proof. destruct e as [c w [n p t d]]. simpl. by intros ->. Qed.

Lemma undelete_soft_delete (m : gmap string Expert) name e :
  m !! name = Some e -> expert_deleted (expert_info e) = false ->
  alter (set_deleted false) name (alter (set_deleted true) name m) = m.
Proof.
  intros Hm Hd. apply map_eq. intros k. destruct (decide (name = k)) as [->|Hne].
  - rewrite !lookup_alter_eq, Hm. simpl. by rewrite set_deleted_undo.
  - by rewrite !lookup_alter_ne.
Qed.

(** C7.  Adding under the name of an entry that is not deleted, without
    force, fails with the duplicate error and leaves the library, its
    entries, listing, length and persisted state, as it was. *)
Theorem add_duplicate_fails lib e name e0 :
  get lib name = Ok e0 ->
  add lib e name false = (lib, Raise (duplicate_error name)) /\
  data (add lib e name false).1 = data lib /\
  list_ (add lib e name false).1 = list_ lib /\
  len (add lib e name false).1 = len lib /\
  remote (add lib e name false).1 = remote lib.
Proof.
  intros Hget. unfold get in Hget.
  assert (H : add lib e name false = (lib, Raise (duplicate_error name))).
  { unfold add. by destruct (live (data lib) !! name). }
  by rewrite H.
Qed.

(** C8.  A soft removal of a present expert takes its name out of the
    listing, the length and the lookup, and [unremove] then restores the
    library to its previous state, the entry as it was; after a hard
    removal [unremove] fails and the entry stays out of reach. *)
Theorem soft_remove_is_reversible lib name e :
  synced lib -> get lib name = Ok e ->
  (remove lib name true).2 = Ok tt /\
  (name ∉ list_ (fst (remove lib name true))) /\
  S (len (remove lib name true).1) = len lib /\
  get (remove lib name true).1 name = Raise (not_found_error name) /\
  unremove (remove lib name true).1 name = (lib, Ok tt) /\
  get (unremove (remove lib name true).1 name).1 name = Ok e /\
  (remove lib name false).2 = Ok tt /\
  (name ∉ list_ (fst (remove lib name false))) /\
  unremove (remove lib name false).1 name
  = ((remove lib name false).1, Raise (not_found_error name)) /\
  get (unremove (remove lib name false).1 name).1 name = Raise (not_found_error name).
Proof.
  intros Hsync Hget. pose proof Hget as Hg. apply get_Ok in Hg as [Hm Hd].
  assert (Hlive : live (data lib) !! name = Some e) by (by apply live_lookup).
  assert (Hsoft : remove lib name true =
                  (mkLibrary (alter (set_deleted true) name (data lib))
                     (persist (alter (set_deleted true) name (data lib))), Ok tt)).
  { unfold remove. by rewrite Hlive. }
  assert (Hhard : remove lib name false =
                  (mkLibrary (delete name (data lib)) (persist (delete name (data lib))),
                   Ok tt)).
  { unfold remove. by rewrite Hlive. }
  assert (Hun : unremove (remove lib name true).1 name = (lib, Ok tt)).
  { rewrite Hsoft. unfold unremove. cbn [fst data].
    rewrite lookup_alter_eq, Hm. cbn [fmap option_fmap option_map set_deleted expert_info expert_deleted].
    rewrite (undelete_soft_delete _ _ _ Hm Hd).
    destruct lib as [m r]. unfold synced in Hsync. simpl in *. by subst. }
  rewrite Hun. rewrite Hsoft, Hhard. cbn [fst snd].
  repeat apply conj; try done.
  - unfold list_. cbn [data]. rewrite live_soft_delete. apply not_in_keys_of_delete.
  - unfold len. cbn [data]. rewrite live_soft_delete.
    rewrite map_size_delete_Some by (by eexists).
    assert (size (live (data lib)) <> 0).
    { intros H0. apply map_size_empty_iff in H0. by rewrite H0, lookup_empty in Hlive. }
    lia.
  - unfold get. cbn [data]. by rewrite live_soft_delete, lookup_delete_eq.
  - unfold list_. cbn [data]. rewrite live_delete. apply not_in_keys_of_delete.
  - unfold unremove. cbn [data]. by rewrite lookup_delete_eq.
  - unfold unremove. cbn [data]. rewrite lookup_delete_eq. cbn [fst].
    unfold get. cbn [data]. by rewrite live_delete, lookup_delete_eq.
Qed.

Lemma get_library_one :
  get library_one "abstract_algebra" = Ok (named "abstract_algebra" expert_algebra).
Proof. reflexivity. Qed.

Lemma synced_library_one : synced library_one.
Proof. reflexivity. Qed.

Lemma add_duplicate_fails_witness :
  add library_one expert_algebra "abstract_algebra" false
  = (library_one, Raise (duplicate_error "abstract_algebra")) /\
  data (add library_one expert_algebra "abstract_algebra" false).1 = data library_one /\
  list_ (add library_one expert_algebra "abstract_algebra" false).1 = list_ library_one /\
  len (add library_one expert_algebra "abstract_algebra" false).1 = len library_one /\
  remote (add library_one expert_algebra "abstract_algebra" false).1 = remote library_one.
Proof.
  apply (add_duplicate_fails library_one expert_algebra "abstract_algebra"
           (named "abstract_algebra" expert_algebra)).
  exact get_library_one.
Defined.

Lemma soft_remove_is_reversible_witness :
  unremove (remove library_one "abstract_algebra" true).1 "abstract_algebra"
  = (library_one, Ok tt).
Proof.
  destruct (soft_remove_is_reversible library_one "abstract_algebra"
              (named "abstract_algebra" expert_algebra))
    as (_ & _ & _ & _ & H & _).
  - exact synced_library_one.
  - exact get_library_one.
  - exact H.
Defined.

End LibraryClaims.

(** More of the adapters *)

Section GatedAdapter.
Import MoreAdapters.
Local Open Scope R_scope.

Lemma zip_with_Rmult_ones row n :
  (length row <= n)%nat -> zip_with Rmult row (replicate n 1) = row.
Proof.
  revert n. induction row as [|a row IH]; intros [|n] Hn; simpl in *; try reflexivity; [lia|].
  rewrite IH by lia. f_equal. lra.
Qed.

(** X2.  A freshly constructed IA3 adapter scales by a vector of ones, so
    its [forward] returns the entries of the output of the wrapped layer,
    in the dtype promoted with float32, the dtype of the scaling vector;
    it raises what the layer raises; and constructing it on a module that
    is not [nn.Linear] raises [AssertionError]. *)
Theorem IA3_noop_at_init cfg l :
  exists self,
    IA3_init cfg (nnLinear l) = Ok self /\
    (forall x y,
       Linear_call l x = Ok y ->
       IA3_forward self x = Ok (mkTensor (promote_types (dtype_of x) float32) (data y))) /\
    (forall x e, Linear_call l x = Raise e -> IA3_forward self x = Raise e) /\
    (forall c i o, IA3_init cfg (nnOther c i o) = Raise AssertionError).
Proof.
  eexists. split; [reflexivity|]. repeat split.
  - intros x y Hy. unfold IA3_forward. cbn [ia3_layer multi_lora_b]. rewrite Hy.
    unfold Linear_call in Hy. case_decide; [|done]. injection Hy as <-.
    cbn [mbind result_bind dtype_of data]. do 2 f_equal.
    rewrite <- (map_id (linear_data l (data x))) at 2.
    apply map_ext_Forall. eapply Forall_impl; [apply linear_data_rows|].
    intros m Hm. cbn beta. rewrite <- (map_id m) at 2.
    apply map_ext_Forall. eapply Forall_impl; [exact Hm|].
    intros row Hrow. cbn beta. by apply zip_with_Rmult_ones.
  - intros x e He. unfold IA3_forward. cbn [ia3_layer]. by rewrite He.
Qed.

Lemma IA3_noop_at_init_witness :
  exists self,
    IA3_init config_r2_a16 (nnLinear linear_1x1_bf16) = Ok self /\
    IA3_forward self (mkTensor bfloat16 [[[3]]]) = Ok (mkTensor float32 [[[dot [3] [2]]]]).
Proof.
  destruct (IA3_noop_at_init config_r2_a16 linear_1x1_bf16) as (self & Hi & Hf & _).
  exists self. split; [exact Hi|].
  apply (Hf (mkTensor bfloat16 [[[3]]]) (mkTensor bfloat16 [[[dot [3] [2]]]])).
  reflexivity.
Defined.

End GatedAdapter.

Section LoRAConstruction.
Import MoreAdapters.
Local Open Scope R_scope.

(** X3.  [LoRA.__init__] reads [layer.in_features] and
    [layer.out_features] first, so a module without one of them raises the
    [AttributeError] of that attribute, whatever the rank.  For a module
    with both it raises [ZeroDivisionError] for rank 0;
    [NotImplementedError] when the rank is not 0 and the module is not
    [nn.Linear]; [ZeroDivisionError] for a linear layer with
    [in_features = 0].  It succeeds in every other case and in no other:
    on a linear layer with [in_features] not 0 and a rank that is not 0,
    whatever [out_features] is. *)
Theorem LoRA_init_errors cfg lyr mem g :
  (forall c o,
     lyr = nnOther c None o ->
     LoRA_init cfg lyr mem g = Raise (no_attribute c "in_features")) /\
  (forall c n,
     lyr = nnOther c (Some n) None ->
     LoRA_init cfg lyr mem g = Raise (no_attribute c "out_features")) /\
  (forall n m,
     getattr_in_features lyr = Ok n -> getattr_out_features lyr = Ok m ->
     lora_rank cfg = 0%nat -> LoRA_init cfg lyr mem g = Raise ZeroDivisionError) /\
  (forall c n m,
     lora_rank cfg <> 0%nat -> lyr = nnOther c (Some n) (Some m) ->
     LoRA_init cfg lyr mem g
     = Raise (NotImplementedError "LoRA only supports nn.Linear layers.")) /\
  (forall l,
     lora_rank cfg <> 0%nat -> lyr = nnLinear l -> Linear_in_features l = 0%nat ->
     LoRA_init cfg lyr mem g = Raise ZeroDivisionError) /\
  ((exists self g', LoRA_init cfg lyr mem g = Ok (self, g')) <->
   lora_rank cfg <> 0%nat /\ exists l, lyr = nnLinear l /\ Linear_in_features l <> 0%nat).
Proof.
  repeat apply conj.
  - by intros c o ->.
  - by intros c n ->.
  - intros n m Hn Hm Hr. unfold LoRA_init. rewrite Hn, Hm. cbn [mbind result_bind].
    by rewrite decide_True.
  - intros c n m Hr ->. unfold LoRA_init. cbn [getattr_in_features getattr_out_features
      mbind result_bind]. by rewrite decide_False.
  - intros l Hr -> Hin. unfold LoRA_init, reset_parameters.
    cbn [getattr_in_features getattr_out_features mbind result_bind].
    rewrite decide_False by done.
    cbn [in_features]. by rewrite decide_True.
  - intros (self & g' & H). unfold LoRA_init in H.
    destruct (getattr_in_features lyr) as [n|?] eqn:Hn; [|discriminate].
    destruct (getattr_out_features lyr) as [m|?] eqn:Hm; [|discriminate].
    cbn [mbind result_bind] in H.
    destruct (decide (lora_rank cfg = 0%nat)) as [|Hr]; [done|].
    split; [done|]. destruct lyr as [l|]; [|done]. exists l. split; [done|].
    injection Hn as <-.
    unfold reset_parameters in H. cbn [in_features] in H.
    by destruct (decide (Linear_in_features l = 0%nat)).
  - intros (Hr & l & -> & Hin).
    destruct (LoRA_init_ok cfg l mem g Hr Hin) as (self & g' & H & _). eauto.
Qed.

Lemma LoRA_init_errors_witness :
  LoRA_init (mkConfig 0 16 0 false false 1 1) (nnOther "Embedding" None (Some 8%nat))
    mem_ones generator_high
  = Raise (no_attribute "Embedding" "in_features") /\
  LoRA_init (mkConfig 0 16 0 false false 1 1) (nnOther "ColumnParallelLinear" (Some 8%nat) (Some 8%nat))
    mem_ones generator_high
  = Raise ZeroDivisionError /\
  LoRA_init config_r2_a16 (nnOther "ColumnParallelLinear" (Some 8%nat) (Some 8%nat))
    mem_ones generator_high
  = Raise (NotImplementedError "LoRA only supports nn.Linear layers.").
Proof.
  split; [|split].
  - apply (proj1 (LoRA_init_errors (mkConfig 0 16 0 false false 1 1)
                    (nnOther "Embedding" None (Some 8%nat)) mem_ones generator_high)
             "Embedding" (Some 8%nat)).
    reflexivity.
  - destruct (LoRA_init_errors (mkConfig 0 16 0 false false 1 1)
                (nnOther "ColumnParallelLinear" (Some 8%nat) (Some 8%nat)) mem_ones generator_high)
      as (_ & _ & H & _).
    apply (H 8%nat 8%nat); reflexivity.
  - destruct (LoRA_init_errors config_r2_a16
                (nnOther "ColumnParallelLinear" (Some 8%nat) (Some 8%nat)) mem_ones generator_high)
      as (_ & _ & _ & H & _).
    apply (H "ColumnParallelLinear" 8%nat 8%nat); [simpl; lia|reflexivity].
Defined.

Lemma gain_leaky_relu_sqrt5 : calculate_gain_leaky_relu (sqrt 5) = sqrt (1 / 3).
Proof.
  unfold calculate_gain_leaky_relu. rewrite sqrt_sqrt by lra. f_equal. lra.
Qed.

Lemma init_bound_eq n : n <> 0%nat -> init_bound n = sqrt (1 / (3 * INR n)).
Proof.
  intros Hn. unfold init_bound. rewrite gain_leaky_relu_sqrt5.
  assert (0 < INR n) by (apply lt_0_INR; lia).
  rewrite <- sqrt_div by lra. f_equal. field. lra.
Qed.

Lemma init_bound_nonneg n : 0 <= init_bound n.
Proof.
  unfold init_bound, calculate_gain_leaky_relu.
  destruct (decide (n = 0%nat)) as [->|Hn].
  - simpl. rewrite sqrt_0. unfold Rdiv at 1. rewrite Rinv_0. lra.
  - apply Rmult_le_pos; [apply sqrt_pos|]. apply Rlt_le, Rinv_0_lt_compat.
    apply sqrt_lt_R0, lt_0_INR. lia.
Qed.

Lemma uniform_row_shape lo hi g start n : length (uniform_row lo hi g start n) = n.
Proof. unfold uniform_row. by rewrite length_map, length_seq. Qed.

Lemma uniform_shape lo hi rows cols g : has_shape rows cols (uniform_ lo hi rows cols g).1.
Proof.
  unfold has_shape, uniform_. cbn [fst]. split; [by rewrite length_map, length_seq|].
  apply Forall_forall. intros r Hr. apply list_elem_of_In, in_map_iff in Hr as (i & <- & _).
  apply uniform_row_shape.
Qed.

Lemma uniform_row_bound b g start n :
  0 <= b -> (forall k, 0 <= gen_sample g k <= 1) ->
  Forall (fun a => Rabs a <= b) (uniform_row (- b) b g start n).
Proof.
  intros Hb Hg. unfold uniform_row. apply Forall_forall. intros a Ha.
  apply list_elem_of_In, in_map_iff in Ha as (k & <- & _).
  specialize (Hg (start + k)%nat). apply Rabs_le. nra.
Qed.

Lemma uniform_bound b rows cols g :
  0 <= b -> (forall k, 0 <= gen_sample g k <= 1) ->
  Forall (Forall (fun a => Rabs a <= b)) (uniform_ (- b) b rows cols g).1.
Proof.
  intros Hb Hg. unfold uniform_. cbn [fst]. apply Forall_forall. intros r Hr.
  apply list_elem_of_In, in_map_iff in Hr as (i & <- & _). by apply uniform_row_bound.
Qed.

Lemma zeros_bound b rows cols : 0 <= b -> Forall (Forall (fun a => Rabs a <= b)) (zeros rows cols).
Proof.
  intros Hb. unfold zeros. apply Forall_replicate, Forall_replicate. by rewrite Rabs_R0.
Qed.

(** X4.  After construction, with a generator that yields numbers of the
    unit interval, [lora_a] has shape (in_features, rank), [lora_b] has
    shape (rank, out_features), every entry of both is at most
    sqrt(1 / (3 * in_features)) in absolute value, and the generator has
    advanced by the number of entries drawn: those of [lora_a], and those
    of [lora_b] when it is drawn at random; whatever the storage of the
    factors held before. *)
Theorem LoRA_init_factors cfg l mem g :
  lora_rank cfg <> 0%nat -> Linear_in_features l <> 0%nat ->
  (forall k, 0 <= gen_sample g k <= 1) ->
  exists self g',
    LoRA_init cfg (nnLinear l) mem g = Ok (self, g') /\
    has_shape (Linear_in_features l) (lora_rank cfg) (data (lora_a self)) /\
    has_shape (lora_rank cfg) (Linear_out_features l) (data (lora_b self)) /\
    Forall (Forall (fun a => Rabs a <= sqrt (1 / (3 * INR (Linear_in_features l)))))
      (data (lora_a self)) /\
    Forall (Forall (fun b => Rabs b <= sqrt (1 / (3 * INR (Linear_in_features l)))))
      (data (lora_b self)) /\
    gen_pos g' =
      (gen_pos g + Linear_in_features l * lora_rank cfg
       + (if lora_warmup cfg || lora_init_b_random cfg
          then lora_rank cfg * Linear_out_features l else 0))%nat.
Proof.
  intros Hr Hin Hg. rewrite <- init_bound_eq by done.
  pose proof (init_bound_nonneg (Linear_in_features l)) as Hb.
  unfold LoRA_init, reset_parameters.
  cbn [getattr_in_features getattr_out_features mbind result_bind].
  rewrite decide_False by done.
  cbn [in_features rank use_warmup init_b_random out_features lora_a lora_b].
  rewrite decide_False by done. fold (init_bound (Linear_in_features l)).
  destruct (uniform_ _ _ (Linear_in_features l) (lora_rank cfg) g) as [a g1] eqn:Ea.
  cbn [set_lora_a use_warmup init_b_random rank out_features lora_b dtype_of].
  assert (Hsa : has_shape (Linear_in_features l) (lora_rank cfg) a)
    by (replace a with (uniform_ (- init_bound (Linear_in_features l))
                          (init_bound (Linear_in_features l))
                          (Linear_in_features l) (lora_rank cfg) g).1
          by (by rewrite Ea); apply uniform_shape).
  assert (Hba : Forall (Forall (fun x => Rabs x <= init_bound (Linear_in_features l))) a)
    by (replace a with (uniform_ (- init_bound (Linear_in_features l))
                          (init_bound (Linear_in_features l))
                          (Linear_in_features l) (lora_rank cfg) g).1
          by (by rewrite Ea); by apply uniform_bound).
  assert (Hg1 : gen_sample g1 = gen_sample g /\
                gen_pos g1 = (gen_pos g + Linear_in_features l * lora_rank cfg)%nat)
    by (unfold uniform_ in Ea; injection Ea as _ <-; by split).
  destruct Hg1 as [Hs1 Hp1].
  destruct (lora_warmup cfg || lora_init_b_random cfg).
  - destruct (uniform_ _ _ (lora_rank cfg) (Linear_out_features l) g1) as [b g2] eqn:Eb.
    eexists _, _. split; [reflexivity|].
    cbn [set_lora_b set_lora_a lora_a lora_b data].
    assert (Hb' : b = (uniform_ (- init_bound (Linear_in_features l))
                         (init_bound (Linear_in_features l))
                         (lora_rank cfg) (Linear_out_features l) g1).1) by (by rewrite Eb).
    split; [exact Hsa|]. split; [rewrite Hb'; apply uniform_shape|].
    split; [exact Hba|].
    split; [rewrite Hb'; apply uniform_bound; [done|by rewrite Hs1]|].
    unfold uniform_ in Eb. injection Eb as _ <-. cbn [gen_pos]. lia.
  - eexists _, _. split; [reflexivity|].
    cbn [set_lora_b set_lora_a lora_a lora_b data].
    split; [exact Hsa|]. split; [apply has_shape_zeros|].
    split; [exact Hba|]. split; [by apply zeros_bound|]. lia.
Qed.

Lemma LoRA_init_factors_witness :
  exists self g',
    LoRA_init config_r2_a16 (nnLinear linear_8x8) mem_ones generator_high = Ok (self, g') /\
    has_shape 8 2 (data (lora_a self)) /\
    has_shape 2 8 (data (lora_b self)) /\
    Forall (Forall (fun a => Rabs a <= sqrt (1 / (3 * INR 8)))) (data (lora_a self)) /\
    Forall (Forall (fun b => Rabs b <= sqrt (1 / (3 * INR 8)))) (data (lora_b self)) /\
    gen_pos g' = 16%nat.
Proof.
  apply (LoRA_init_factors config_r2_a16 linear_8x8 mem_ones generator_high).
  - simpl. lia.
  - simpl. lia.
  - intros k. simpl. lra.
Defined.

End LoRAConstruction.

Section WarmupStart.
Import MoreAdapters.
Local Open Scope R_scope.








End WarmupStart.

Section Normalisation.
Import MoreAdapters.
Local Open Scope R_scope.

(** X6.  [LN.__init__] raises [ZeroDivisionError] when [n_splits] is 0 and
    [AssertionError] when [n_splits] does not divide the width of the
    layer; otherwise the adapter starts from the weight of the layer, and
    its [forward] is the root-mean-square normalisation with that weight
    and the epsilon of the layer. *)
Theorem LN_init_behaviour cfg lyr :
  (n_splits cfg = 0%nat -> LN_init cfg lyr = Raise ZeroDivisionError) /\
  (n_splits cfg <> 0%nat ->
   (length (data (ln_weight lyr)) mod n_splits cfg)%nat <> 0%nat ->
   LN_init cfg lyr = Raise AssertionError) /\
  (n_splits cfg <> 0%nat ->
   (length (data (ln_weight lyr)) mod n_splits cfg)%nat = 0%nat ->
   exists self,
     LN_init cfg lyr = Ok self /\
     LN_lora_b self = ln_weight lyr /\
     LN_out_features self = length (data (ln_weight lyr)) /\
     forall x,
       data (LN_forward self x) =
       map (map (rms_norm_row (data (ln_weight lyr)) (ln_variance_epsilon lyr))) (data x)).
Proof.
  repeat apply conj.
  - intros H. unfold LN_init. by rewrite decide_True.
  - intros H Hm. unfold LN_init. rewrite decide_False by done. by rewrite decide_False.
  - intros H Hm. unfold LN_init. rewrite decide_False by done. rewrite decide_True by done.
    eexists. split; [reflexivity|]. repeat split. intros x. by rewrite LN_forward_data.
Qed.

Lemma LN_init_behaviour_witness :
  exists self,
    LN_init config_r2_a16 (mkLayerNorm (mkTensor float32 [1; 1]) (1 / 1000000)) = Ok self /\
    LN_lora_b self = mkTensor float32 [1; 1] /\
    LN_out_features self = 2%nat /\
    forall x,
      data (LN_forward self x) = map (map (rms_norm_row [1; 1] (1 / 1000000))) (data x).
Proof.
  apply (proj2 (proj2 (LN_init_behaviour config_r2_a16
                         (mkLayerNorm (mkTensor float32 [1; 1]) (1 / 1000000))))).
  - simpl. lia.
  - reflexivity.
Defined.

End Normalisation.

Section SkilledInit.
Import MoreAdapters.


Lemma zeros_4d_shape d0 d1 d2 d3 : has_shape_4d d0 d1 d2 d3 (zeros_4d d0 d1 d2 d3).
Proof.
  unfold has_shape_4d, zeros_4d. split; [apply length_replicate|].
  apply Forall_replicate. split; [apply length_replicate|].
  apply Forall_replicate. apply has_shape_zeros.
Qed.

Lemma length_concat_uniform {A} (l : list (list A)) n k :
  length l = n -> Forall (fun r => length r = k) l -> length (concat l) = n * k.
Proof.
  intros <- Hl. induction Hl as [|r l Hr _ IH]; [done|].
  cbn [concat length]. rewrite length_app, IH, Hr. lia.
Qed.

Lemma has_shape_flat rows cols m : has_shape rows cols m -> length (concat m) = rows * cols.
Proof. intros [Hl Hc]. by apply length_concat_uniform. Qed.











Lemma reshape_replicate {A} (z : A) n k :
  reshape (replicate n k) (replicate (n * k) z) = replicate n (replicate k z).
Proof.
  induction n as [|n IH]; [done|]. cbn [replicate reshape Nat.mul].
  rewrite take_replicate, drop_replicate.
  rewrite Nat.min_l by lia. replace (k + n * k - k) with (n * k) by lia. by rewrite IH.
Qed.

(** A four-dimensional tensor of zeros, reshaped, is a tensor of zeros. *)
Lemma reshape3_zeros dt (t : list (list matrix)) d0 d1 d2 :
  Forall (Forall (Forall (Forall (eq 0%R)))) t ->
  length (concat (concat (concat t))) = d0 * d1 * d2 ->
  reshape3 d0 d1 d2 (mkTensor dt t) = Ok (mkTensor dt (replicate d0 (zeros d1 d2))).
Proof.
  intros Hz Hlen. unfold reshape3. cbn [data dtype_of]. rewrite decide_True by done.
  do 2 f_equal.
  assert (Hflat : concat (concat (concat t)) = replicate (d0 * d1 * d2) 0%R).
  { rewrite <- Hlen. symmetry. apply replicate_as_Forall. split; [done|].
    do 3 apply Forall_concat. exact Hz. }
  rewrite Hflat. replace (d0 * d1 * d2) with (d0 * (d1 * d2)) by lia.
  rewrite reshape_replicate. change map with (@fmap list _) at 1.
  rewrite fmap_replicate. f_equal. apply reshape_replicate.
Qed.










End SkilledInit.


(** More of the modifier registry *)

Section RegistryFacts.

Lemma truthy_Some_ne name : name <> "" -> truthy (Some name) = true.
Proof. intros H. unfold truthy. by destruct (String.eqb_spec name ""). Qed.

Lemma prepare_trainable t cfg :
  truthy (getattr_model_modifier cfg) = false ->
  prepare t cfg = mkTransformer (map (fun p => mkParam (param_name p) true) (parameters t)) (Some ∅).
Proof.
  intros H. unfold prepare. rewrite H, andb_false_r. reflexivity.
Qed.

Lemma prepare_frozen t cfg name :
  model_modifier cfg = Some (Some name) -> name <> "" ->
  prepare t cfg = mkTransformer (map (fun p => mkParam (param_name p) false) (parameters t)) (Some ∅).
Proof.
  intros H Hne. unfold prepare, getattr_model_modifier. rewrite H.
  rewrite truthy_Some_ne by done. rewrite bool_decide_eq_true_2 by by eexists.
  reflexivity.
Qed.

Lemma modify_transformer_resolved reg t cfg mm name klass :
  get_modifier_type reg cfg mm = Some name -> name <> "" ->
  MODIFIERS reg !! name = Some klass ->
  modify_transformer reg t cfg mm = ([], klass (prepare t cfg) cfg).
Proof.
  intros H Hne Hk. unfold modify_transformer. rewrite H, truthy_Some_ne by done.
  by rewrite Hk.
Qed.

(** X9.  A modifier registered under a fresh, non-empty name for a
    configuration class is what [modify_transformer] applies: to a model
    with every parameter trainable when a configuration of that class
    names no modifier, to a model with every parameter frozen when the
    configuration names it, and whenever the name is passed as the
    argument.  The other entries of the registry are kept, and the name
    cannot be registered again. *)
Theorem register_modifier_dispatch reg name cls klass :
  MODIFIERS reg !! name = None ->
  name <> "" ->
  exists reg',
    register_modifier name (Some cls) klass reg = Ok reg' /\
    (forall n, n <> name -> MODIFIERS reg' !! n = MODIFIERS reg !! n) /\
    (forall cls' klass',
       register_modifier name cls' klass' reg'
       = Raise (ValueError ("Cannot register duplicate model modifier (" ++ name ++ ")"))) /\
    (forall t cfg,
       config_type cfg = cls -> truthy (getattr_model_modifier cfg) = false ->
       modify_transformer reg' t cfg None
       = ([], klass (mkTransformer (map (fun p => mkParam (param_name p) true) (parameters t))
                       (Some ∅)) cfg)) /\
    (forall t cfg,
       model_modifier cfg = Some (Some name) ->
       modify_transformer reg' t cfg None
       = ([], klass (mkTransformer (map (fun p => mkParam (param_name p) false) (parameters t))
                       (Some ∅)) cfg)) /\
    (forall t cfg,
       modify_transformer reg' t cfg (Some name) = ([], klass (prepare t cfg) cfg)).
Proof.
  intros Hfresh Hne. unfold register_modifier. rewrite Hfresh.
  eexists. split; [reflexivity|]. cbn [MODIFIERS CONFIGS_TO_MODIFIERS].
  split; [|split; [|split; [|split]]].
  - intros n Hn. by rewrite lookup_insert_ne.
  - intros cls' klass'. by rewrite lookup_insert_eq.
  - intros t cfg Hcls Hfalsy.
    rewrite <- (prepare_trainable t cfg Hfalsy).
    apply modify_transformer_resolved with (name := name); [|done|].
    + unfold get_modifier_type, py_or at 2. cbn [truthy].
      unfold py_or. rewrite Hfalsy. cbn [CONFIGS_TO_MODIFIERS].
      by rewrite Hcls, lookup_insert_eq.
    + cbn [MODIFIERS]. by rewrite lookup_insert_eq.
  - intros t cfg Hcfg.
    rewrite <- (prepare_frozen t cfg name Hcfg Hne).
    apply modify_transformer_resolved with (name := name); [|done|].
    + unfold get_modifier_type, py_or at 2. cbn [truthy].
      unfold getattr_model_modifier. rewrite Hcfg.
      unfold py_or. by rewrite truthy_Some_ne.
    + cbn [MODIFIERS]. by rewrite lookup_insert_eq.
  - intros t cfg.
    apply modify_transformer_resolved with (name := name); [|done|].
    + unfold get_modifier_type, py_or at 2. rewrite truthy_Some_ne by done.
      unfold py_or. by rewrite truthy_Some_ne.
    + cbn [MODIFIERS]. by rewrite lookup_insert_eq.
Qed.

Lemma register_modifier_dispatch_witness :
  exists reg',
    register_modifier "lora" (Some "LoRAConfig") lora_modifier registry_empty = Ok reg' /\
    modify_transformer reg' transformer_two config_lora None
    = ([], lora_modifier
             (mkTransformer (map (fun p => mkParam (param_name p) false) (parameters transformer_two))
                (Some ∅)) config_lora).
Proof.
  destruct (register_modifier_dispatch registry_empty "lora" "LoRAConfig" lora_modifier)
    as (reg' & Hreg & _ & _ & _ & Hname & _).
  - reflexivity.
  - discriminate.
  - exists reg'. split; [exact Hreg|]. apply Hname. reflexivity.
Defined.

(** X10.  When two modifiers are registered for the same configuration class,
    a configuration of that class that names no modifier gets the one
    registered last; the one registered first is still applied when its
    name is passed. *)
Theorem register_modifier_same_config_class reg n1 n2 cls k1 k2 reg1 reg2 :
  register_modifier n1 (Some cls) k1 reg = Ok reg1 ->
  register_modifier n2 (Some cls) k2 reg1 = Ok reg2 ->
  n1 <> "" -> n2 <> "" ->
  n1 <> n2 /\
  forall t cfg,
    config_type cfg = cls -> truthy (getattr_model_modifier cfg) = false ->
    modify_transformer reg2 t cfg None = ([], k2 (prepare t cfg) cfg) /\
    modify_transformer reg2 t cfg (Some n1) = ([], k1 (prepare t cfg) cfg).
Proof.
  unfold register_modifier. intros H1 H2 Hn1 Hn2.
  destruct (MODIFIERS reg !! n1) eqn:E1; [discriminate|]. injection H1 as <-.
  cbn [MODIFIERS CONFIGS_TO_MODIFIERS] in H2.
  destruct (decide (n1 = n2)) as [->|Hne].
  { rewrite lookup_insert_eq in H2. discriminate. }
  rewrite lookup_insert_ne in H2 by done.
  destruct (MODIFIERS reg !! n2) eqn:E2; [discriminate|]. injection H2 as <-.
  split; [done|]. intros t cfg Hcls Hfalsy. split.
  - apply modify_transformer_resolved with (name := n2); [|done|].
    + unfold get_modifier_type, py_or at 2. cbn [truthy].
      unfold py_or. rewrite Hfalsy. cbn [CONFIGS_TO_MODIFIERS].
      by rewrite Hcls, lookup_insert_eq.
    + cbn [MODIFIERS]. by rewrite lookup_insert_eq.
  - apply modify_transformer_resolved with (name := n1); [|done|].
    + unfold get_modifier_type, py_or at 2. rewrite truthy_Some_ne by done.
      unfold py_or. by rewrite truthy_Some_ne.
    + cbn [MODIFIERS]. rewrite lookup_insert_ne by done. by rewrite lookup_insert_eq.
Qed.

Lemma register_modifier_same_config_class_witness :
  modify_transformer
    (mkRegistry (<["poly" := fun t _ => Ok t]> (<["lora" := lora_modifier]> ∅))
       (<["Config" := "poly"]> (<["Config" := "lora"]> ∅)))
    transformer_two config_plain None
  = ([], Ok (prepare transformer_two config_plain)).
Proof.
  apply (register_modifier_same_config_class registry_empty "lora" "poly" "Config"
           lora_modifier (fun t _ => Ok t)
           (mkRegistry (<["lora" := lora_modifier]> ∅) (<["Config" := "lora"]> ∅))
           (mkRegistry (<["poly" := fun t _ => Ok t]> (<["lora" := lora_modifier]> ∅))
              (<["Config" := "poly"]> (<["Config" := "lora"]> ∅))));
    try reflexivity; discriminate.
Defined.

End RegistryFacts.


(** Expert choice, expert specifications and uploads *)

Section ExpertChoiceFacts.
Import ExpertChoice.

Lemma length_arange n : length (arange n) = n.
Proof. unfold arange. by rewrite length_map, length_seq. Qed.

Lemma lookup_arange n j : j < n -> arange n !! j = Some (Z.of_nat j).
Proof.
  intros Hj. unfold arange. rewrite list_lookup_fmap, lookup_seq_lt by done. done.
Qed.

(** One row of [roll_along]: gathering a row at the indices
    [(j - s) mod length] rotates it. *)
Lemma gather_row_rotate (row : list Z) (s : Z) :
  mapM (fun i : Z => if decide (0 <= i)%Z then row !! Z.to_nat i else None)
    (map (fun j => ((j - s) mod Z.of_nat (length row))%Z) (arange (length row)))
  = Some (rotate (Z.to_nat ((- s) mod Z.of_nat (length row))) row).
Proof.
  apply mapM_Some. apply Forall2_same_length_lookup. split.
  - by rewrite length_map, length_arange, length_rotate.
  - intros j x y Hx Hy.
    assert (Hj : j < length row).
    { apply lookup_lt_Some in Hx. by rewrite length_map, length_arange in Hx. }
    assert (HL : (0 < Z.of_nat (length row))%Z) by lia.
    rewrite list_lookup_fmap, lookup_arange in Hx by done. simplify_eq/=.
    pose proof (Z.mod_pos_bound (Z.of_nat j - s) _ HL).
    pose proof (Z.mod_pos_bound (- s) _ HL).
    rewrite decide_True by lia.
    rewrite lookup_rotate_r in Hy by done. rewrite <- Hy. f_equal.
    unfold rotate_nat_add. f_equal. rewrite Z2Nat.id by lia.
    rewrite Z.add_mod_idemp_l by lia. f_equal. lia.
Qed.

Lemma rotate_left_padded pad (r : nat * list Z) :
  pad ∉ r.2 ->
  rotate (Z.to_nat ((- Z.of_nat (length r.2)) mod Z.of_nat (length (left_padded pad r))))
    (left_padded pad r)
  = right_padded pad r.
Proof.
  destruct r as [p toks]. unfold left_padded, right_padded. cbn [fst snd]. intros _.
  rewrite length_app, length_replicate.
  destruct (decide (p = 0)) as [->|Hp]; [|destruct (decide (toks = [])) as [->|Ht]].
  - cbn [replicate app Nat.add]. rewrite app_nil_r.
    destruct toks as [|t toks]; [done|].
    replace (- Z.of_nat (length (t :: toks)))%Z
      with (0 + (-1) * Z.of_nat (length (t :: toks)))%Z by lia.
    rewrite Z.mod_add by (simpl; lia). rewrite Z.mod_0_l by (simpl; lia).
    unfold rotate. by rewrite Nat.Div0.mod_0_l, drop_0, take_0, app_nil_r.
  - cbn [length Z.of_nat Z.opp app]. rewrite Z.mod_0_l by lia. rewrite app_nil_r.
    unfold rotate. by rewrite Nat.Div0.mod_0_l, drop_0, take_0, app_nil_r.
  - assert (Hn : length toks <> 0) by (by destruct toks).
    assert (H : ((- Z.of_nat (length toks)) mod Z.of_nat (p + length toks) = Z.of_nat p)%Z).
    { replace (- Z.of_nat (length toks))%Z
        with (Z.of_nat p + (-1) * Z.of_nat (p + length toks))%Z by lia.
      rewrite Z.mod_add by lia. apply Z.mod_small. lia. }
    rewrite H, Nat2Z.id. unfold rotate.
    rewrite length_app, length_replicate.
    rewrite Nat.mod_small by lia.
    rewrite drop_app_length', take_app_length' by by rewrite length_replicate.
    done.
Qed.

Lemma count_non_pad pad (r : nat * list Z) :
  pad ∉ r.2 ->
  Z.of_nat (length (filter (fun b : bool => b = true)
                      (map (fun x => negb (x =? pad)%Z) (left_padded pad r))))
  = Z.of_nat (length r.2).
Proof.
  destruct r as [p toks]. unfold left_padded. cbn [fst snd]. intros Hpad. f_equal.
  rewrite map_app, filter_app, length_app.
  assert (H1 : filter (fun b : bool => b = true)
                 (map (fun x => negb (x =? pad)%Z) (replicate p pad)) = []).
  { induction p as [|p IH]; [done|]. cbn [replicate map].
    rewrite filter_cons_False; [done|]. rewrite Z.eqb_refl. simpl. discriminate. }
  rewrite H1. cbn [length Nat.add].
  induction toks as [|t toks IH]; [done|].
  apply not_elem_of_cons in Hpad as [Hne Hpad]. cbn [map].
  rewrite filter_cons_True.
  - simpl. f_equal. by apply IH.
  - apply negb_true_iff, Z.eqb_neq. done.
Qed.

Lemma roll_along_rows L (arr : ids) (shifts : list Z) :
  Forall (fun r => length r = L) arr ->
  mapM (fun '(row, idx) =>
          mapM (fun i : Z => if decide (0 <= i)%Z then row !! Z.to_nat i else None) idx)
    (zip arr (map (fun s => map (fun j => ((j - s) mod Z.of_nat L)%Z) (arange L)) shifts))
  = Some (zip_with (fun r s => rotate (Z.to_nat ((- s) mod Z.of_nat L)) r) arr shifts).
Proof.
  intros Harr. revert shifts.
  induction Harr as [|r arr Hr Harr IH]; intros [|s shifts]; try done.
  cbn [map zip zip_with mapM]. subst L. rewrite gather_row_rotate. cbn.
  by rewrite IH.
Qed.

Lemma roll_along_ok L (arr : ids) (shifts : list Z) :
  Forall (fun r => length r = L) arr ->
  length shifts <= length arr ->
  roll_along arr shifts
  = Ok (zip_with (fun r s => rotate (Z.to_nat ((- s) mod Z.of_nat L)) r) arr shifts).
Proof.
  intros Harr Hlen. unfold roll_along, gather_1.
  rewrite length_map. rewrite decide_False by lia.
  destruct arr as [|r0 arr].
  - destruct shifts; [done|simpl in Hlen; lia].
  - assert (HL : shape_1 (r0 :: arr) = L) by (by inversion Harr).
    rewrite HL. by rewrite (roll_along_rows L).
Qed.

(** X11.  [roll_along] rotates each row of a rectangular batch to the right
    by its shift, taken modulo the row length, for shifts of either sign
    in the range where the int64 subtraction of the code does not wrap
    around: [L - 2^63 <= s < 2^63] on rows of length [L]; with fewer shifts
    than rows the rows left over are dropped, and with more shifts than
    rows the call raises. *)
Theorem roll_along_rotates L (arr : ids) (shifts : list Z) :
  Forall (fun r => length r = L) arr ->
  (Forall (fun s => (Z.of_nat L - 2 ^ 63 <= s < 2 ^ 63)%Z) shifts ->
   length shifts <= length arr ->
   roll_along arr shifts
   = Ok (zip_with (fun r s => rotate (Z.to_nat ((- s) mod Z.of_nat L)) r) arr shifts)) /\
  (length arr < length shifts ->
   exists msg, roll_along arr shifts = Raise (RuntimeError msg)).
Proof.
  intros Harr. split.
  - intros _. by apply roll_along_ok.
  - intros Hlen. unfold roll_along, gather_1. rewrite length_map.
    rewrite decide_True by done. by eexists.
Qed.

Lemma roll_along_rotates_witness :
  roll_along [[0; 0; 5; 6]; [0; 7; 8; 9]]%Z [2; -1]%Z = Ok [[5; 6; 0; 0]; [7; 8; 9; 0]]%Z.
Proof.
  apply (roll_along_rotates 4 [[0; 0; 5; 6]; [0; 7; 8; 9]]%Z [2; -1]%Z).
  - repeat constructor.
  - repeat constructor; lia.
  - simpl. lia.
Defined.

(** X12.  On a batch padded on the left, [expert_choice] moves the padding of
    every row to the right; the mask and the labels compare the tokens with
    0, not with [pad_token_id]: the padding is masked and ignored by the
    loss exactly when the pad token is 0. *)
Theorem expert_choice_left_to_right_padding (pad : Z) (L : nat) (rows : list (nat * list Z)) :
  Forall (fun r => r.1 + length r.2 = L /\ pad ∉ r.2) rows ->
  let fill := fun x : Z => if (x =? 0)%Z then (-100)%Z else x in
  expert_choice_inputs pad (map (left_padded pad) rows)
  = Ok (map (right_padded pad) rows,
        map (fun r => map (fun x => negb (x =? 0)%Z) r.2 ++ replicate r.1 (negb (pad =? 0)%Z)) rows,
        map (fun r => map fill r.2 ++ replicate r.1 (fill pad)) rows).
Proof.
  intros Hrows fill. unfold expert_choice_inputs.
  assert (Hroll : roll_along (map (left_padded pad) rows)
                    (sum_1 (ne (map (left_padded pad) rows) pad))
                  = Ok (map (right_padded pad) rows)).
  { rewrite (roll_along_ok L).
    - f_equal. unfold sum_1, ne. rewrite !map_map.
      rewrite zip_with_fmap_l, zip_with_fmap_r, zip_with_diag.
      apply map_ext_Forall. eapply Forall_impl; [exact Hrows|].
      intros r [Hlen Hpad]. cbn beta.
      rewrite count_non_pad by done.
      rewrite <- (rotate_left_padded pad r Hpad). do 4 f_equal.
      unfold left_padded. rewrite length_app, length_replicate. done.
    - apply Forall_map. eapply Forall_impl; [exact Hrows|].
      intros r [Hlen _]. cbn beta. unfold left_padded.
      by rewrite length_app, length_replicate.
    - unfold sum_1, ne. by rewrite !length_map. }
  rewrite Hroll. cbn [mbind result_bind]. do 2 f_equal; [f_equal|].
  - unfold ne. rewrite map_map. apply map_ext. intros [p toks].
    unfold right_padded. cbn [fst snd]. rewrite map_app. f_equal.
    induction p as [|p IH]; [done|]. cbn [replicate map]. by rewrite IH.
  - unfold masked_fill, invert, ne. rewrite !map_map.
    rewrite zip_with_fmap_l, zip_with_fmap_r, zip_with_diag.
    apply map_ext. intros [p toks]. unfold right_padded. cbn [fst snd].
    rewrite zip_with_fmap_r, zip_with_fmap_r, zip_with_diag.
    rewrite map_app. f_equal.
    + apply map_ext. intros x. unfold fill. by destruct (x =? 0)%Z.
    + induction p as [|p IH]; [done|]. cbn [replicate map]. rewrite IH. f_equal.
      unfold fill. by destruct (pad =? 0)%Z.
Qed.

Lemma expert_choice_left_to_right_padding_witness :
  expert_choice_inputs 2 [[2; 2; 5; 6]; [2; 7; 8; 9]]%Z
  = Ok ([[5; 6; 2; 2]; [7; 8; 9; 2]]%Z,
        [[true; true; true; true]; [true; true; true; true]],
        [[5; 6; 2; 2]; [7; 8; 9; 2]]%Z).
Proof.
  apply (expert_choice_left_to_right_padding 2 4 [(2, [5; 6]%Z); (1, [7; 8; 9]%Z)]).
  repeat first [apply Forall_nil_2 | apply Forall_cons_2 | apply conj];
    first [reflexivity
          | cbn [snd]; rewrite ?not_elem_of_cons;
            repeat apply conj; first [discriminate | apply not_elem_of_nil]].
Defined.

End ExpertChoiceFacts.

Section PyStrFacts.
Import PyStr.

Lemma append_assoc (s1 s2 s3 : string) : (s1 +:+ s2 +:+ s3) = ((s1 +:+ s2) +:+ s3).
Proof.
  induction s1 as [|a s1 IH]; [done|].
  unfold String.append; fold String.append. by rewrite IH.
Qed.

Lemma split_nonempty c s : split c s <> [].
Proof.
  destruct s as [|a s]; [done|]. cbn [split].
  destruct (Ascii.eqb a c); [done|]. by destruct (split c s).
Qed.

Lemma split_no_sep c s : contains c s = false -> split c s = [s].
Proof.
  induction s as [|a s IH]; [done|]. cbn [contains split].
  destruct (Ascii.eqb a c); [done|]. intros H. by rewrite IH.
Qed.

Lemma split_app_sep c p rest :
  contains c p = false -> split c (p ++ String c rest) = p :: split c rest.
Proof.
  induction p as [|a p IH];
    unfold String.append; fold String.append; cbn -[Ascii.eqb String.append].
  - intros _. by rewrite Ascii.eqb_refl.
  - destruct (Ascii.eqb a c); [done|]. intros H. by rewrite IH.
Qed.

Lemma split_parts c s : Forall (fun part => contains c part = false) (split c s).
Proof.
  induction s as [|a s IH]; [by repeat constructor|]. cbn [split].
  destruct (Ascii.eqb a c) eqn:E; [by constructor|].
  destruct (split c s) as [|head tail]; [repeat constructor; cbn; by rewrite E|].
  apply Forall_cons in IH as [Hh Ht]. constructor; [|done]. cbn. by rewrite E.
Qed.

Lemma partition_no_sep c s :
  contains c s = false -> partition c s = (s, EmptyString, EmptyString).
Proof.
  induction s as [|a s IH]; [done|]. cbn [contains partition].
  destruct (Ascii.eqb a c); [done|]. intros H. by rewrite IH.
Qed.

Lemma partition_app_sep c p rest :
  contains c p = false ->
  partition c (p ++ String c rest) = (p, String c EmptyString, rest).
Proof.
  induction p as [|a p IH];
    unfold String.append; fold String.append; cbn -[Ascii.eqb String.append].
  - intros _. by rewrite Ascii.eqb_refl.
  - destruct (Ascii.eqb a c); [done|]. intros H. by rewrite IH.
Qed.

Lemma partition_head c s : contains c (partition c s).1.1 = false.
Proof.
  induction s as [|a s IH]; [done|]. cbn [partition].
  destruct (Ascii.eqb a c) eqn:E; [done|].
  destruct (partition c s) as [[head sep] tail]. cbn in *. by rewrite E.
Qed.

Lemma partition_head_sub d c s :
  contains d s = false -> contains d (partition c s).1.1 = false.
Proof.
  induction s as [|a s IH]; [done|]. cbn [partition contains].
  destruct (Ascii.eqb a d) eqn:Ed; [done|]. intros H.
  destruct (Ascii.eqb a c) eqn:E; [done|].
  destruct (partition c s) as [[head sep] tail]. cbn in *. rewrite Ed. by apply IH.
Qed.

Lemma remove_no_occurrence c s : contains c s = false -> remove c s = s.
Proof.
  induction s as [|a s IH]; [done|]. cbn [contains remove].
  destruct (Ascii.eqb a c); [done|]. intros H. by rewrite IH.
Qed.

Lemma contains_remove c s : contains c (remove c s) = false.
Proof.
  induction s as [|a s IH]; [done|]. cbn [remove].
  destruct (Ascii.eqb a c) eqn:E; [done|]. cbn. by rewrite E.
Qed.

Lemma contains_remove_other d c s : contains d s = false -> contains d (remove c s) = false.
Proof.
  induction s as [|a s IH]; [done|]. cbn [remove contains].
  destruct (Ascii.eqb a d) eqn:Ed; [done|]. intros H.
  destruct (Ascii.eqb a c); [by apply IH|]. cbn. rewrite Ed. by apply IH.
Qed.

End PyStrFacts.

Section LoadModuleFacts.
Import PyStr LoadModule.

Variable glob : string -> list string.

(** What holds of every entry that [parse_experts_to_load] returns. *)
Lemma parse_expert_entry expert kw :
  parse_expert glob expert = Ok kw ->
  contains colon (kw_expert_path kw) = false /\
  contains equals (kw_expert_path kw) = false /\
  contains star (kw_action kw) = false /\
  contains colon (kw_action kw) = false /\
  kw_expert_name kw <> Some EmptyString /\
  (1 < length (find_experts glob (kw_expert_path kw)) ->
   kw_is_default kw = false /\ kw_expert_name kw = None).
Proof.
  unfold parse_expert.
  pose proof (split_parts colon expert) as Hparts.
  pose proof (split_nonempty colon expert) as Hne.
  destruct (split colon expert) as [|o0 options]; [done|]. clear Hne.
  apply Forall_cons in Hparts as [Ho0 Hopts].
  change ((o0 :: options) !! 0) with (Some o0).
  change ((o0 :: options) !! 1) with (options !! 0).
  change ((o0 :: options) !! 2) with (options !! 1).
  change (default EmptyString (Some o0)) with o0.
  pose proof (partition_head equals o0) as Hp1.
  pose proof (partition_head_sub colon equals o0 Ho0) as Hp2.
  destruct (partition equals o0) as [[path sep] name]. cbn [fst] in Hp1, Hp2.
  assert (Hact : contains colon (default "route" (options !! 0)) = false).
  { destruct options as [|o1 options]; [done|]. by apply Forall_cons in Hopts as [? _]. }
  set (action := default "route" (options !! 0)) in *.
  assert (Hname : (if String.eqb name EmptyString then None else Some name)
                  <> Some EmptyString).
  { destruct (String.eqb_spec name EmptyString); [done|]. by intros [= ->]. }
  assert (Hentry : forall d,
             (1 < length (find_experts glob path) ->
              d = false /\ (if String.eqb name EmptyString then None else Some name) = None) ->
             let kw := mkExpertKwargs path (remove star action) d
                         (if String.eqb name EmptyString then None else Some name)
                         (options !! 1) in
             contains colon (kw_expert_path kw) = false /\
             contains equals (kw_expert_path kw) = false /\
             contains star (kw_action kw) = false /\
             contains colon (kw_action kw) = false /\
             kw_expert_name kw <> Some EmptyString /\
             (1 < length (find_experts glob (kw_expert_path kw)) ->
              kw_is_default kw = false /\ kw_expert_name kw = None)).
  { intros d Hd. cbn. repeat split; try done.
    - apply contains_remove.
    - by apply contains_remove_other.
    - by apply Hd.
    - by apply Hd. }
  destruct (find_experts glob path) as [|f1 [|f2 found]] eqn:Hfound.
  - rewrite decide_False by (cbn; lia). intros [= <-]. apply Hentry. cbn. lia.
  - rewrite decide_False by (cbn; lia). intros [= <-]. apply Hentry. cbn. lia.
  - rewrite decide_True by (cbn; lia).
    destruct (contains star action) eqn:Hstar; [done|].
    destruct (truthy _) eqn:Htruthy; [done|]. intros [= <-]. apply Hentry.
    intros _. split; [done|]. destruct (String.eqb_spec name EmptyString); [done|].
    cbn in Htruthy. by destruct (String.eqb_spec name EmptyString).
Qed.

Lemma parse_fold_raise e (specs : list string) :
  foldl (fun kwargs expert =>
           kwargs ← kwargs; kw ← parse_expert glob expert; Ok (kwargs ++ [kw]))
    (Raise e) specs = Raise e.
Proof. induction specs as [|s specs IH]; [done|]. cbn. exact IH. Qed.

Lemma parse_fold_ok (specs : list string) acc kwargs :
  foldl (fun kwargs expert =>
           kwargs ← kwargs; kw ← parse_expert glob expert; Ok (kwargs ++ [kw]))
    (Ok acc) specs = Ok kwargs ->
  exists new, kwargs = acc ++ new /\
              Forall2 (fun spec kw => parse_expert glob spec = Ok kw) specs new.
Proof.
  revert acc. induction specs as [|s specs IH]; intros acc.
  - cbn. intros [= <-]. exists []. by rewrite app_nil_r.
  - cbn [foldl]. cbn [mbind result_bind].
    destruct (parse_expert glob s) as [kw|e] eqn:Hs; cbn [mbind result_bind].
    + intros H. apply IH in H as (new & -> & Hnew). exists (kw :: new).
      split; [by rewrite <- app_assoc|]. by constructor.
    + by rewrite parse_fold_raise.
Qed.

(** X13.  [parse_experts_to_load] returns one entry per specification, in
    order; in every entry the path holds no colon and no equals sign, the
    action holds no colon and no star, the name is never the empty
    string, and an entry whose path matches several experts is neither the
    default nor named. *)
Theorem parse_experts_to_load_entries (experts_to_load : ExpertsToLoad) kwargs :
  parse_experts_to_load glob experts_to_load = Ok kwargs ->
  length kwargs = match experts_to_load with OneSpec _ => 1 | Specs l => length l end /\
  Forall (fun kw =>
            contains colon (kw_expert_path kw) = false /\
            contains equals (kw_expert_path kw) = false /\
            contains star (kw_action kw) = false /\
            contains colon (kw_action kw) = false /\
            kw_expert_name kw <> Some EmptyString /\
            (1 < length (find_experts glob (kw_expert_path kw)) ->
             kw_is_default kw = false /\ kw_expert_name kw = None))
    kwargs.
Proof.
  unfold parse_experts_to_load. intros H. apply parse_fold_ok in H as (new & -> & Hnew).
  cbn [app]. split.
  - apply Forall2_length in Hnew. rewrite <- Hnew. by destruct experts_to_load.
  - clear -Hnew. induction Hnew as [|spec kw specs new Hkw _ IH]; [done|].
    constructor; [|done]. by apply (parse_expert_entry spec).
Qed.

Lemma parse_named_spec path name :
  contains colon path = false -> contains equals path = false ->
  contains colon name = false -> name <> EmptyString ->
  length (glob (path ++ "/**/csv_metrics/")) <= 1 ->
  parse_expert glob (path ++ "=" ++ name)
  = Ok (mkExpertKwargs path "route" false (Some name) None) /\
  parse_expert glob (path ++ "=" ++ name ++ ":merge")
  = Ok (mkExpertKwargs path "merge" false (Some name) None) /\
  parse_expert glob (path ++ "=" ++ name ++ ":route*")
  = Ok (mkExpertKwargs path "route" true (Some name) None).
Proof.
  intros Hp1 Hp2 Hn Hne Hglob.
  assert (Hcolon : contains colon (path ++ "=" ++ name) = false).
  { clear -Hp1 Hn. induction path as [|a path IH].
    - exact Hn.
    - revert Hp1. unfold String.append; fold String.append. cbn -[String.append].
      destruct (Ascii.eqb a colon); [done|]. apply IH. }
  assert (Hfound : length (find_experts glob path) <= 1)
    by (unfold find_experts; by rewrite length_map).
  assert (Hname : String.eqb name EmptyString = false)
    by (by destruct (String.eqb_spec name EmptyString)).
  split; [|split].
  - unfold parse_expert. rewrite split_no_sep by done.
    change ([?x] !! 0) with (Some x).
    change (default EmptyString (Some ?x)) with x.
    change (path +:+ "=" +:+ name) with (path +:+ String equals name).
    rewrite (partition_app_sep equals path name Hp2). rewrite Hname.
    rewrite decide_False; [done|].
    destruct (find_experts glob path) as [|? [|? ?]]; cbn in *; lia.
  - unfold parse_expert.
    change (path +:+ "=" +:+ name +:+ ":merge")
      with (path +:+ "=" +:+ name +:+ String colon "merge").
    rewrite (append_assoc "=" name), (append_assoc path).
    rewrite split_app_sep by done.
    change ((?x :: ?l) !! 0) with (Some x).
    change (default EmptyString (Some ?x)) with x.
    change (path +:+ "=" +:+ name) with (path +:+ String equals name).
    rewrite (partition_app_sep equals path name Hp2). rewrite Hname.
    rewrite decide_False; [done|].
    destruct (find_experts glob path) as [|? [|? ?]]; cbn in *; lia.
  - unfold parse_expert.
    change (path +:+ "=" +:+ name +:+ ":route*")
      with (path +:+ "=" +:+ name +:+ String colon "route*").
    rewrite (append_assoc "=" name), (append_assoc path).
    rewrite split_app_sep by done.
    change ((?x :: ?l) !! 0) with (Some x).
    change (default EmptyString (Some ?x)) with x.
    change (path +:+ "=" +:+ name) with (path +:+ String equals name).
    rewrite (partition_app_sep equals path name Hp2). rewrite Hname.
    rewrite decide_False; [done|].
    destruct (find_experts glob path) as [|? [|? ?]]; cbn in *; lia.
Qed.

(** X14.  A specification [path=name] without an action is parsed to the
    action [route]: not the default expert, named [name], all layers; with
    [:merge] behind it the action is [merge]; and with [:route*] the
    expert is the default one and the star is taken off the action. *)
Theorem parse_experts_to_load_named_spec path name :
  contains colon path = false -> contains equals path = false ->
  contains colon name = false -> name <> EmptyString ->
  length (glob (path ++ "/**/csv_metrics/")) <= 1 ->
  parse_experts_to_load glob (OneSpec (path ++ "=" ++ name))
  = Ok [mkExpertKwargs path "route" false (Some name) None] /\
  parse_experts_to_load glob (OneSpec (path ++ "=" ++ name ++ ":merge"))
  = Ok [mkExpertKwargs path "merge" false (Some name) None] /\
  parse_experts_to_load glob (Specs [(path ++ "=" ++ name ++ ":route*")%string;
                                     (path ++ "=" ++ name)%string])
  = Ok [mkExpertKwargs path "route" true (Some name) None;
        mkExpertKwargs path "route" false (Some name) None].
Proof.
  intros Hp1 Hp2 Hn Hne Hglob.
  destruct (parse_named_spec path name Hp1 Hp2 Hn Hne Hglob) as (H1 & H2 & H3).
  unfold parse_experts_to_load. cbn [foldl]. cbn [mbind result_bind].
  rewrite H1, H2, H3. cbn [mbind result_bind]. rewrite ?H1. done.
Qed.

End LoadModuleFacts.

Section LoadModuleWitness.
Import PyStr LoadModule.

Lemma parse_experts_to_load_entries_witness :
  length [mkExpertKwargs "experts/algebra" "route" true (Some "alg") None] = 1 /\
  Forall (fun kw =>
            contains colon (kw_expert_path kw) = false /\
            contains equals (kw_expert_path kw) = false /\
            contains star (kw_action kw) = false /\
            contains colon (kw_action kw) = false /\
            kw_expert_name kw <> Some EmptyString /\
            (1 < length (find_experts (fun _ => []) (kw_expert_path kw)) ->
             kw_is_default kw = false /\ kw_expert_name kw = None))
    [mkExpertKwargs "experts/algebra" "route" true (Some "alg") None].
Proof.
  apply (parse_experts_to_load_entries (fun _ => []) (OneSpec "experts/algebra=alg:route*")).
  reflexivity.
Defined.

Lemma parse_experts_to_load_named_spec_witness :
  parse_experts_to_load (fun _ => []) (OneSpec "experts/algebra=alg")
  = Ok [mkExpertKwargs "experts/algebra" "route" false (Some "alg") None].
Proof.
  apply (parse_experts_to_load_named_spec (fun _ => []) "experts/algebra" "alg");
    try reflexivity; try discriminate. cbn. lia.
Defined.

End LoadModuleWitness.

Section PushExpertFacts.
Import PyStr PushExpert.

Variable get_checkpoint_path : string -> bool -> result string.
Variable torch_load : string -> result HyperParameters.
Variable convert_and_push_to_hub : string -> string -> bool -> bool -> result unit.

Lemma contains_app_sep c p rest : contains c (p ++ String c rest) = true.
Proof.
  induction p as [|a p IH];
    unfold String.append; fold String.append; cbn -[Ascii.eqb String.append].
  - by rewrite Ascii.eqb_refl.
  - by destruct (Ascii.eqb a c).
Qed.

(** X15.  The repository that [push_expert_to_hub] uploads to is named after
    the user, the part of the model name behind its first slash, the
    dataset and the expert.  A model name without a slash leaves the model
    part empty.  Of a dataset name with a slash, as the names of the hub
    are, the part behind the first slash is taken; a dataset name without
    a slash is taken whole.  A name of the expert given as argument wins
    over the names stored in the checkpoint, of which [expert_name] wins
    over [finetune_task_name].  The checkpoint uploaded is the one found by
    [get_checkpoint_path] when [auto_search] is set, the given path
    otherwise, and one line is logged. *)
Theorem push_expert_to_hub_repo_id ckpt_path hf_user_id (auto_search use_last : bool)
    expert_name path hp :
  (if auto_search then get_checkpoint_path ckpt_path use_last else Ok ckpt_path) = Ok path ->
  torch_load path = Ok hp ->
  let name := ExpertModel.py_str
                (match expert_name with
                 | Some n => Some n
                 | None => match hp_expert_name hp with
                           | Some n => Some n
                           | None => hp_finetune_task_name hp
                           end
                 end) in
  forall model_part dataset_part,
    ((exists org, hp_model hp = (org ++ "/" ++ model_part)%string /\
                  contains slash org = false) \/
     (contains slash (hp_model hp) = false /\ model_part = "")) ->
    ((exists org, hp_dataset hp = (org ++ "/" ++ dataset_part)%string /\
                  contains slash org = false) \/
     (contains slash (hp_dataset hp) = false /\ dataset_part = hp_dataset hp)) ->
    let repo := (hf_user_id ++ "/expert__" ++ model_part ++ "__" ++ dataset_part
                 ++ "__" ++ name)%string in
    push_expert_to_hub get_checkpoint_path torch_load convert_and_push_to_hub
      ckpt_path hf_user_id auto_search use_last expert_name
    = ([("Uploading checkpoint " ++ path ++ " --> " ++ repo)%string],
       convert_and_push_to_hub path repo false false).
Proof.
  intros Hpath Hload name model_part dataset_part Hmodel Hds repo. subst repo.
  unfold push_expert_to_hub. rewrite Hpath, Hload. unfold repo_id, stored_name. fold name.
  assert (Hm : (partition slash (hp_model hp)).2 = model_part).
  { destruct Hmodel as [(org & -> & Horg)|[Hno ->]].
    - change (org +:+ "/" +:+ model_part) with (org +:+ String slash model_part).
      by rewrite (partition_app_sep slash org model_part Horg).
    - by rewrite (partition_no_sep slash _ Hno). }
  assert (Hd : (if contains slash (hp_dataset hp)
                then (partition slash (hp_dataset hp)).2 else hp_dataset hp) = dataset_part).
  { destruct Hds as [(org & -> & Horg)|[Hno ->]].
    - change (org +:+ "/" +:+ dataset_part) with (org +:+ String slash dataset_part).
      rewrite contains_app_sep. by rewrite (partition_app_sep slash org dataset_part Horg).
    - by rewrite Hno. }
  cbn zeta. by rewrite Hm, Hd.
Qed.

End PushExpertFacts.

Section PushExpertWitness.
Import PyStr PushExpert.

Lemma push_expert_to_hub_repo_id_witness :
  push_expert_to_hub (fun p _ => Ok (p ++ "/best.ckpt")%string)
    (fun _ => Ok (mkHyperParameters "google/flan-t5-large" "sordonia/flan-10k-flat"
                    None (Some "algebra")))
    (fun _ repo _ _ => Raise (ValueError repo)) "out" "user" true false None
  = (["Uploading checkpoint out/best.ckpt --> "
      ++ "user/expert__flan-t5-large__flan-10k-flat__algebra"]%string,
     Raise (ValueError "user/expert__flan-t5-large__flan-10k-flat__algebra")).
Proof.
  apply (push_expert_to_hub_repo_id (fun p _ => Ok (p ++ "/best.ckpt")%string)
           (fun _ => Ok (mkHyperParameters "google/flan-t5-large" "sordonia/flan-10k-flat"
                           None (Some "algebra")))
           (fun _ repo _ _ => Raise (ValueError repo)) "out" "user" true false None
           "out/best.ckpt"
           (mkHyperParameters "google/flan-t5-large" "sordonia/flan-10k-flat"
              None (Some "algebra"))
           eq_refl eq_refl "flan-t5-large" "flan-10k-flat").
  - left. exists "google". split; reflexivity.
  - left. exists "sordonia". split; reflexivity.
Defined.

End PushExpertWitness.


(** The encoder-decoder trainer *)

Section DecoderInputs.
Import EncDec.
Local Open Scope Z_scope.

Lemma shift_right_row (row : list Z) :
  map (fun _ : Z => 0) (take 1 row) ++ take (length row - 1) row
  = match row with [] => [] | _ :: _ => 0 :: removelast row end.
Proof.
  destruct row as [|x row]; [done|]. cbn [take map app length]. f_equal.
  rewrite Nat.sub_succ, Nat.sub_0_r.
  assert (Hgen : forall (l : list Z) a, take (length l) (a :: l) = removelast (a :: l)).
  { induction l as [|y l IH]; intros a; [done|].
    cbn [length take]. rewrite IH. done. }
  apply Hgen.
Qed.

Lemma lookup_removelast {A} (l : list A) j :
  (S j < length l)%nat -> removelast l !! j = l !! j.
Proof.
  revert j. induction l as [|x l IH]; intros j Hj; [simpl in Hj; lia|].
  destruct l as [|y l]; [simpl in Hj; lia|].
  destruct j as [|j]; [done|]. cbn [removelast]. cbn [lookup list_lookup].
  apply IH. simpl in Hj |- *. lia.
Qed.

Lemma length_removelast {A} (l : list A) : length (removelast l) = (length l - 1)%nat.
Proof.
  induction l as [|x l IH]; [done|]. destruct l as [|y l]; [done|].
  cbn [removelast length] in *. lia.
Qed.

(** X16.  The decoder inputs of [training_step] are the targets moved one
    place to the right: same shape, a 0 in front, the token of place [j] at
    place [j + 1] with the pad token for every -100, and the last target
    dropped; no -100 is left unless the pad token is -100 itself; and the
    decoder attention mask is one everywhere, padding included. *)
Theorem decoder_inputs_shift (pad : Z) (target_ids : list (list Z)) :
  let dec := decoder_input_ids pad target_ids in
  Forall2 (fun row drow =>
             length drow = length row /\
             (row <> [] -> drow !! 0%nat = Some 0) /\
             forall (j : nat) x, row !! j = Some x -> (S j < length row)%nat ->
                         drow !! S j = Some (if x =? -100 then pad else x))
    target_ids dec /\
  (pad <> -100 -> Forall (Forall (fun x => x <> -100)) dec) /\
  decoder_attention_mask dec = map (map (fun _ => 1%R)) dec.
Proof.
  intros dec. subst dec. unfold decoder_input_ids, shift_right. rewrite map_map.
  split; [|split].
  - apply Forall2_fmap_r, Forall_Forall2_diag, Forall_forall. intros row _.
    unfold compose. rewrite shift_right_row. destruct row as [|x0 row]; [done|].
    cbn [map]. split; [|split].
    + cbn [length]. rewrite length_map, length_removelast. cbn [length]. lia.
    + done.
    + intros j x Hj Hlt.
      change (map (fun x1 => if x1 =? -100 then pad else x1) (removelast (x0 :: row)) !! j
              = Some (if x =? -100 then pad else x)).
      rewrite list_lookup_fmap, lookup_removelast by done. by rewrite Hj.
  - intros Hpad. apply Forall_map, Forall_forall. intros row _.
    apply Forall_map, Forall_forall. intros x _. cbn.
    destruct (Z.eqb_spec x (-100)); done.
  - unfold decoder_attention_mask. apply map_ext. intros row. apply map_ext.
    intros x. by rewrite Z.eqb_refl.
Qed.

(** X17.  The choice targets of [training_step] put the ignored index of the
    loss at the padded places exactly when the pad token is 0, or when
    nothing is padded: a padded place holds the pad token minus 100. *)
Theorem lm_target_ignores_padding (pad : Z) (flat_choices_ids : list (list Z)) :
  Forall2 (Forall2 (fun x y => y = if x =? pad then pad - 100 else x))
    flat_choices_ids (lm_target pad flat_choices_ids) /\
  (lm_target pad flat_choices_ids
   = map (map (fun x => if x =? pad then ignore_index else x)) flat_choices_ids
   <-> pad = 0 \/ Forall (Forall (fun x => x <> pad)) flat_choices_ids).
Proof.
  unfold lm_target, ignore_index. split.
  - apply Forall2_fmap_r, Forall_Forall2_diag, Forall_forall. intros row _.
    apply Forall2_fmap_r, Forall_Forall2_diag, Forall_forall. intros x _.
    unfold compose. destruct (Z.eqb_spec x pad); [subst|]; lia.
  - split.
    + intros Heq. destruct (decide (pad = 0)) as [|Hpad]; [by left|right].
      apply Forall_forall. intros row Hrow. apply Forall_forall. intros x Hx ->.
      apply list_elem_of_lookup in Hrow as [b Hb]. apply list_elem_of_lookup in Hx as [j Hj].
      apply (f_equal (fun t => t !! b ≫= (.!! j))) in Heq.
      rewrite !list_lookup_fmap, Hb in Heq. cbn in Heq.
      rewrite !list_lookup_fmap, Hj in Heq. cbn in Heq.
      rewrite Z.eqb_refl in Heq. injection Heq. lia.
    + intros Hcase. apply map_ext_Forall.
      destruct Hcase as [->|Hall].
      * apply Forall_forall. intros row _. apply map_ext. intros x.
        destruct (Z.eqb_spec x 0); [subst|]; lia.
      * eapply Forall_impl; [exact Hall|]. intros row Hrow. cbn.
        apply map_ext_Forall. eapply Forall_impl; [exact Hrow|]. intros x Hx. cbn.
        destruct (Z.eqb_spec x pad); [done|lia].
Qed.

End DecoderInputs.

Section Accumulate.
Import EncDec.
Context {V : Type} `{EqDecision V}.

Lemma extend_fold_raise (e : PyExc) (kvs : list (string * list V)) :
  foldl (fun acc kv => acc ← acc; extend acc kv) (Raise e) kvs = Raise e.
Proof. induction kvs as [|kv kvs IH]; [done|]. cbn. exact IH. Qed.

(** One batch: every column of the batch is appended to the column of the
    same key. *)
Lemma extend_fold_ok (kvs : list (string * list V)) (acc : gmap string (list V)) :
  NoDup kvs.*1 ->
  (forall k v, (k, v) ∈ kvs -> is_Some (acc !! k)) ->
  exists acc',
    foldl (fun acc kv => acc ← acc; extend acc kv) (Ok acc) kvs = Ok acc' /\
    forall k, acc' !! k =
              (fun l => l ++ default [] ((list_to_map kvs : gmap string (list V)) !! k))
                <$> acc !! k.
Proof.
  revert acc. induction kvs as [|[k0 v0] kvs IH]; intros acc Hnd Hdom.
  - exists acc. split; [done|]. intros k. cbn. rewrite lookup_empty. cbn.
    destruct (acc !! k); cbn; [by rewrite app_nil_r|done].
  - cbn in Hnd. apply NoDup_cons in Hnd as [Hk0 Hnd].
    destruct (Hdom k0 v0 ltac:(by left)) as [l0 Hl0].
    cbn [foldl]. cbn [mbind result_bind]. unfold extend at 2. cbn [fst snd]. rewrite Hl0.
    destruct (IH (<[k0 := l0 ++ v0]> acc) Hnd) as (acc' & Hfold & Hacc').
    { intros k v Hkv. destruct (decide (k = k0)) as [->|Hne].
      - rewrite lookup_insert_eq. by eexists.
      - rewrite lookup_insert_ne by done. apply (Hdom k v). by right. }
    exists acc'. split; [exact Hfold|]. intros k. rewrite Hacc'.
    cbn [list_to_map foldr]. destruct (decide (k = k0)) as [->|Hne].
    + rewrite !lookup_insert_eq, Hl0. cbn.
      rewrite (not_elem_of_list_to_map_1 (M := gmap string)) by done. cbn.
      by rewrite app_nil_r.
    + by rewrite !lookup_insert_ne by done.
Qed.

Lemma extend_fold_missing (kvs : list (string * list V)) (acc : gmap string (list V)) k v :
  (k, v) ∈ kvs -> acc !! k = None ->
  exists key, foldl (fun acc kv => acc ← acc; extend acc kv) (Ok acc) kvs = Raise (KeyError key).
Proof.
  revert acc. induction kvs as [|[k0 v0] kvs IH]; intros acc Hin Hk.
  - by apply elem_of_nil in Hin.
  - cbn [foldl]. cbn [mbind result_bind]. unfold extend at 2. cbn [fst snd].
    destruct (acc !! k0) as [l0|] eqn:Hl0.
    + apply elem_of_cons in Hin as [Heq|Hin]; [by simplify_eq|].
      apply IH; [done|]. rewrite lookup_insert_ne; [done|]. by intros ->; simplify_eq.
    + exists k0. apply extend_fold_raise.
Qed.

Lemma extend_batch_raise e (outputs : list (gmap string (list V))) :
  foldl extend_batch (Raise e) outputs = Raise e.
Proof. induction outputs as [|o outputs IH]; [done|]. cbn. exact IH. Qed.

Lemma batches_ok (outputs : list (gmap string (list V))) (acc : gmap string (list V)) :
  Forall (fun o => dom o ⊆ dom acc) outputs ->
  exists acc',
    foldl extend_batch (Ok acc) outputs = Ok acc' /\
    forall k, acc' !! k =
              (fun l => l ++ concat (map (fun o => default [] (o !! k)) outputs)) <$> acc !! k.
Proof.
  revert acc. induction outputs as [|o outputs IH]; intros acc Hdom.
  - exists acc. split; [done|]. intros k. cbn.
    destruct (acc !! k); cbn; [by rewrite app_nil_r|done].
  - apply Forall_cons in Hdom as [Ho Hdom].
    destruct (extend_fold_ok (map_to_list o) acc) as (acc1 & Hfold & Hacc1).
    { apply NoDup_fst_map_to_list. }
    { intros k v Hkv. apply elem_of_map_to_list in Hkv.
      apply elem_of_dom. apply Ho. apply elem_of_dom. by eexists. }
    destruct (IH acc1) as (acc' & Hfold' & Hacc').
    { eapply Forall_impl; [exact Hdom|]. intros o' Ho'. cbn in Ho' |- *.
      intros k Hk. apply Ho' in Hk. apply elem_of_dom in Hk as [l Hl].
      apply elem_of_dom. rewrite Hacc1, Hl. by eexists. }
    exists acc'. split.
    + cbn [foldl]. unfold extend_batch at 2. cbn [mbind result_bind]. rewrite Hfold.
      exact Hfold'.
    + intros k. rewrite Hacc', Hacc1. rewrite list_to_map_to_list.
      destruct (acc !! k); cbn; [|done]. by rewrite <- app_assoc.
Qed.

Lemma batches_missing (outputs : list (gmap string (list V))) (acc : gmap string (list V)) :
  Exists (fun o => ~ dom o ⊆ dom acc) outputs ->
  exists key, foldl extend_batch (Ok acc) outputs = Raise (KeyError key).
Proof.
  revert acc. induction outputs as [|o outputs IH]; intros acc Hex.
  - by apply Exists_nil in Hex.
  - cbn [foldl]. unfold extend_batch at 2. cbn [mbind result_bind].
    destruct (decide (dom o ⊆ dom acc)) as [Ho|Ho].
    + apply Exists_cons in Hex as [Hex|Hex]; [done|].
      destruct (extend_fold_ok (map_to_list o) acc) as (acc1 & Hfold & Hacc1).
      { apply NoDup_fst_map_to_list. }
      { intros k v Hkv. apply elem_of_map_to_list in Hkv.
        apply elem_of_dom. apply Ho. apply elem_of_dom. by eexists. }
      rewrite Hfold. apply IH.
      assert (Hdom : dom acc1 = dom acc).
      { apply set_eq. intros k. rewrite !elem_of_dom, Hacc1.
        destruct (acc !! k); cbn; split; intros [? ?]; by eexists. }
      by rewrite Hdom.
    + assert (Hk : exists k v, o !! k = Some v /\ acc !! k = None).
      { destruct (decide (set_Forall (fun k => k ∈ dom acc) (dom o))) as [Hall|Hnot].
        - exfalso. apply Ho. intros k Hk. by apply Hall.
        - apply not_set_Forall_Exists in Hnot; [|apply _].
          destruct Hnot as (k & Hk & Hnk). apply elem_of_dom in Hk as [v Hv].
          exists k, v. split; [done|]. cbn in Hnk. by apply not_elem_of_dom in Hnk. }
      destruct Hk as (k & v & Hov & Hacc).
      destruct (extend_fold_missing (map_to_list o) acc k v) as [key Hkey];
        [by apply elem_of_map_to_list|done|].
      rewrite Hkey. exists key. apply extend_batch_raise.
Qed.

(** X18.  When every batch has the columns of the first one,
    [inference_epoch_end] concatenates the batches column by column, in
    the order of the batches; without any batch it raises [IndexError],
    and a batch with a column that the first one lacks makes it raise
    [KeyError]. *)
Theorem accumulate_concatenates (outputs : list (gmap string (list V))) :
  (outputs = [] -> exists msg, accumulate outputs = Raise (IndexError msg)) /\
  (forall first rest,
     outputs = first :: rest ->
     (Forall (fun o => dom o = dom first) rest ->
      exists acc,
        accumulate outputs = Ok acc /\
        dom acc = dom first /\
        forall key, is_Some (first !! key) ->
                    acc !! key = Some (concat (map (fun o => default [] (o !! key)) outputs))) /\
     (Exists (fun o => ~ dom o ⊆ dom first) rest ->
      exists key, accumulate outputs = Raise (KeyError key))).
Proof.
  split.
  - intros ->. by eexists.
  - intros first rest ->. split.
    + intros Hdom. unfold accumulate.
      destruct (batches_ok (first :: rest) ((fun _ => []) <$> first)) as (acc & Hfold & Hacc).
      { apply Forall_cons. split; [by rewrite dom_fmap_L|].
        eapply Forall_impl; [exact Hdom|]. intros o Ho. cbn in Ho |- *.
        by rewrite dom_fmap_L, Ho. }
      exists acc. split; [exact Hfold|]. split.
      * apply set_eq. intros k. rewrite !elem_of_dom, Hacc, lookup_fmap.
        destruct (first !! k); cbn; split; intros [? ?]; by eexists.
      * intros key [l Hl]. rewrite Hacc, lookup_fmap, Hl. done.
    + intros Hex. unfold accumulate. apply batches_missing.
      apply Exists_cons. right. eapply Exists_impl; [exact Hex|].
      intros o Ho. cbn in Ho |- *. by rewrite dom_fmap_L.
Qed.

End Accumulate.

Section AccumulateWitness.
Import EncDec.

Lemma accumulate_concatenates_witness :
  exists acc,
    accumulate (V := Z) [{["idx" := [1; 2]%Z]}; {["idx" := [2; 3]%Z]}] = Ok acc /\
    acc !! "idx" = Some [1; 2; 2; 3]%Z.
Proof.
  destruct (proj1 (proj2 (accumulate_concatenates (V := Z)
                            [{["idx" := [1; 2]%Z]}; {["idx" := [2; 3]%Z]}])
                     {["idx" := [1; 2]%Z]} [{["idx" := [2; 3]%Z]}] eq_refl))
    as (acc & H1 & _ & H3).
  - repeat constructor.
  - exists acc. split; [exact H1|]. rewrite (H3 "idx"); [reflexivity|].
    by eexists.
Defined.

End AccumulateWitness.

Section Duplicates.
Import EncDec.
Context {V : Type} `{EqDecision V}.

Lemma keep_valid_nil_l {A} (mask : list bool) : keep_valid (@nil A) mask = [].
Proof. done. Qed.

Lemma keep_valid_cons {A} (v : A) vs (m : bool) mask :
  keep_valid (v :: vs) (m :: mask) = if m then v :: keep_valid vs mask else keep_valid vs mask.
Proof. unfold keep_valid. cbn [zip zip_with omap]. by destruct m. Qed.

Lemma kept_elem_of (seen idx : list V) i :
  i ∈ keep_valid idx (valid_mask seen idx) <-> i ∈ idx /\ i ∉ seen.
Proof.
  revert seen. induction idx as [|i0 idx IH]; intros seen.
  - rewrite keep_valid_nil_l. split; [by intros ?%elem_of_nil|by intros [?%elem_of_nil _]].
  - cbn [valid_mask]. rewrite keep_valid_cons. case_bool_decide as Hin; cbn [negb].
    + rewrite IH, not_elem_of_cons, elem_of_cons. split.
      * intros [Hi [Hne Hs]]. by split; [right|].
      * intros [[->|Hi] Hs]; [done|]. split; [done|]. split; [by intros ->|done].
    + rewrite (elem_of_cons _ i i0), IH, not_elem_of_cons, (elem_of_cons idx). split.
      * intros [->|[Hi [Hne Hs]]]; [by split; [left|]|by split; [right|]].
      * intros [[->|Hi] Hs]; [by left|].
        destruct (decide (i = i0)) as [->|Hne]; [by left|by right].
Qed.

Lemma kept_NoDup (seen idx : list V) : NoDup (keep_valid idx (valid_mask seen idx)).
Proof.
  revert seen. induction idx as [|i0 idx IH]; intros seen.
  - rewrite keep_valid_nil_l. constructor.
  - cbn [valid_mask]. rewrite keep_valid_cons. case_bool_decide as Hin; cbn [negb].
    + apply IH.
    + constructor; [|apply IH]. rewrite kept_elem_of, not_elem_of_cons.
      by intros [_ [? _]].
Qed.

Lemma kept_aligned {A} (seen idx : list V) (values : list A) :
  length values = length idx ->
  length (keep_valid values (valid_mask seen idx))
  = length (keep_valid idx (valid_mask seen idx)) /\
  forall j i v,
    keep_valid idx (valid_mask seen idx) !! j = Some i ->
    keep_valid values (valid_mask seen idx) !! j = Some v ->
    exists k, idx !! k = Some i /\ values !! k = Some v /\
              forall k', k' < k -> idx !! k' <> Some i.
Proof.
  revert seen values. induction idx as [|i0 idx IH]; intros seen [|v0 values] Hlen;
    try discriminate.
  - split; [done|]. intros j i v Hi. by rewrite keep_valid_nil_l in Hi.
  - injection Hlen as Hlen. destruct (IH (i0 :: seen) values Hlen) as [IHlen IHal].
    cbn [valid_mask]. rewrite !keep_valid_cons.
    assert (Hshift : forall j i v,
               keep_valid idx (valid_mask (i0 :: seen) idx) !! j = Some i ->
               keep_valid values (valid_mask (i0 :: seen) idx) !! j = Some v ->
               exists k, (i0 :: idx) !! k = Some i /\ (v0 :: values) !! k = Some v /\
                         forall k', k' < k -> (i0 :: idx) !! k' <> Some i).
    { intros j i v Hi Hv. destruct (IHal j i v Hi Hv) as (k & Hk1 & Hk2 & Hk3).
      exists (S k). split; [done|]. split; [done|].
      intros [|k'] Hlt.
      - cbn. intros [= ->].
        apply list_elem_of_lookup_2, kept_elem_of in Hi.
        destruct Hi as [_ Hi]. apply Hi. by left.
      - cbn. apply Hk3. lia. }
    case_bool_decide as Hin; cbn [negb].
    + split; [done|]. exact Hshift.
    + split; [cbn; by rewrite IHlen|].
      intros [|j] i v Hi Hv.
      * cbn in Hi, Hv. simplify_eq. exists 0. split; [done|]. split; [done|]. lia.
      * cbn in Hi, Hv. by apply Hshift with (j := j).
Qed.

Lemma valid_mask_NoDup (seen idx : list V) :
  NoDup idx -> (forall i, i ∈ idx -> i ∉ seen) ->
  valid_mask seen idx = replicate (length idx) true.
Proof.
  revert seen. induction idx as [|i0 idx IH]; intros seen Hnd Hseen; [done|].
  apply NoDup_cons in Hnd as [Hi0 Hnd]. cbn [valid_mask length replicate].
  rewrite bool_decide_eq_false_2 by (apply Hseen; by left). cbn [negb]. f_equal.
  apply IH; [done|]. intros i Hi. apply not_elem_of_cons. split.
  - by intros ->.
  - apply Hseen. by right.
Qed.

Lemma keep_valid_all {A} (values : list A) n :
  length values <= n -> keep_valid values (replicate n true) = values.
Proof.
  revert n. induction values as [|v values IH]; intros n Hn; [done|].
  destruct n as [|n]; [simpl in Hn; lia|].
  cbn [replicate]. rewrite keep_valid_cons. f_equal. apply IH. simpl in Hn. lia.
Qed.

Lemma length_keep_valid {A} (values : list A) (seen idx : list V) :
  length (keep_valid values (valid_mask seen idx))
  <= length (keep_valid idx (valid_mask seen idx)).
Proof.
  revert seen values. induction idx as [|i0 idx IH]; intros seen values.
  - destruct values; cbn; lia.
  - destruct values as [|v0 values]; [rewrite keep_valid_nil_l; cbn; lia|].
    cbn [valid_mask]. rewrite !keep_valid_cons.
    destruct (negb _); [cbn; specialize (IH (i0 :: seen) values); lia|apply IH].
Qed.

(** X19.  [inference_epoch_end] keeps of every index its first occurrence:
    the indices left are pairwise different and are those that were
    there; a column as long as the column of indices keeps the entries at
    the same positions, so that every entry left stands beside the index it
    stood beside, at the first occurrence of that index; and removing the
    duplicates again changes nothing.  Without a column of indices the
    call raises [KeyError]. *)
Theorem drop_duplicates_first_occurrences (accumulated : gmap string (list V)) :
  (accumulated !! "idx" = None -> drop_duplicates accumulated = Raise (KeyError "idx")) /\
  (forall idx, accumulated !! "idx" = Some idx ->
   exists out kept,
     drop_duplicates accumulated = Ok out /\
     out !! "idx" = Some kept /\
     NoDup kept /\
     (forall i, i ∈ kept <-> i ∈ idx) /\
     (forall key values,
        accumulated !! key = Some values -> length values = length idx ->
        exists values',
          out !! key = Some values' /\
          length values' = length kept /\
          forall j i v,
            kept !! j = Some i -> values' !! j = Some v ->
            exists k, idx !! k = Some i /\ values !! k = Some v /\
                      forall k', k' < k -> idx !! k' <> Some i) /\
     drop_duplicates out = Ok out).
Proof.
  split.
  - intros Hidx. unfold drop_duplicates. by rewrite Hidx.
  - intros idx Hidx. unfold drop_duplicates at 1. rewrite Hidx.
    eexists _, (keep_valid idx (valid_mask [] idx)).
    split; [reflexivity|].
    assert (Hout : ((fun values => keep_valid values (valid_mask [] idx)) <$> accumulated)
                     !! "idx" = Some (keep_valid idx (valid_mask [] idx)))
      by (by rewrite lookup_fmap, Hidx).
    split; [exact Hout|]. split; [apply kept_NoDup|]. split; [|split].
    + intros i. rewrite kept_elem_of. split; [by intros [? _]|].
      intros Hi. split; [done|apply not_elem_of_nil].
    + intros key values Hkey Hlen. eexists. split; [by rewrite lookup_fmap, Hkey|].
      by apply kept_aligned.
    + unfold drop_duplicates. rewrite Hout. f_equal.
      rewrite <- map_fmap_compose. apply map_eq. intros key.
      rewrite !lookup_fmap. destruct (accumulated !! key) as [values|]; [|done].
      cbn. f_equal.
      rewrite (valid_mask_NoDup [] (keep_valid idx (valid_mask [] idx)));
        [|apply kept_NoDup|intros i _; apply not_elem_of_nil].
      apply keep_valid_all, length_keep_valid.
Qed.

End Duplicates.

Section DuplicatesWitness.
Import EncDec.

Lemma drop_duplicates_first_occurrences_witness :
  exists out kept,
    drop_duplicates (V := Z) {["idx" := [3; 5; 3]%Z; "prediction" := [10; 11; 12]%Z]} = Ok out /\
    out !! "idx" = Some kept /\
    NoDup kept /\
    (forall i, i ∈ kept <-> i ∈ [3; 5; 3]%Z).
Proof.
  destruct (proj2 (drop_duplicates_first_occurrences (V := Z)
                     {["idx" := [3; 5; 3]%Z; "prediction" := [10; 11; 12]%Z]})
              [3; 5; 3]%Z)
    as (out & kept & H1 & H2 & H3 & H4 & _).
  - reflexivity.
  - exists out, kept. repeat split; first [exact H1 | exact H2 | exact H3 | apply H4].
Defined.

End DuplicatesWitness.


(** Batch sizes, step counts and checkpoints *)

Section BatchSizes.
Import BatchConfig.
Local Open Scope Z_scope.

(** X20.  [post_init] keeps the micro batch as the batch size and derives the
    accumulation steps by floor division: their product is the batch size
    asked for minus its remainder by the micro batch, so it reaches the
    batch size asked for exactly when the micro batch divides it, and it
    is zero when the micro batch is larger.  A micro batch of zero raises;
    without a micro batch there is one accumulation step. *)
Theorem post_init_effective_batch (self : ExpertConfig) :
  let n := train_batch_size self in
  let m := default n (micro_batch_size self) in
  (m = 0 -> post_init self = Raise ZeroDivisionError) /\
  (m <> 0 ->
   exists steps,
     post_init self = Ok (mkExpertConfig m (Some m) (Some steps)) /\
     m * steps = n - n mod m /\
     (m * steps = n <-> (m | n)) /\
     (0 < m -> 0 <= n -> 0 <= m * steps <= n) /\
     (0 <= n < m -> steps = 0) /\
     (micro_batch_size self = None -> steps = 1)).
Proof.
  intros n m. unfold post_init, floordiv. fold n. fold m. split.
  - intros H. by rewrite decide_True.
  - intros H. rewrite decide_False by done. exists (n / m).
    split; [done|].
    pose proof (Z.div_mod n m H) as Hdm.
    split; [lia|]. split; [|split; [|split]].
    + rewrite <- Z.mod_divide by done.
      revert Hdm. generalize (n / m) (n mod m). generalize m n. clear.
      intros m n q r ->. split; intros Hq; [|subst r]; lia.
    + intros Hm Hn. pose proof (Z.mod_pos_bound n m Hm) as Hb.
      pose proof (Z.div_pos n m Hn Hm) as Hq.
      revert Hdm Hb Hq. generalize (n / m) (n mod m). intros q r Hdm Hb Hq. nia.
    + intros Hnm. by apply Z.div_small.
    + intros Hnone. subst m. rewrite Hnone in *. cbn [default] in *.
      by apply Z.div_same.
Qed.

Lemma post_init_effective_batch_witness :
  exists steps,
    post_init (mkExpertConfig 10 (Some 4) None)
    = Ok (mkExpertConfig 4 (Some 4) (Some steps)) /\
    4 * steps = 10 - 10 mod 4.
Proof.
  destruct (proj2 (post_init_effective_batch (mkExpertConfig 10 (Some 4) None)))
    as (steps & H1 & H2 & _).
  - discriminate.
  - exists steps. split; [exact H1 | exact H2].
Defined.

(** X21.  [RoutingConfig.post_init] raises when an evaluation is switched on
    whose data directory the environment does not name.  Otherwise, with a
    micro batch larger than the batch size it leaves zero accumulation
    steps, and [configure_optimizers] then raises [ZeroDivisionError] when
    the number of steps is left to be derived; with a micro batch that is
    at most the batch size, the derived number of steps is the number of
    global batches in the training set times the number of epochs, the
    global batch being at most the batch size asked for times the world
    size. *)
Theorem configure_total_steps_after_post_init environ (self : RoutingConfig)
  world len_ds epochs :
  let n := rc_train_batch_size self in
  let m := rc_micro_batch_size self in
  (rc_eval_mmlu self = true -> "MMLU_DATA_DIR" ∉ environ ->
   exists msg, RoutingConfig_post_init environ self = Raise (ValueError msg)) /\
  ((rc_eval_mmlu self = true -> "MMLU_DATA_DIR" ∈ environ) ->
   (rc_eval_superni self = true -> "NI_DATA_DIR" ∈ environ) ->
   0 < m -> 0 <= n -> 0 < default 1 world -> 0 <= len_ds ->
   exists steps,
     RoutingConfig_post_init environ self
     = Ok (mkRoutingConfig (rc_eval_mmlu self) (rc_eval_superni self) m m (Some steps)) /\
     (n < m ->
      steps = 0 /\
      configure_total_steps m steps world (-1) len_ds epochs = Raise ZeroDivisionError) /\
     (m <= n ->
      exists global_bs,
        0 < global_bs <= n * default 1 world /\
        configure_total_steps m steps world (-1) len_ds epochs
        = Ok (len_ds / global_bs * epochs)) /\
     (forall total, total <> -1 ->
        configure_total_steps m steps world total len_ds epochs = Ok total)).
Proof.
  intros n m. split.
  - intros Hm Henv. unfold RoutingConfig_post_init. rewrite Hm.
    rewrite bool_decide_eq_false_2 by done. by eexists.
  - intros Hmmlu Hni Hm Hn Hw Hlen. unfold RoutingConfig_post_init, floordiv. fold n. fold m.
    assert (H1 : rc_eval_mmlu self && negb (bool_decide ("MMLU_DATA_DIR" ∈ environ)) = false).
    { destruct (rc_eval_mmlu self); [|done]. by rewrite bool_decide_eq_true_2 by by apply Hmmlu. }
    assert (H2 : rc_eval_superni self && negb (bool_decide ("NI_DATA_DIR" ∈ environ)) = false).
    { destruct (rc_eval_superni self); [|done]. by rewrite bool_decide_eq_true_2 by by apply Hni. }
    rewrite H1, H2.
    rewrite decide_False by lia. exists (n / m). split; [done|].
    clearbody m n. unfold configure_total_steps. split; [|split].
    + intros Hnm. split; [by apply Z.div_small|]. rewrite decide_True by done.
      rewrite Z.div_small by lia. unfold floordiv.
      rewrite decide_True; [done|]. destruct world; apply Z.mul_0_r.
    + intros Hmn. rewrite decide_True by done.
      pose proof (Z.div_mod n m ltac:(lia)) as Hdm.
      pose proof (Z.mod_pos_bound n m Hm) as Hb.
      assert (Hq : 0 < n / m) by (apply Z.div_str_pos; lia).
      assert (Hle : m * (n / m) <= n)
        by (revert Hdm Hb; generalize (n / m) (n mod m); intros; lia).
      assert (Hpos : 0 < m * (n / m)) by (apply Z.mul_pos_pos; lia).
      revert Hle Hpos. generalize (n / m). intros q Hle Hpos.
      destruct world as [w|];
        [change (default 1 (Some w)) with w in *|change (default 1 None) with 1 in *].
      * exists (m * w * q). split; [|unfold floordiv; rewrite decide_False; [done|]].
        -- replace (m * w * q) with (m * q * w) by ring. split.
           ++ by apply Z.mul_pos_pos.
           ++ apply Z.mul_le_mono_nonneg_r; lia.
        -- replace (m * w * q) with (m * q * w) by ring.
           pose proof (Z.mul_pos_pos _ _ Hpos Hw). lia.
      * exists (m * q). split; [lia|].
        unfold floordiv. rewrite decide_False by lia. done.
    + intros total Ht. by rewrite decide_False.
Qed.

Lemma configure_total_steps_after_post_init_witness :
  exists steps,
    RoutingConfig_post_init ∅ (mkRoutingConfig false false 2 4 None)
    = Ok (mkRoutingConfig false false 4 4 (Some steps)) /\
    steps = 0 /\
    configure_total_steps 4 steps None (-1) 1000 3 = Raise ZeroDivisionError.
Proof.
  destruct (proj2 (configure_total_steps_after_post_init ∅
                     (mkRoutingConfig false false 2 4 None) None 1000 3))
    as (steps & H1 & H2 & _); cbn; try lia; try discriminate.
  exists steps. split; [exact H1|]. apply H2. cbn. lia.
Defined.

(** X22.  The validation interval, when there is one, is at most the number
    of training batches and at most the accumulation steps times
    [eval_every]; it is capped by [total_steps] only when the interval
    was not already cut to the number of training batches. *)
Theorem val_check_interval_bounds eval_every gas len_dl total v :
  val_check_interval eval_every gas len_dl total = Some v ->
  exists e,
    eval_every = Some e /\ e <> -1 /\
    v <= len_dl /\ v <= gas * e /\
    (gas * e <= len_dl -> total <> -1 -> v <= total) /\
    (len_dl < gas * e -> v = len_dl).
Proof.
  unfold val_check_interval. destruct eval_every as [e|]; [|done].
  case_decide; [done|]. intros Hv. exists e. split; [done|]. split; [done|].
  repeat case_decide; simplify_eq; lia.
Qed.

Lemma val_check_interval_bounds_witness :
  exists e, Some 400 = Some e /\ e <> -1 /\ 250 <= 250 /\ 250 <= 4 * e /\
            (4 * e <= 250 -> 100 <> -1 -> 250 <= 100) /\ (250 < 4 * e -> 250 = 250).
Proof.
  apply (val_check_interval_bounds (Some 400) 4 250 100 250). reflexivity.
Defined.

End BatchSizes.

Section BestCheckpoint.
Import Callbacks.
Local Open Scope R_scope.

Variable format_4f : R -> string.
Variable format_float : R -> string.
Variable os_path_exists : list FsCall -> string -> bool.
Variable raises : list FsCall -> FsCall -> option PyExc.

Lemma live_snoc done c :
  live (done ++ [c])
  = match c with
    | os_makedirs _ => live done
    | os_remove p => live done ∖ {[p]}
    | trainer_save_checkpoint p => {[p]} ∪ live done
    end.
Proof. unfold live. rewrite foldl_app. by destruct c. Qed.

Lemma call_ok c done done' :
  call raises c done = (done', Ok tt) -> done' = done ++ [c].
Proof. unfold call. destruct (raises done c); [discriminate|]. by intros [= <-]. Qed.

Lemma checkpoint_invariant_init dir :
  checkpoint_invariant format_4f dir [] (ValLossCheckpointCallback_init dir) [].
Proof.
  unfold checkpoint_invariant, ValLossCheckpointCallback_init. cbn.
  repeat split. intros c Hc. by apply elem_of_nil in Hc.
Qed.

Lemma checkpoint_invariant_step dir seen self done r self' log done' :
  kept_after_save os_path_exists dir ->
  checkpoint_invariant format_4f dir seen self done ->
  on_validation_epoch_end format_4f format_float os_path_exists raises self done r
  = (self', log, done', Ok tt) ->
  checkpoint_invariant format_4f dir (seen ++ [r]) self' done'.
Proof.
  intros Hkept (Hdir & Hcrit & Hcalls & Hbest) Hstep.
  assert (Hcalls' : forall c, c ∈ done ->
            match c with
            | os_makedirs p => p = dir
            | os_remove p | trainer_save_checkpoint p =>
                exists r0, r0 ∈ seen ++ [r] /\ p = checkpoint_path format_4f dir r0
            end).
  { intros c Hc. specialize (Hcalls c Hc). destruct c; [done| |];
      destruct Hcalls as (r0 & Hr0 & ->); exists r0; (split; [|done]);
      apply elem_of_app; by left. }
  unfold on_validation_epoch_end in Hstep.
  destruct (match best_val_loss self with
            | Some best => if Rlt_dec r best then true else false
            | None => true
            end) eqn:Hcond.
  2: { injection Hstep as <- _ <-.
       destruct (best_val_loss self) as [m|] eqn:Hm; [|discriminate].
       destruct (Rlt_dec r m) as [|Hge]; [discriminate|].
       unfold checkpoint_invariant. rewrite Hm.
       destruct Hbest as (Hin & Hmin & Hprev & Hlast & Hlive).
       split; [done|]. split; [done|]. split; [exact Hcalls'|].
       split; [apply elem_of_app; by left|]. split; [|done].
       intros r0 Hr0. apply elem_of_app in Hr0 as [Hr0|Hr0]; [by apply Hmin|].
       apply list_elem_of_singleton in Hr0 as ->. lra. }
  unfold save_best_val_model in Hstep.
  cbn [output_dir best_val_loss prev_checkpoint criteria] in Hstep.
  rewrite Hdir, Hcrit in Hstep.
  change (path_join dir ("val_loss" +:+ "/" +:+ format_4f r +:+ ".ckpt"))
    with (checkpoint_path format_4f dir r) in Hstep.
  set (new := checkpoint_path format_4f dir r) in *.
  assert (Hmin : forall r0, r0 ∈ seen ++ [r] -> r <= r0).
  { intros r0 Hr0. apply elem_of_app in Hr0 as [Hr0|Hr0].
    - destruct (best_val_loss self) as [m|] eqn:Hm.
      + destruct (Rlt_dec r m); [|discriminate].
        destruct Hbest as (_ & Hmin & _). specialize (Hmin r0 Hr0). lra.
      + destruct Hbest as (-> & _). by apply elem_of_nil in Hr0.
    - apply list_elem_of_singleton in Hr0 as ->. lra. }
  assert (Hrin : r ∈ seen ++ [r]) by (apply elem_of_app; right; by apply list_elem_of_singleton).
  (* the directory *)
  destruct (if os_path_exists done dir then (done, Ok tt)
            else call raises (os_makedirs dir) done) as [done1 [[]|e]] eqn:Hmk;
    [|by injection Hstep].
  assert (Hdone1 : done1 = done \/ done1 = done ++ [os_makedirs dir]).
  { destruct (os_path_exists done dir); [left; by injection Hmk|].
    right. by apply call_ok in Hmk. }
  (* the previous checkpoint *)
  destruct (match prev_checkpoint self with
            | Some prev =>
                if bool_decide (new <> prev) && os_path_exists done1 prev
                then call raises (os_remove prev) done1 else (done1, Ok tt)
            | None => (done1, Ok tt)
            end) as [done2 [[]|e]] eqn:Hrm; [|by injection Hstep].
  destruct (call raises (trainer_save_checkpoint new) done2) as [done3 [[]|e]] eqn:Hsv;
    [|by injection Hstep].
  apply call_ok in Hsv. injection Hstep as <- _ <-.
  unfold checkpoint_invariant.
  cbn [output_dir best_val_loss prev_checkpoint criteria].
  split; [done|]. split; [done|].
  assert (Hlive2 : live done2 = ∅ \/ live done2 = {[new]}).
  { destruct (best_val_loss self) as [m|] eqn:Hm.
    - destruct Hbest as (Hin & _ & Hprev & Hlast & Hlive).
      rewrite Hprev in Hrm.
      assert (Hl1 : live done1 = {[checkpoint_path format_4f dir m]}).
      { destruct Hdone1 as [->| ->]; [done|]. by rewrite live_snoc. }
      assert (Hex : os_path_exists done1 (checkpoint_path format_4f dir m) = true).
      { destruct (Hkept done _ Hlast) as [H1 H2]. by destruct Hdone1 as [->| ->]. }
      rewrite Hex, andb_true_r in Hrm.
      case_bool_decide as Hne.
      + apply call_ok in Hrm. subst done2. left. rewrite live_snoc, Hl1. set_solver.
      + injection Hrm as <-. right. rewrite Hl1. f_equal.
        by destruct (decide (new = checkpoint_path format_4f dir m)).
    - destruct Hbest as (_ & Hprev & ->). rewrite Hprev in Hrm. injection Hrm as <-.
      left. destruct Hdone1 as [->| ->]; [done|]. by rewrite live_snoc. }
  split; [|split; [done|]; split; [done|]; split; [done|]; split].
  - intros c Hc. subst done3. apply elem_of_app in Hc as [Hc|Hc].
    2: { apply list_elem_of_singleton in Hc as ->. by exists r. }
    assert (Hc2 : c ∈ done1 \/ exists m, best_val_loss self = Some m /\
                                         c = os_remove (checkpoint_path format_4f dir m)).
    { destruct (prev_checkpoint self) as [prev|] eqn:Hprev.
      - destruct (bool_decide (new <> prev) && os_path_exists done1 prev).
        + apply call_ok in Hrm. subst done2. apply elem_of_app in Hc as [Hc|Hc]; [by left|].
          apply list_elem_of_singleton in Hc as ->. right.
          destruct (best_val_loss self) as [m|].
          * destruct Hbest as (_ & _ & Hp & _). exists m. split; [done|]. congruence.
          * destruct Hbest as (_ & Hp & _). congruence.
        + injection Hrm as <-. by left.
      - injection Hrm as <-. by left. }
    destruct Hc2 as [Hc1|(m & Hm & ->)].
    + destruct Hdone1 as [->| ->]; [by apply Hcalls'|].
      apply elem_of_app in Hc1 as [Hc1|Hc1]; [by apply Hcalls'|].
      by apply list_elem_of_singleton in Hc1 as ->.
    + rewrite Hm in Hbest. destruct Hbest as (Hin & _). exists m.
      split; [apply elem_of_app; by left|done].
  - subst done3. apply last_snoc.
  - subst done3. rewrite live_snoc. destruct Hlive2 as [-> | ->]; set_solver.
Qed.

Lemma checkpoint_invariant_run dir results : forall seen self done self' done',
  kept_after_save os_path_exists dir ->
  checkpoint_invariant format_4f dir seen self done ->
  validation_epochs format_4f format_float os_path_exists raises self done results
  = (self', done', Ok tt) ->
  checkpoint_invariant format_4f dir (seen ++ results) self' done'.
Proof.
  induction results as [|r results IH]; intros seen self done self' done' Hkept Hinv Hrun.
  - cbn in Hrun. injection Hrun as <- <-. by rewrite app_nil_r.
  - cbn [validation_epochs] in Hrun.
    destruct (on_validation_epoch_end format_4f format_float os_path_exists raises self done r)
      as [[[self1 log] done1] [[]|e]] eqn:Hstep; [|discriminate].
    rewrite (cons_middle r seen results), app_assoc.
    eapply IH; [done| |exact Hrun].
    eapply checkpoint_invariant_step; [done|exact Hinv|exact Hstep].
Qed.

Lemma epoch_first dir r :
  os_path_exists [] dir = false ->
  raises [] (os_makedirs dir) = None ->
  raises [os_makedirs dir] (trainer_save_checkpoint (checkpoint_path format_4f dir r)) = None ->
  on_validation_epoch_end format_4f format_float os_path_exists raises
    (ValLossCheckpointCallback_init dir) [] r
  = (mkValLossCheckpointCallback dir (Some r) (Some (checkpoint_path format_4f dir r))
       "val_loss",
     [("New best val loss: " ++ format_float r)%string],
     [os_makedirs dir; trainer_save_checkpoint (checkpoint_path format_4f dir r)], Ok tt).
Proof.
  intros Hex Hmk Hsv.
  unfold on_validation_epoch_end, save_best_val_model, ValLossCheckpointCallback_init, call.
  cbn [best_val_loss output_dir prev_checkpoint criteria].
  rewrite Hex, Hmk. cbn [app].
  change (path_join dir ("val_loss" +:+ "/" +:+ format_4f r +:+ ".ckpt"))
    with (checkpoint_path format_4f dir r).
  by rewrite Hsv.
Qed.

Lemma epoch_improves dir b r p done :
  r < b ->
  os_path_exists done dir = true ->
  checkpoint_path format_4f dir r <> p ->
  os_path_exists done p = true ->
  raises done (os_remove p) = None ->
  raises (done ++ [os_remove p]) (trainer_save_checkpoint (checkpoint_path format_4f dir r))
  = None ->
  on_validation_epoch_end format_4f format_float os_path_exists raises
    (mkValLossCheckpointCallback dir (Some b) (Some p) "val_loss") done r
  = (mkValLossCheckpointCallback dir (Some r) (Some (checkpoint_path format_4f dir r))
       "val_loss",
     [("New best val loss: " ++ format_float r)%string],
     (done ++ [os_remove p]) ++ [trainer_save_checkpoint (checkpoint_path format_4f dir r)],
     Ok tt).
Proof.
  intros Hlt Hex Hne Hp Hrm Hsv.
  unfold on_validation_epoch_end, save_best_val_model, call.
  cbn [best_val_loss output_dir prev_checkpoint criteria].
  destruct (Rlt_dec r b); [|done].
  rewrite Hex.
  change (path_join dir ("val_loss" +:+ "/" +:+ format_4f r +:+ ".ckpt"))
    with (checkpoint_path format_4f dir r).
  rewrite Hp, (bool_decide_eq_true_2 _ Hne). cbn [andb].
  by rewrite Hrm, Hsv.
Qed.

Lemma epoch_no_improvement self b r done :
  best_val_loss self = Some b -> ~ r < b ->
  on_validation_epoch_end format_4f format_float os_path_exists raises self done r
  = (self, [], done, Ok tt).
Proof.
  intros Hb Hge. unfold on_validation_epoch_end. rewrite Hb.
  by destruct (Rlt_dec r b).
Qed.

(** X23.  In a run of validation epochs that starts with a fresh callback
    and in which no call of the file system raises, after at least one
    epoch [best_val_loss] is the least of the validation results seen and
    [best_model_path] is the path of the checkpoint of that loss, which the
    last call saved.  Provided the file system reports a checkpoint just
    saved as present, that checkpoint is the only one saved and not passed
    to [os.remove] since; the callback removes and saves only checkpoints
    of losses seen, and makes no directory other than the output
    directory.  When [os.makedirs] raises at the first epoch, as it does on
    an empty output directory, the exception leaves the callback with the
    loss recorded and no checkpoint path. *)
Theorem best_checkpoint_is_kept dir :
  (forall results self done,
     kept_after_save os_path_exists dir ->
     results <> [] ->
     validation_epochs format_4f format_float os_path_exists raises
       (ValLossCheckpointCallback_init dir) [] results = (self, done, Ok tt) ->
     exists m,
       best_val_loss self = Some m /\ m ∈ results /\ (forall r, r ∈ results -> m <= r) /\
       best_model_path self = Some (checkpoint_path format_4f dir m) /\
       last done = Some (trainer_save_checkpoint (checkpoint_path format_4f dir m)) /\
       live done = {[checkpoint_path format_4f dir m]} /\
       (forall c, c ∈ done ->
          match c with
          | os_makedirs p => p = dir
          | os_remove p | trainer_save_checkpoint p =>
              exists r, r ∈ results /\ p = checkpoint_path format_4f dir r
          end)) /\
  (forall r e,
     os_path_exists [] dir = false -> raises [] (os_makedirs dir) = Some e ->
     on_validation_epoch_end format_4f format_float os_path_exists raises
       (ValLossCheckpointCallback_init dir) [] r
     = (mkValLossCheckpointCallback dir (Some r) None "val_loss",
        [("New best val loss: " ++ format_float r)%string], [], Raise e)).
Proof.
  split.
  - intros results self done Hkept Hne Hrun.
    pose proof (checkpoint_invariant_run dir results [] _ _ _ _ Hkept
                  (checkpoint_invariant_init dir) Hrun) as (Hdir & Hcrit & Hcalls & Hbest).
    rewrite app_nil_l in *.
    destruct (best_val_loss self) as [m|].
    + destruct Hbest as (H1 & H2 & H3 & H4 & H5). exists m. by repeat split.
    + by destruct Hbest as [? _].
  - intros r e Hex Hraise.
    unfold on_validation_epoch_end, save_best_val_model, ValLossCheckpointCallback_init, call.
    cbn [best_val_loss output_dir prev_checkpoint criteria].
    by rewrite Hex, Hraise.
Qed.

End BestCheckpoint.

Section BestCheckpointWitness.
Import Callbacks.
Local Open Scope R_scope.

Lemma example_kept dir : kept_after_save example_exists dir.
Proof.
  intros done p Hlast. apply last_Some in Hlast as [l ->].
  assert (Hp : p ∈ live (l ++ [trainer_save_checkpoint p]))
    by (rewrite live_snoc; set_solver).
  unfold example_exists. split.
  - by rewrite (bool_decide_eq_true_2 _ Hp).
  - rewrite (live_snoc (l ++ [trainer_save_checkpoint p])).
    by rewrite (bool_decide_eq_true_2 _ Hp).
Qed.

Lemma example_run :
  validation_epochs example_format example_format example_exists example_raises
    (ValLossCheckpointCallback_init "out") [] [2; 1 / 2; 3]
  = (mkValLossCheckpointCallback "out" (Some (1 / 2)) (Some "out/val_loss/0.5000.ckpt")
       "val_loss",
     [os_makedirs "out"; trainer_save_checkpoint "out/val_loss/2.0000.ckpt";
      os_remove "out/val_loss/2.0000.ckpt"; trainer_save_checkpoint "out/val_loss/0.5000.ckpt"],
     Ok tt).
Proof.
  assert (P2 : checkpoint_path example_format "out" 2 = "out/val_loss/2.0000.ckpt").
  { unfold checkpoint_path, example_format. destruct (Rlt_dec 2 1); [lra|done]. }
  assert (P12 : checkpoint_path example_format "out" (1 / 2) = "out/val_loss/0.5000.ckpt").
  { unfold checkpoint_path, example_format. destruct (Rlt_dec (1 / 2) 1); [done|lra]. }
  cbn [validation_epochs].
  rewrite epoch_first by (rewrite ?P2; reflexivity).
  rewrite P2.
  rewrite (epoch_improves _ _ _ _ "out" 2 (1 / 2))
    by (rewrite ?P12; first [lra | discriminate | by vm_compute]).
  rewrite P12. cbn [app].
  rewrite (epoch_no_improvement _ _ _ _ _ (1 / 2)) by (first [reflexivity | lra]).
  reflexivity.
Qed.

Lemma best_checkpoint_is_kept_witness :
  (exists m,
     m ∈ [2; 1 / 2; 3] /\ (forall r, r ∈ [2; 1 / 2; 3] -> m <= r) /\
     live [os_makedirs "out"; trainer_save_checkpoint "out/val_loss/2.0000.ckpt";
           os_remove "out/val_loss/2.0000.ckpt";
           trainer_save_checkpoint "out/val_loss/0.5000.ckpt"]
     = {[checkpoint_path example_format "out" m]}) /\
  on_validation_epoch_end example_format example_format example_exists example_raises
    (ValLossCheckpointCallback_init "") [] 2
  = (mkValLossCheckpointCallback "" (Some 2) None "val_loss",
     [("New best val loss: " ++ example_format 2)%string], [],
     Raise (FileNotFoundError "[Errno 2] No such file or directory: ''")).
Proof.
  split.
  - destruct (proj1 (best_checkpoint_is_kept example_format example_format example_exists
                       example_raises "out")
                [2; 1 / 2; 3] _ _ (example_kept "out") ltac:(discriminate) example_run)
      as (m & _ & H1 & H2 & _ & _ & H3 & _).
    exists m. split; [exact H1|]. split; [exact H2 | exact H3].
  - apply (proj2 (best_checkpoint_is_kept example_format example_format example_exists
                    example_raises "")); reflexivity.
Defined.

End BestCheckpointWitness.

